(** * The training loop of composer/trainer/trainer.py

    A shallow embedding of [Trainer]: the training state, the engine that
    dispatches events to the registered extensions, and the methods
    [__init__], [fit], [_epoch_end], [_train_batch], [_train_batch_inner],
    [eval], [_use_grad_scaling], [_use_closures] and [_get_batch_size].

    Python's mutation of [self] and [self.state] is explicit state passing
    in a state-and-exception monad; an exception leaves every mutation made
    before it in place, as in Python.  Calls into collaborators that live
    outside the file (optimizer, scaler, scheduler, checkpointer, logger)
    are recorded in an execution trace.  Tensors holding losses are exact
    rationals. *)

From Stdlib Require Import ZArith QArith List Bool Lia.
Import ListNotations.
Local Open Scope Z_scope.

(** ** Types imported from composer.core *)

(** Modelled from the spec: composer.core.types.Precision is imported by
    trainer.py and is not among the sources; the closed set full, half,
    auto-mixed. *)
Inductive Precision := FP32 | FP16 | AMP.

Definition Precision_eqb (p q : Precision) : bool :=
  match p, q with
  | FP32, FP32 | FP16, FP16 | AMP, AMP => true
  | _, _ => false
  end.

(** Modelled from the spec: composer.utils.ddp.DDPSyncStrategy, the
    enumeration of synchronisation strategies; trainer.py names
    SINGLE_AUTO_SYNC and FORCED_SYNC. *)
Inductive DDPSyncStrategy := SINGLE_AUTO_SYNC | MULTI_AUTO_SYNC | FORCED_SYNC.

(** Modelled from the spec: composer.core.Event, the lifecycle tags; these
    are the ones trainer.py emits. *)
Inductive Event :=
| INIT | TRAINING_START | EPOCH_START | AFTER_DATALOADER | BATCH_START
| BEFORE_TRAIN_BATCH | BEFORE_FORWARD | AFTER_FORWARD | BEFORE_LOSS
| AFTER_LOSS | BEFORE_BACKWARD | AFTER_BACKWARD | AFTER_TRAIN_BATCH
| BATCH_END | EPOCH_END | TRAINING_END
| EVAL_START | EVAL_BATCH_START | EVAL_BEFORE_FORWARD | EVAL_AFTER_FORWARD
| EVAL_BATCH_END | EVAL_END.

(** The exceptions that trainer.py raises or catches, [OSError] for the
    I/O error of a checkpoint that cannot be written, and [UserError] for
    any other exception an extension may raise. *)
Inductive exn :=
| RuntimeError | ValueError | NotImplementedError | AssertionError
| ZeroDivisionError | TypeError | AttributeError | IndexError
| StopIteration | OSError
| BreakEpochException
| UserError (code : nat).

Definition is_BreakEpochException (e : exn) : bool :=
  match e with BreakEpochException => true | _ => false end.

(** ** Data *)

(** A batch is the list of its rows along the leading (sample) dimension;
    a sample is named by a number. *)
Definition Sample := nat.
Definition Batch := list Sample.
Definition Outputs := list Q.
Definition Targets := list Q.
Definition Metrics := list (Outputs * Targets).
Definition ModuleRef := nat.

(** The interface of src/composer/models/base.py.  [metrics] and
    [validate] raise NotImplementedError in the base class: [None]. *)
Module ComposerModel.
Record t := {
  forward : Batch -> Outputs;
  loss : Outputs -> Batch -> list Q;
  metrics : bool -> option Metrics;
  validate : Batch -> option (Outputs * Targets)
}.
End ComposerModel.

(** The static properties of an algorithm that the trainer reads. *)
Module Algorithm.
Record t := {
  find_unused_parameters : bool;
  backwards_create_graph : bool
}.
End Algorithm.

Record Optimizer := {
  opt_id : nat;
  _step_supports_amp_closure : bool
}.

Record GradScaler := {
  is_enabled : bool;
  scale_factor : Q
}.

Inductive IntervalUnit := UnitEpoch | UnitBatch.

(** Modelled from the spec: composer.trainer.checkpoint.Checkpointer, with
    its interval and the unit of the interval.  [write_fails ep st] says
    whether the file system refuses the checkpoint of epoch [ep] and step
    [st]: a write may fail, and the failure propagates as an I/O error. *)
Record Checkpointer := {
  checkpoint_interval_unit : option IntervalUnit;
  save_interval : Z;
  write_fails : Z -> Z -> bool
}.

(** Modelled from the spec: composer.trainer.checkpoint.CheckpointLoader;
    a checkpoint restores epoch and step and carries the state of the
    random-number stream, restored separately. *)
Record CheckpointLoader := {
  ckpt_epoch : Z;
  ckpt_step : Z;
  ckpt_rng : nat
}.

(** Modelled from the spec: composer.core.State, the single mutable record
    of run progress.  [training] is the [training] attribute of every
    module object, [model] the object [state.model] points to, [grads] the
    backward passes accumulated in the parameters' [.grad] since they were
    last zeroed. *)
Record State := {
  epoch : Z;
  step : Z;
  _steps_per_epoch : option Z;
  max_epochs : Z;
  grad_accum : Z;
  precision : Precision;
  batch : Batch;
  outputs : Outputs;
  loss : list Q;
  last_batch_size : Z;
  algorithms : list Algorithm.t;
  optimizers : option (list Optimizer);
  scaler : option GradScaler;
  model : ModuleRef;
  training : ModuleRef -> bool;
  grads : list Q;
  train_metrics : option Metrics;
  train_dataloader : list Batch;
  eval_dataloader : list Batch
}.

(** Modelled from the spec: the two derived properties of State.
    [steps_per_epoch] is the configured bound, or the length the data
    source reports; [batch_idx] is fixed by the invariant
    step == epoch * steps_per_epoch + batch_idx. *)
Definition steps_per_epoch (s : State) : Z :=
  match _steps_per_epoch s with
  | None => Z.of_nat (length (train_dataloader s))
  | Some n => n
  end.

Definition batch_idx (s : State) : Z :=
  step s - epoch s * steps_per_epoch s.

Definition set_epoch (v : Z) (s : State) : State :=
  {| epoch := v; step := step s; _steps_per_epoch := _steps_per_epoch s;
     max_epochs := max_epochs s; grad_accum := grad_accum s;
     precision := precision s; batch := batch s; outputs := outputs s;
     loss := loss s; last_batch_size := last_batch_size s;
     algorithms := algorithms s; optimizers := optimizers s;
     scaler := scaler s; model := model s; training := training s;
     grads := grads s; train_metrics := train_metrics s;
     train_dataloader := train_dataloader s;
     eval_dataloader := eval_dataloader s |}.

Definition set_step (v : Z) (s : State) : State :=
  {| epoch := epoch s; step := v; _steps_per_epoch := _steps_per_epoch s;
     max_epochs := max_epochs s; grad_accum := grad_accum s;
     precision := precision s; batch := batch s; outputs := outputs s;
     loss := loss s; last_batch_size := last_batch_size s;
     algorithms := algorithms s; optimizers := optimizers s;
     scaler := scaler s; model := model s; training := training s;
     grads := grads s; train_metrics := train_metrics s;
     train_dataloader := train_dataloader s;
     eval_dataloader := eval_dataloader s |}.

Definition set_batch (v : Batch) (s : State) : State :=
  {| epoch := epoch s; step := step s; _steps_per_epoch := _steps_per_epoch s;
     max_epochs := max_epochs s; grad_accum := grad_accum s;
     precision := precision s; batch := v; outputs := outputs s;
     loss := loss s; last_batch_size := last_batch_size s;
     algorithms := algorithms s; optimizers := optimizers s;
     scaler := scaler s; model := model s; training := training s;
     grads := grads s; train_metrics := train_metrics s;
     train_dataloader := train_dataloader s;
     eval_dataloader := eval_dataloader s |}.

Definition set_outputs (v : Outputs) (s : State) : State :=
  {| epoch := epoch s; step := step s; _steps_per_epoch := _steps_per_epoch s;
     max_epochs := max_epochs s; grad_accum := grad_accum s;
     precision := precision s; batch := batch s; outputs := v;
     loss := loss s; last_batch_size := last_batch_size s;
     algorithms := algorithms s; optimizers := optimizers s;
     scaler := scaler s; model := model s; training := training s;
     grads := grads s; train_metrics := train_metrics s;
     train_dataloader := train_dataloader s;
     eval_dataloader := eval_dataloader s |}.

Definition set_loss (v : list Q) (s : State) : State :=
  {| epoch := epoch s; step := step s; _steps_per_epoch := _steps_per_epoch s;
     max_epochs := max_epochs s; grad_accum := grad_accum s;
     precision := precision s; batch := batch s; outputs := outputs s;
     loss := v; last_batch_size := last_batch_size s;
     algorithms := algorithms s; optimizers := optimizers s;
     scaler := scaler s; model := model s; training := training s;
     grads := grads s; train_metrics := train_metrics s;
     train_dataloader := train_dataloader s;
     eval_dataloader := eval_dataloader s |}.

Definition set_last_batch_size (v : Z) (s : State) : State :=
  {| epoch := epoch s; step := step s; _steps_per_epoch := _steps_per_epoch s;
     max_epochs := max_epochs s; grad_accum := grad_accum s;
     precision := precision s; batch := batch s; outputs := outputs s;
     loss := loss s; last_batch_size := v;
     algorithms := algorithms s; optimizers := optimizers s;
     scaler := scaler s; model := model s; training := training s;
     grads := grads s; train_metrics := train_metrics s;
     train_dataloader := train_dataloader s;
     eval_dataloader := eval_dataloader s |}.

Definition set_optimizers (v : option (list Optimizer)) (s : State) : State :=
  {| epoch := epoch s; step := step s; _steps_per_epoch := _steps_per_epoch s;
     max_epochs := max_epochs s; grad_accum := grad_accum s;
     precision := precision s; batch := batch s; outputs := outputs s;
     loss := loss s; last_batch_size := last_batch_size s;
     algorithms := algorithms s; optimizers := v;
     scaler := scaler s; model := model s; training := training s;
     grads := grads s; train_metrics := train_metrics s;
     train_dataloader := train_dataloader s;
     eval_dataloader := eval_dataloader s |}.

Definition set_scaler (v : option GradScaler) (s : State) : State :=
  {| epoch := epoch s; step := step s; _steps_per_epoch := _steps_per_epoch s;
     max_epochs := max_epochs s; grad_accum := grad_accum s;
     precision := precision s; batch := batch s; outputs := outputs s;
     loss := loss s; last_batch_size := last_batch_size s;
     algorithms := algorithms s; optimizers := optimizers s;
     scaler := v; model := model s; training := training s;
     grads := grads s; train_metrics := train_metrics s;
     train_dataloader := train_dataloader s;
     eval_dataloader := eval_dataloader s |}.

Definition set_training (v : ModuleRef -> bool) (s : State) : State :=
  {| epoch := epoch s; step := step s; _steps_per_epoch := _steps_per_epoch s;
     max_epochs := max_epochs s; grad_accum := grad_accum s;
     precision := precision s; batch := batch s; outputs := outputs s;
     loss := loss s; last_batch_size := last_batch_size s;
     algorithms := algorithms s; optimizers := optimizers s;
     scaler := scaler s; model := model s; training := v;
     grads := grads s; train_metrics := train_metrics s;
     train_dataloader := train_dataloader s;
     eval_dataloader := eval_dataloader s |}.

Definition set_grads (v : list Q) (s : State) : State :=
  {| epoch := epoch s; step := step s; _steps_per_epoch := _steps_per_epoch s;
     max_epochs := max_epochs s; grad_accum := grad_accum s;
     precision := precision s; batch := batch s; outputs := outputs s;
     loss := loss s; last_batch_size := last_batch_size s;
     algorithms := algorithms s; optimizers := optimizers s;
     scaler := scaler s; model := model s; training := training s;
     grads := v; train_metrics := train_metrics s;
     train_dataloader := train_dataloader s;
     eval_dataloader := eval_dataloader s |}.

Definition set_train_metrics (v : option Metrics) (s : State) : State :=
  {| epoch := epoch s; step := step s; _steps_per_epoch := _steps_per_epoch s;
     max_epochs := max_epochs s; grad_accum := grad_accum s;
     precision := precision s; batch := batch s; outputs := outputs s;
     loss := loss s; last_batch_size := last_batch_size s;
     algorithms := algorithms s; optimizers := optimizers s;
     scaler := scaler s; model := model s; training := training s;
     grads := grads s; train_metrics := v;
     train_dataloader := train_dataloader s;
     eval_dataloader := eval_dataloader s |}.

(** [module.train()] and [module.eval()] on the module object [m]. *)
Definition set_mode (m : ModuleRef) (b : bool) (s : State) : State :=
  set_training (fun m' => if Nat.eqb m' m then b else training s m') s.

(** ** Extensions and the trainer *)

(** An extension's handler for an event reads and mutates the state and
    either returns or raises. *)
Definition Handler := Event -> State -> option exn * State.

(** The calls into collaborators, in the order they happen. *)
Inductive Action :=
| ARunEvent (ev : Event)
| ANext (b : Batch)
| AForward (m : ModuleRef) (b : Batch) (grad_enabled : bool)
| ALoss (m : ModuleRef) (b : Batch)
| AValidate (m : ModuleRef) (b : Batch) (grad_enabled : bool)
| ABackward (l : Q) (create_graph : bool)
| AModelBackward (l : list Q)
| AModelStep
| AZeroGrad (o : Optimizer)
| AOptimizerStep (o : Optimizer)
| AScalerStep (o : Optimizer)
| AScalerUpdate
| AUnscale (o : Optimizer)
| AClipGradNorm (max_norm : Q)
| ASyncContext (is_final_microbatch : bool) (strategy : DDPSyncStrategy)
| ASchedulerStep (per_epoch : bool)
| AMetricsUpdate (o : Outputs) (tg : Targets)
| ALogMetrics (is_train is_batch : bool)
| ALogLoss (total : Q)
| ARestoreRng (r : nat)
| ASaveCheckpoint (ep st : Z)
| AEngineClose.

(** The attributes of [Trainer] and, last, the process-wide state the
    trainer acts on: torch's gradient mode, the random-number stream and
    the trace. *)
Record Trainer := {
  state : State;
  engine_closed : bool;
  engine_handlers : list Handler;
  deepspeed_enabled : bool;
  ddp_sync_strategy : DDPSyncStrategy;
  _grad_clip_norm : option Q;
  validate_every_n_batches : Z;
  validate_every_n_epochs : Z;
  compute_training_metrics : bool;
  _checkpointer : Checkpointer;
  checkpoint_loader : option CheckpointLoader;
  _train_dataloader_iterator : option (list Batch);
  _eval_subset_num_batches : option Z;
  grad_enabled : bool;
  rng : nat;
  trace : list Action
}.

Definition set_state (v : State) (t : Trainer) : Trainer :=
  {| state := v; engine_closed := engine_closed t;
     engine_handlers := engine_handlers t;
     deepspeed_enabled := deepspeed_enabled t;
     ddp_sync_strategy := ddp_sync_strategy t;
     _grad_clip_norm := _grad_clip_norm t;
     validate_every_n_batches := validate_every_n_batches t;
     validate_every_n_epochs := validate_every_n_epochs t;
     compute_training_metrics := compute_training_metrics t;
     _checkpointer := _checkpointer t;
     checkpoint_loader := checkpoint_loader t;
     _train_dataloader_iterator := _train_dataloader_iterator t;
     _eval_subset_num_batches := _eval_subset_num_batches t;
     grad_enabled := grad_enabled t; rng := rng t; trace := trace t |}.

Definition set_engine_closed (v : bool) (t : Trainer) : Trainer :=
  {| state := state t; engine_closed := v;
     engine_handlers := engine_handlers t;
     deepspeed_enabled := deepspeed_enabled t;
     ddp_sync_strategy := ddp_sync_strategy t;
     _grad_clip_norm := _grad_clip_norm t;
     validate_every_n_batches := validate_every_n_batches t;
     validate_every_n_epochs := validate_every_n_epochs t;
     compute_training_metrics := compute_training_metrics t;
     _checkpointer := _checkpointer t;
     checkpoint_loader := checkpoint_loader t;
     _train_dataloader_iterator := _train_dataloader_iterator t;
     _eval_subset_num_batches := _eval_subset_num_batches t;
     grad_enabled := grad_enabled t; rng := rng t; trace := trace t |}.

Definition set_checkpoint_loader (v : option CheckpointLoader) (t : Trainer)
  : Trainer :=
  {| state := state t; engine_closed := engine_closed t;
     engine_handlers := engine_handlers t;
     deepspeed_enabled := deepspeed_enabled t;
     ddp_sync_strategy := ddp_sync_strategy t;
     _grad_clip_norm := _grad_clip_norm t;
     validate_every_n_batches := validate_every_n_batches t;
     validate_every_n_epochs := validate_every_n_epochs t;
     compute_training_metrics := compute_training_metrics t;
     _checkpointer := _checkpointer t;
     checkpoint_loader := v;
     _train_dataloader_iterator := _train_dataloader_iterator t;
     _eval_subset_num_batches := _eval_subset_num_batches t;
     grad_enabled := grad_enabled t; rng := rng t; trace := trace t |}.

Definition set_iterator (v : option (list Batch)) (t : Trainer) : Trainer :=
  {| state := state t; engine_closed := engine_closed t;
     engine_handlers := engine_handlers t;
     deepspeed_enabled := deepspeed_enabled t;
     ddp_sync_strategy := ddp_sync_strategy t;
     _grad_clip_norm := _grad_clip_norm t;
     validate_every_n_batches := validate_every_n_batches t;
     validate_every_n_epochs := validate_every_n_epochs t;
     compute_training_metrics := compute_training_metrics t;
     _checkpointer := _checkpointer t;
     checkpoint_loader := checkpoint_loader t;
     _train_dataloader_iterator := v;
     _eval_subset_num_batches := _eval_subset_num_batches t;
     grad_enabled := grad_enabled t; rng := rng t; trace := trace t |}.

Definition set_grad_enabled (v : bool) (t : Trainer) : Trainer :=
  {| state := state t; engine_closed := engine_closed t;
     engine_handlers := engine_handlers t;
     deepspeed_enabled := deepspeed_enabled t;
     ddp_sync_strategy := ddp_sync_strategy t;
     _grad_clip_norm := _grad_clip_norm t;
     validate_every_n_batches := validate_every_n_batches t;
     validate_every_n_epochs := validate_every_n_epochs t;
     compute_training_metrics := compute_training_metrics t;
     _checkpointer := _checkpointer t;
     checkpoint_loader := checkpoint_loader t;
     _train_dataloader_iterator := _train_dataloader_iterator t;
     _eval_subset_num_batches := _eval_subset_num_batches t;
     grad_enabled := v; rng := rng t; trace := trace t |}.

Definition set_rng (v : nat) (t : Trainer) : Trainer :=
  {| state := state t; engine_closed := engine_closed t;
     engine_handlers := engine_handlers t;
     deepspeed_enabled := deepspeed_enabled t;
     ddp_sync_strategy := ddp_sync_strategy t;
     _grad_clip_norm := _grad_clip_norm t;
     validate_every_n_batches := validate_every_n_batches t;
     validate_every_n_epochs := validate_every_n_epochs t;
     compute_training_metrics := compute_training_metrics t;
     _checkpointer := _checkpointer t;
     checkpoint_loader := checkpoint_loader t;
     _train_dataloader_iterator := _train_dataloader_iterator t;
     _eval_subset_num_batches := _eval_subset_num_batches t;
     grad_enabled := grad_enabled t; rng := v; trace := trace t |}.

Definition set_trace (v : list Action) (t : Trainer) : Trainer :=
  {| state := state t; engine_closed := engine_closed t;
     engine_handlers := engine_handlers t;
     deepspeed_enabled := deepspeed_enabled t;
     ddp_sync_strategy := ddp_sync_strategy t;
     _grad_clip_norm := _grad_clip_norm t;
     validate_every_n_batches := validate_every_n_batches t;
     validate_every_n_epochs := validate_every_n_epochs t;
     compute_training_metrics := compute_training_metrics t;
     _checkpointer := _checkpointer t;
     checkpoint_loader := checkpoint_loader t;
     _train_dataloader_iterator := _train_dataloader_iterator t;
     _eval_subset_num_batches := _eval_subset_num_batches t;
     grad_enabled := grad_enabled t; rng := rng t; trace := v |}.

(** ** The monad of trainer methods *)

(** A method returns, raises, or (only [fit], whose outer loop is bounded
    by fuel) is still running when the fuel is spent. *)
Inductive Result (A : Type) :=
| Val (a : A)
| Raise (e : exn)
| Diverge.
Arguments Val {A} a.
Arguments Raise {A} e.
Arguments Diverge {A}.

Definition M (A : Type) := Trainer -> Result A * Trainer.

Definition ret {A} (a : A) : M A := fun t => (Val a, t).

Definition bind {A B} (m : M A) (k : A -> M B) : M B :=
  fun t =>
    match m t with
    | (Val a, t1) => k a t1
    | (Raise e, t1) => (Raise e, t1)
    | (Diverge, t1) => (Diverge, t1)
    end.

Definition raise {A} (e : exn) : M A := fun t => (Raise e, t).
Definition diverge {A} : M A := fun t => (Diverge, t).
Definition gets {A} (f : Trainer -> A) : M A := fun t => (Val (f t), t).
Definition modify (f : Trainer -> Trainer) : M unit := fun t => (Val tt, f t).

Declare Scope trainer_scope.
Delimit Scope trainer_scope with trainer.
Notation "x <- m ;; k" := (bind m (fun x => k))
  (at level 100, m at next level, right associativity) : trainer_scope.
Notation "m ;; k" := (bind m (fun _ => k))
  (at level 100, right associativity) : trainer_scope.
Local Open Scope trainer_scope.

Definition modify_state (f : State -> State) : M unit :=
  modify (fun t => set_state (f (state t)) t).

Definition log (a : Action) : M unit :=
  modify (fun t => set_trace (trace t ++ [a]) t).

Definition assert (b : bool) : M unit :=
  if b then ret tt else raise AssertionError.

(** [try: m  except E: h] for the exceptions selected by [sel]. *)
Definition try_except {A} (m : M A) (sel : exn -> bool) (h : exn -> M A)
  : M A :=
  fun t =>
    match m t with
    | (Raise e, t1) => if sel e then h e t1 else (Raise e, t1)
    | r => r
    end.

(** [try: body  except: handler  else: orelse]; the handler sees every
    exception, and [orelse] runs outside its protection. *)
Definition try_except_else {A B} (body : M A) (handler : exn -> M B)
    (orelse : M B) : M B :=
  fun t =>
    match body t with
    | (Raise e, t1) => handler e t1
    | (Diverge, t1) => (Diverge, t1)
    | (Val _, t1) => orelse t1
    end.

(** [for x in l: body x]. *)
Fixpoint for_each {A} (l : list A) (body : A -> M unit) : M unit :=
  match l with
  | [] => ret tt
  | x :: l' => body x ;; for_each l' body
  end.

(** [with torch.no_grad(): body]: the previous gradient mode is put back
    when the block is left, by return or by exception. *)
Definition no_grad {A} (body : M A) : M A :=
  fun t =>
    let prev := grad_enabled t in
    let (r, t1) := body (set_grad_enabled false t) in
    (r, set_grad_enabled prev t1).

(** ** The engine *)

(** Modelled from the spec: composer.core.Engine.  [run_event] invokes the
    handler of every registered extension in registration order, each
    seeing the mutations of the ones before it; on a closed engine it
    fails with a life-cycle error.  [close] is idempotent. *)
Fixpoint run_handlers (hs : list Handler) (ev : Event) (s : State)
  : option exn * State :=
  match hs with
  | [] => (None, s)
  | h :: hs' =>
      match h ev s with
      | (None, s1) => run_handlers hs' ev s1
      | (Some e, s1) => (Some e, s1)
      end
  end.

Definition run_event (ev : Event) : M unit :=
  closed <- gets engine_closed ;;
  if closed then raise RuntimeError
  else
    log (ARunEvent ev) ;;
    fun t =>
      match run_handlers (engine_handlers t) ev (state t) with
      | (None, s1) => (Val tt, set_state s1 t)
      | (Some e, s1) => (Raise e, set_state s1 t)
      end.

Definition engine_close : M unit :=
  closed <- gets engine_closed ;;
  if closed then ret tt
  else log AEngineClose ;; modify (set_engine_closed true).

(** Modelled from the spec: Checkpointer.should_checkpoint is true when
    the configured interval, in the configured unit, has elapsed at the
    event. *)
Definition should_checkpoint (c : Checkpointer) (s : State) (ev : Event)
  : bool :=
  match checkpoint_interval_unit c, ev with
  | Some UnitEpoch, EPOCH_END =>
      (0 <? save_interval c) && (epoch s mod save_interval c =? 0)
  | Some UnitBatch, BATCH_END =>
      (0 <? save_interval c) && (step s mod save_interval c =? 0)
  | _, _ => false
  end.

(** [if self._checkpointer.should_checkpoint(state=state, event=...):
       self._checkpointer.save_checkpoint(state=state, ...)]; the call
    is logged, and raises when the checkpoint cannot be written. *)
Definition checkpoint_if_due (ev : Event) : M unit :=
  ck <- gets _checkpointer ;;
  st <- gets state ;;
  if should_checkpoint ck st ev
  then
    log (ASaveCheckpoint (epoch st) (step st)) ;;
    if write_fails ck (epoch st) (step st) then raise OSError else ret tt
  else ret tt.

(** [itertools.islice(dataloader, stop)]: a negative [stop] is a
    ValueError. *)
Definition islice (dl : list Batch) (stop : option Z) : M (list Batch) :=
  match stop with
  | None => ret dl
  | Some n => if n <? 0 then raise ValueError
              else ret (firstn (Z.to_nat n) dl)
  end.

(** Drawing a batch from a data loader consumes random numbers. *)
Definition draw (b : Batch) : M unit :=
  log (ANext b) ;; modify (fun t => set_rng (S (rng t)) t).

(** [_get_batch_size]: the size of the leading dimension.  The source's
    ValueError is for a tuple or dict whose tensors disagree on it, which
    a list of rows cannot express. *)
Definition _get_batch_size (b : Batch) : Z := Z.of_nat (length b).

Definition sumZ (l : list Z) : Z := fold_left Z.add l 0.
Definition sumQ (l : list Q) : Q := fold_left Qplus l 0%Q.

(** [ensure_tuple] of composer.utils: [None] is the empty tuple. *)
Definition ensure_tuple {A} (x : option (list A)) : list A :=
  match x with
  | None => []
  | Some l => l
  end.

(** [for optimizer in state.optimizers]. *)
Definition iter_optimizers : M (list Optimizer) :=
  st <- gets state ;;
  match optimizers st with
  | None => raise TypeError
  | Some os => ret os
  end.

(** The properties [find_unused_parameters] and [backwards_create_graph]
    of the trainer: [any] over the algorithms. *)
Definition find_unused_parameters (s : State) : bool :=
  existsb Algorithm.find_unused_parameters (algorithms s).

Definition backwards_create_graph (s : State) : bool :=
  existsb Algorithm.backwards_create_graph (algorithms s).

Definition scaler_unusable (sc : option GradScaler) : bool :=
  match sc with
  | None => true
  | Some g => negb (is_enabled g)
  end.

Definition _use_grad_scaling (p : Precision) (sc : option GradScaler)
  : M bool :=
  ds <- gets deepspeed_enabled ;;
  if ds then ret false
  else
    let use_grad_scaling := Precision_eqb p AMP in
    if use_grad_scaling && scaler_unusable sc then raise RuntimeError
    else ret use_grad_scaling.

Definition _use_closures : M bool :=
  ds <- gets deepspeed_enabled ;;
  if ds then ret false
  else
    st <- gets state ;;
    if negb (Precision_eqb (precision st) AMP) then ret true
    else
      match optimizers st with
      | None => raise RuntimeError
      | Some os => ret (forallb _step_supports_amp_closure os)
      end.

(** ** The methods of Trainer *)

Section Methods.

(** The code of every module object, the functions that split a batch
    into microbatches ([default_batch_split_fn] is composer.utils.data's,
    [_train_split_fn] the one of a DataloaderSpec) and the optional
    device transformations. *)
Variable module_of : ModuleRef -> ComposerModel.t.
Variable default_batch_split_fn : Batch -> Z -> list Batch.
Variable _train_split_fn : option (Batch -> Z -> list Batch).
Variable _train_device_transformation_fn : option (Batch -> Batch).
Variable _eval_device_transformation_fn : option (Batch -> Batch).

Definition transform (f : option (Batch -> Batch)) : M unit :=
  match f with
  | None => ret tt
  | Some g => modify_state (fun s => set_batch (g (batch s)) s)
  end.

(** [model.metrics(train=is_train)], which raises NotImplementedError
    when the model defines none.  The metrics are taken to be a Metric or
    a MetricCollection: the assertion of lines 738-739 on their type has
    no counterpart. *)
Definition _get_metrics_as_collection (is_train : bool) : M Metrics :=
  st <- gets state ;;
  match ComposerModel.metrics (module_of (model st)) is_train with
  | None => raise NotImplementedError
  | Some ms => ret ms
  end.

Definition _compute_and_log_metrics (is_train is_batch : bool) : M unit :=
  log (ALogMetrics is_train is_batch).

(** One iteration of the loop over the evaluation batches. *)
Definition eval_batch (b : Batch) : M unit :=
  draw b ;;
  modify_state (set_batch b) ;;
  modify_state (fun s => set_last_batch_size (_get_batch_size (batch s)) s) ;;
  transform _eval_device_transformation_fn ;;
  run_event EVAL_BATCH_START ;;
  run_event EVAL_BEFORE_FORWARD ;;
  st <- gets state ;;
  ge <- gets grad_enabled ;;
  log (AValidate (model st) (batch st) ge) ;;
  match ComposerModel.validate (module_of (model st)) (batch st) with
  | None => raise NotImplementedError
  | Some (o, targets) =>
      modify_state (set_outputs o) ;;
      run_event EVAL_AFTER_FORWARD ;;
      st <- gets state ;;
      log (AMetricsUpdate (outputs st) targets) ;;
      run_event EVAL_BATCH_END
  end.

(** The block of [eval] under [torch.no_grad()]. *)
Definition eval_body (is_batch : bool) : M unit :=
  run_event EVAL_START ;;
  _ <- _get_metrics_as_collection false ;;
  st <- gets state ;;
  n <- gets _eval_subset_num_batches ;;
  batches <- islice (eval_dataloader st) n ;;
  for_each batches eval_batch ;;
  _compute_and_log_metrics false is_batch ;;
  run_event EVAL_END.

Definition eval (is_batch : bool) : M unit :=
  st <- gets state ;;
  let model_ := model st in
  let restore_model_train := training st model_ in
  modify_state (set_mode model_ false) ;;
  no_grad (eval_body is_batch) ;;
  if restore_model_train then modify_state (set_mode model_ true)
  else ret tt.

Definition _epoch_end : M unit :=
  log (ASchedulerStep true) ;;
  run_event EPOCH_END ;;
  n <- gets validate_every_n_epochs ;;
  st <- gets state ;;
  (if (0 <? n) && ((epoch st + 1) mod n =? 0) then eval false
   else ret tt) ;;
  modify_state (fun s => set_epoch (epoch s + 1) s) ;;
  checkpoint_if_due EPOCH_END ;;
  modify (set_iterator None).

Definition zero_grad (o : Optimizer) : M unit :=
  log (AZeroGrad o) ;; modify_state (set_grads []).

(** [loss.backward(create_graph=...)] on one component of the loss: the
    call is logged and the gradient accumulated.  A call that torch
    refuses is not modelled; the properties that mention backward passes
    are about runs that return, or hold whatever the run does. *)
Definition backward (create_graph : bool) (l : Q) : M unit :=
  log (ABackward l create_graph) ;;
  modify_state (fun s => set_grads (grads s ++ [l]) s).

(** [for loss in ensure_tuple(state.loss):
       loss.mul_(last_microbatch_size / current_batch_size)
       total_loss += loss.detach().clone()]
    A loss tensor is its value, a rational: the rounding of the
    floating-point operations is left out, and the components of a loss
    are tensors of their own, so that scaling one in place changes no
    other component and no output. *)
Definition scale_and_accumulate (last_microbatch_size current_batch_size : Z)
    (total_loss : Q) : M Q :=
  st <- gets state ;;
  match loss st with
  | [] => ret total_loss
  | _ =>
      if current_batch_size =? 0 then raise ZeroDivisionError
      else
        let w := (inject_Z last_microbatch_size
                  / inject_Z current_batch_size)%Q in
        let scaled := map (fun l => (l * w)%Q) (loss st) in
        modify_state (set_loss scaled) ;;
        ret (fold_left Qplus scaled total_loss)
  end.

(** [state.loss = state.scaler.scale(state.loss)] *)
Definition scale_loss : M unit :=
  st <- gets state ;;
  match scaler st with
  | None => raise AttributeError
  | Some g =>
      modify_state (set_loss (map (fun l => (l * scale_factor g)%Q) (loss st)))
  end.

(** The body of [for microbatch_idx, state.batch in enumerate(microbatches)]. *)
Definition train_microbatch (use_grad_scaling : bool)
    (current_batch_size : Z) (is_final_microbatch : bool) (mb : Batch)
    (total_loss : Q) : M Q :=
  modify_state (set_batch mb) ;;
  ds <- gets deepspeed_enabled ;;
  strategy <- gets ddp_sync_strategy ;;
  (if ds then ret tt else log (ASyncContext is_final_microbatch strategy)) ;;
  st <- gets state ;;
  let last_microbatch_size := _get_batch_size (batch st) in
  run_event BEFORE_FORWARD ;;
  st <- gets state ;;
  ge <- gets grad_enabled ;;
  log (AForward (model st) (batch st) ge) ;;
  modify_state
    (set_outputs (ComposerModel.forward (module_of (model st)) (batch st))) ;;
  run_event AFTER_FORWARD ;;
  run_event BEFORE_LOSS ;;
  st <- gets state ;;
  log (ALoss (model st) (batch st)) ;;
  modify_state
    (set_loss (ComposerModel.loss (module_of (model st)) (outputs st)
                 (batch st))) ;;
  total_loss <- (if ds then ret total_loss
                 else scale_and_accumulate last_microbatch_size
                        current_batch_size total_loss) ;;
  run_event AFTER_LOSS ;;
  run_event BEFORE_BACKWARD ;;
  (if use_grad_scaling then scale_loss else ret tt) ;;
  total_loss <-
    (if ds then
       st <- gets state ;;
       log (AModelBackward (loss st)) ;;
       scale_and_accumulate last_microbatch_size current_batch_size
         total_loss
     else
       st <- gets state ;;
       for_each (loss st) (backward (backwards_create_graph st)) ;;
       ret total_loss) ;;
  run_event AFTER_BACKWARD ;;
  (if ds then log AModelStep else ret tt) ;;
  ret total_loss.

Fixpoint train_microbatches (use_grad_scaling : bool)
    (current_batch_size : Z) (microbatches : list Batch) (total_loss : Q)
  : M Q :=
  match microbatches with
  | [] => ret total_loss
  | mb :: rest =>
      total_loss <- train_microbatch use_grad_scaling current_batch_size
                      (match rest with [] => true | _ => false end)
                      mb total_loss ;;
      train_microbatches use_grad_scaling current_batch_size rest total_loss
  end.

(** Lines 944-1020 of [_train_batch_inner]: the loop over the
    microbatches and what follows it. *)
Definition after_zero_grad (use_grad_scaling ds : bool)
    (microbatches : list Batch) : M Q :=
  let total_loss := 0%Q in
  let current_batch_size := sumZ (map _get_batch_size microbatches) in
  total_loss <- train_microbatches use_grad_scaling current_batch_size
                  microbatches total_loss ;;
  (if use_grad_scaling then
     st <- gets state ;;
     for_each (ensure_tuple (optimizers st)) (fun o => log (AUnscale o))
   else ret tt) ;;
  clip <- gets _grad_clip_norm ;;
  (if negb ds then
     match clip with
     | Some max_norm => log (AClipGradNorm max_norm)
     | None => ret tt
     end
   else ret tt) ;;
  run_event AFTER_TRAIN_BATCH ;;
  ret total_loss.

Definition _train_batch_inner (microbatches : list Batch) (ddp_sync : bool)
  : M Q :=
  run_event BEFORE_TRAIN_BATCH ;;
  st <- gets state ;;
  os <- (match optimizers st with
         | None => raise AssertionError
         | Some os => ret os
         end) ;;
  assert (match scaler st with Some _ => true | None => false end) ;;
  use_grad_scaling <- _use_grad_scaling (precision st) (scaler st) ;;
  ds <- gets deepspeed_enabled ;;
  (if negb ds then for_each os zero_grad else ret tt) ;;
  after_zero_grad use_grad_scaling ds microbatches.

(** [optimizer.step(closure=closure)] and, for the closure-aware scaler,
    [state.scaler.step(optimizer, closure=closure)]: the closure runs
    once, then the parameters are updated. *)
Definition step_with_closure (use_grad_scaling : bool)
    (microbatches : list Batch) (o : Optimizer) : M (option Q) :=
  total_loss <- _train_batch_inner microbatches true ;;
  log (if use_grad_scaling then AScalerStep o else AOptimizerStep o) ;;
  ret (Some total_loss).

Fixpoint step_all_with_closure (use_grad_scaling : bool)
    (microbatches : list Batch) (os : list Optimizer)
    (total_loss : option Q) : M (option Q) :=
  match os with
  | [] => ret total_loss
  | o :: os' =>
      total_loss <- step_with_closure use_grad_scaling microbatches o ;;
      step_all_with_closure use_grad_scaling microbatches os' total_loss
  end.

Definition _train_batch : M unit :=
  st <- gets state ;;
  assert (match scaler st with Some _ => true | None => false end) ;;
  assert (match train_metrics st with Some _ => true | None => false end) ;;
  modify_state (fun s => set_last_batch_size (_get_batch_size (batch s)) s) ;;
  transform _train_device_transformation_fn ;;
  let split_fn := match _train_split_fn with
                  | None => default_batch_split_fn
                  | Some f => f
                  end in
  metrics_on <- gets compute_training_metrics ;;
  (if metrics_on then
     modify_state (fun s => set_mode (model s) false s) ;;
     no_grad (
       st <- gets state ;;
       for_each (split_fn (batch st) (grad_accum st))
         (fun eval_microbatch =>
            st <- gets state ;;
            ge <- gets grad_enabled ;;
            log (AValidate (model st) eval_microbatch ge) ;;
            match ComposerModel.validate (module_of (model st))
                    eval_microbatch with
            | None => raise NotImplementedError
            | Some (o, targets) => log (AMetricsUpdate o targets)
            end))
   else ret tt) ;;
  modify_state (fun s => set_mode (model s) true s) ;;
  run_event AFTER_DATALOADER ;;
  st <- gets state ;;
  let microbatches := split_fn (batch st) (grad_accum st) in
  run_event BATCH_START ;;
  st <- gets state ;;
  use_grad_scaling <- _use_grad_scaling (precision st) (scaler st) ;;
  ds <- gets deepspeed_enabled ;;
  total_loss <-
    (if ds then
       total_loss <- _train_batch_inner microbatches true ;;
       ret (Some total_loss)
     else
       closures <- _use_closures ;;
       if closures then
         os <- iter_optimizers ;;
         step_all_with_closure use_grad_scaling microbatches os None
       else
         total_loss <- _train_batch_inner microbatches true ;;
         os <- iter_optimizers ;;
         for_each os (fun o =>
           log (if use_grad_scaling then AScalerStep o
                else AOptimizerStep o)) ;;
         ret (Some total_loss)) ;;
  (if use_grad_scaling then log AScalerUpdate else ret tt) ;;
  (match total_loss with
   | Some l => log (ALogLoss l)
   | None => ret tt
   end) ;;
  (if metrics_on then _compute_and_log_metrics true true else ret tt) ;;
  run_event BATCH_END ;;
  log (ASchedulerStep false) ;;
  n <- gets validate_every_n_batches ;;
  st <- gets state ;;
  (if (0 <? n) && ((step st + 1) mod n =? 0) then eval true
   else ret tt) ;;
  modify_state (fun s => set_step (step s + 1) s) ;;
  checkpoint_if_due BATCH_END.

(** [state.step < max_step], where [None] is [float('inf')]. *)
Definition below (n : Z) (max_step : option Z) : bool :=
  match max_step with
  | None => true
  | Some m => n <? m
  end.

(** [checkpoint_loader.restore_checkpoint_rng_state(state, device)]. *)
Definition restore_checkpoint_rng_state (cl : CheckpointLoader) : M unit :=
  log (ARestoreRng (ckpt_rng cl)) ;;
  modify (set_rng (ckpt_rng cl)).

(** [for _ in range(n): next(iterator)]; [next] on an exhausted iterator
    raises StopIteration. *)
Fixpoint advance (n : nat) : M unit :=
  match n with
  | O => ret tt
  | S n' =>
      it <- gets _train_dataloader_iterator ;;
      match it with
      | Some (b :: rest) =>
          modify (set_iterator (Some rest)) ;; draw b ;; advance n'
      | Some [] => raise StopIteration
      | None => raise TypeError
      end
  end.

(** The branch of the epoch loop that runs when [batch_idx] is not 0:
    lines 679-688. *)
Definition resume_mid_epoch : M unit :=
  cl <- gets checkpoint_loader ;;
  match cl with
  | None => ret tt
  | Some loader =>
      it <- gets _train_dataloader_iterator ;;
      assert (match it with None => true | Some _ => false end) ;;
      st <- gets state ;;
      batches <- islice (train_dataloader st) (Some (steps_per_epoch st)) ;;
      modify (set_iterator (Some batches)) ;;
      st <- gets state ;;
      advance (Z.to_nat (batch_idx st)) ;;
      restore_checkpoint_rng_state loader ;;
      modify (set_checkpoint_loader None)
  end.

(** The head of the epoch loop: lines 672-690. *)
Definition epoch_start_or_resume : M unit :=
  st <- gets state ;;
  (if batch_idx st =? 0 then
     run_event EPOCH_START ;;
     st <- gets state ;;
     batches <- islice (train_dataloader st) (Some (steps_per_epoch st)) ;;
     modify (set_iterator (Some batches))
   else resume_mid_epoch) ;;
  it <- gets _train_dataloader_iterator ;;
  assert (match it with Some _ => true | None => false end).

(** The inner loop, lines 692-702.  Every iteration takes one batch from
    the iterator, which nothing else advances, so the loop is recursive
    on the batches the iterator still holds. *)
Fixpoint train_batches (max_step : option Z) (remaining : list Batch)
  : M unit :=
  st <- gets state ;;
  if below (step st) max_step then
    match remaining with
    | [] => ret tt
    | b :: rest =>
        modify (set_iterator (Some rest)) ;;
        draw b ;;
        modify_state (set_batch b) ;;
        try_except _train_batch is_BreakEpochException
          (fun _ =>
             modify_state
               (fun s => set_step (step s + (steps_per_epoch s - batch_idx s)) s)) ;;
        train_batches max_step rest
    end
  else ret tt.

(** One iteration of the outer loop, lines 672-705. *)
Definition epoch_iteration (max_step : option Z) : M unit :=
  epoch_start_or_resume ;;
  it <- gets _train_dataloader_iterator ;;
  train_batches max_step (ensure_tuple it) ;;
  st <- gets state ;;
  if batch_idx st =? steps_per_epoch st then _epoch_end else ret tt.

Fixpoint fit_loop (fuel : nat) (max_epoch : Z) (max_step : option Z)
  : M unit :=
  st <- gets state ;;
  if (epoch st <? max_epoch) && below (step st) max_step then
    match fuel with
    | O => diverge
    | S fuel' =>
        epoch_iteration max_step ;;
        fit_loop fuel' max_epoch max_step
    end
  else ret tt.

Definition is_some {A} (x : option A) : bool :=
  match x with Some _ => true | None => false end.

(** [fit]; [fuel] bounds the iterations of the outer [while]. *)
Definition fit (fuel : nat) (num_batches num_epochs : option Z) : M unit :=
  closed <- gets engine_closed ;;
  if closed then raise RuntimeError
  else if is_some num_batches && is_some num_epochs then raise ValueError
  else
    st <- gets state ;;
    if negb (batch_idx st =? 0) && is_some num_epochs then raise ValueError
    else
      let max_step := match num_batches with
                      | Some n => Some (step st + n)
                      | None => None
                      end in
      let max_epoch := match num_epochs with
                       | Some n => epoch st + n
                       | None => max_epochs st
                       end in
      try_except_else
        (fit_loop fuel max_epoch max_step ;; run_event TRAINING_END)
        (fun e => engine_close ;; raise e)
        (st <- gets state ;;
         if epoch st =? max_epochs st then engine_close else ret tt).

(** *** Construction *)

(** The arguments of [__init__] that the modelled part reads, and what
    it takes from the environment: whether torch's GradScaler is enabled
    on this hardware, the random stream after seeding, the initial
    modes of the modules and which checkpoints the file system refuses.
    [optimizer_hparams] is the tuple of optimizers the hyperparameters
    build; [checkpoint_filepath] the checkpoint stored at the path;
    [callbacks] the log destinations followed by the callbacks;
    [ddp_sync_strategy] the strategy that the argument names.  A string
    that names no strategy (line 259), a missing deepspeed package (line
    195) and a data loader without a length (line 237) make the
    constructor raise before the modelled part; they have no counterpart
    here, so the properties of the constructor are about what it raises
    in the modelled part and about the trainers it returns. *)
Record TrainerArgs := {
  arg_model : ModuleRef;
  arg_train_dataloader : list Batch;
  arg_eval_dataloader : list Batch;
  arg_max_epochs : Z;
  arg_algorithms : list (Algorithm.t * Handler);
  arg_optimizer_hparams : list Optimizer;
  arg_grad_accum : Z;
  arg_grad_clip_norm : option Q;
  arg_validate_every_n_batches : Z;
  arg_validate_every_n_epochs : Z;
  arg_compute_training_metrics : bool;
  arg_precision : Precision;
  arg_ddp_sync_strategy : option DDPSyncStrategy;
  arg_callbacks : list Handler;
  arg_checkpoint_filepath : option CheckpointLoader;
  arg_checkpoint_interval_unit : option IntervalUnit;
  arg_checkpoint_interval : Z;
  arg_train_subset_num_batches : option Z;
  arg_eval_subset_num_batches : option Z;
  arg_deepspeed_enabled : bool;
  env_scaler_enabled : bool;
  env_rng : nat;
  env_training : ModuleRef -> bool;
  env_write_fails : Z -> Z -> bool
}.

(** The optimizer built from the default
    [DecoupledSGDWHparams(lr=0.1, momentum=0.9, weight_decay=1.0e-4)]. *)
Variable DecoupledSGDW : Optimizer.

(** [State(...)] and the attributes assigned before the first event,
    lines 176-259; the strategy is chosen on line 257. *)
Definition initial_state (a : TrainerArgs) : State :=
  {| epoch := 0; step := 0;
     _steps_per_epoch := arg_train_subset_num_batches a;
     max_epochs := arg_max_epochs a;
     grad_accum := arg_grad_accum a;
     precision := arg_precision a;
     batch := []; outputs := []; loss := []; last_batch_size := 0;
     algorithms := map fst (arg_algorithms a);
     optimizers := None;
     scaler := None;
     model := arg_model a;
     training := env_training a;
     grads := [];
     train_metrics := None;
     train_dataloader := arg_train_dataloader a;
     eval_dataloader := arg_eval_dataloader a |}.

Definition select_ddp_sync_strategy (requested : option DDPSyncStrategy)
    (s : State) : DDPSyncStrategy :=
  match requested with
  | None => if negb (find_unused_parameters s) then SINGLE_AUTO_SYNC
            else FORCED_SYNC
  | Some strategy => strategy
  end.

Definition initial_trainer (a : TrainerArgs) (s : State) : Trainer :=
  {| state := s;
     engine_closed := false;
     engine_handlers := map snd (arg_algorithms a) ++ arg_callbacks a;
     deepspeed_enabled := arg_deepspeed_enabled a;
     ddp_sync_strategy :=
       select_ddp_sync_strategy (arg_ddp_sync_strategy a) s;
     _grad_clip_norm := arg_grad_clip_norm a;
     validate_every_n_batches := arg_validate_every_n_batches a;
     validate_every_n_epochs := arg_validate_every_n_epochs a;
     compute_training_metrics := arg_compute_training_metrics a;
     _checkpointer :=
       {| checkpoint_interval_unit := None;
          save_interval := arg_checkpoint_interval a;
          write_fails := env_write_fails a |};
     checkpoint_loader := None;
     _train_dataloader_iterator := None;
     _eval_subset_num_batches := arg_eval_subset_num_batches a;
     grad_enabled := true;
     rng := env_rng a;
     trace := [] |}.

Definition set_checkpointer (v : Checkpointer) (t : Trainer) : Trainer :=
  {| state := state t; engine_closed := engine_closed t;
     engine_handlers := engine_handlers t;
     deepspeed_enabled := deepspeed_enabled t;
     ddp_sync_strategy := ddp_sync_strategy t;
     _grad_clip_norm := _grad_clip_norm t;
     validate_every_n_batches := validate_every_n_batches t;
     validate_every_n_epochs := validate_every_n_epochs t;
     compute_training_metrics := compute_training_metrics t;
     _checkpointer := v;
     checkpoint_loader := checkpoint_loader t;
     _train_dataloader_iterator := _train_dataloader_iterator t;
     _eval_subset_num_batches := _eval_subset_num_batches t;
     grad_enabled := grad_enabled t; rng := rng t; trace := trace t |}.

(** [_spin_dataloaders]: the first batch of the evaluation loader and,
    once per completed epoch, the first batch of the training loader. *)
Definition draw_first (dl : list Batch) : M unit :=
  match dl with
  | [] => ret tt
  | b :: _ => draw b
  end.

Definition _spin_dataloaders : M unit :=
  st <- gets state ;;
  draw_first (eval_dataloader st) ;;
  for_each (repeat tt (Z.to_nat (epoch st)))
    (fun _ => st <- gets state ;; draw_first (train_dataloader st)).

(** [load_checkpoint(state)]: epoch and step come back from the
    checkpoint. *)
Definition load_checkpoint (cl : CheckpointLoader) : M unit :=
  modify_state (fun s => set_step (ckpt_step cl) (set_epoch (ckpt_epoch cl) s)).

(** Lines 267-293: the INIT event, the optimizers and the checkpointer. *)
Definition init_optimizers (a : TrainerArgs) : M unit :=
  run_event INIT ;;
  let optimizer_hparams :=
    match arg_optimizer_hparams a with
    | [] => [DecoupledSGDW]
    | hs => hs
    end in
  let optimizers_ := optimizer_hparams in
  (if negb (Nat.eqb (length optimizers_) 1) then raise NotImplementedError
   else ret tt) ;;
  modify_state (set_optimizers (Some optimizers_)) ;;
  ds <- gets deepspeed_enabled ;;
  (if is_some (arg_checkpoint_interval_unit a) && ds
   then raise NotImplementedError else ret tt) ;;
  modify (set_checkpointer
            {| checkpoint_interval_unit := arg_checkpoint_interval_unit a;
               save_interval := arg_checkpoint_interval a;
               write_fails := env_write_fails a |}).

(** Lines 295-301: the checkpoint, when a path is given. *)
Definition init_checkpoint (a : TrainerArgs) : M unit :=
  modify (set_checkpoint_loader None) ;;
  match arg_checkpoint_filepath a with
  | None => ret tt
  | Some cl =>
      ds <- gets deepspeed_enabled ;;
      (if ds then raise NotImplementedError else ret tt) ;;
      modify (set_checkpoint_loader (Some cl)) ;;
      load_checkpoint cl
  end.

(** Lines 343-363: the scaler, the TRAINING_START event and the spinning
    of the data loaders. *)
Definition init_scaler_and_start (a : TrainerArgs) : M unit :=
  _ <- _use_closures ;;
  modify_state (set_scaler (Some {| is_enabled := env_scaler_enabled a;
                                    scale_factor := 65536%Q |})) ;;
  run_event TRAINING_START ;;
  _spin_dataloaders.

(** Lines 365-370: the random stream is restored here only when the
    checkpoint was taken at the start of an epoch. *)
Definition init_restore_rng : M unit :=
  st <- gets state ;;
  cl <- gets checkpoint_loader ;;
  (match cl with
   | Some loader =>
       if batch_idx st =? 0 then
         restore_checkpoint_rng_state loader ;;
         modify (set_checkpoint_loader None)
       else ret tt
   | None => ret tt
   end) ;;
  modify (set_iterator None).

(** Lines 267-370 of [__init__], from the INIT event on. *)
Definition init_body (a : TrainerArgs) : M unit :=
  init_optimizers a ;;
  init_checkpoint a ;;
  init_scaler_and_start a ;;
  init_restore_rng.

(** Line 231 reads the training metrics of the model before the engine
    exists; a model without metrics raises there. *)
Definition __init__ (a : TrainerArgs) : Result Trainer :=
  match ComposerModel.metrics (module_of (arg_model a)) true with
  | None => Raise NotImplementedError
  | Some ms =>
      let s := set_train_metrics (Some ms) (initial_state a) in
      match init_body a (initial_trainer a s) with
      | (Val _, t) => Val t
      | (Raise e, _) => Raise e
      | (Diverge, _) => Diverge
      end
  end.

End Methods.

(** ** Concrete configurations

    A model whose loss is the mean of its per-sample outputs, a splitter
    into two microbatches, and small runs built from them. *)

Module Example.

Definition per_sample (s : Sample) : Q := inject_Z (Z.of_nat s).

Definition mean (l : list Q) : Q :=
  (sumQ l / inject_Z (Z.of_nat (length l)))%Q.

Definition toy : ComposerModel.t :=
  {| ComposerModel.forward := fun b => map per_sample b;
     ComposerModel.loss := fun o _ => [mean o];
     ComposerModel.metrics := fun _ => Some [];
     ComposerModel.validate := fun b => Some (map per_sample b, []) |}.

Definition modules (_ : ModuleRef) : ComposerModel.t := toy.

Definition halves (b : Batch) (_ : Z) : list Batch :=
  [firstn (Nat.div2 (length b)) b; skipn (Nat.div2 (length b)) b].

Definition sgd : Optimizer :=
  {| opt_id := 0; _step_supports_amp_closure := false |}.

Definition adam : Optimizer :=
  {| opt_id := 1; _step_supports_amp_closure := false |}.

Definition plain : Algorithm.t :=
  {| Algorithm.find_unused_parameters := false;
     Algorithm.backwards_create_graph := false |}.

Definition pruning : Algorithm.t :=
  {| Algorithm.find_unused_parameters := true;
     Algorithm.backwards_create_graph := false |}.

Definition quiet : Handler := fun _ s => (None, s).

(** Raises the epoch-skip signal at the start of the batch with global
    step 3, that is after three batches have been processed. *)
Definition skip_after_three : Handler :=
  fun ev s =>
    match ev with
    | BATCH_START =>
        if step s =? 3 then (Some BreakEpochException, s) else (None, s)
    | _ => (None, s)
    end.

(** Switches the model to training mode when evaluation ends. *)
Definition train_at_eval_end : Handler :=
  fun ev s =>
    match ev with
    | EVAL_END => (None, set_mode (model s) true s)
    | _ => (None, s)
    end.

Definition batches (n : nat) : list Batch :=
  map (fun i => [i; 100 + i; 200 + i; 300 + i]%nat) (seq 1 n).

Definition args : TrainerArgs :=
  {| arg_model := 0%nat;
     arg_train_dataloader := batches 10;
     arg_eval_dataloader := batches 2;
     arg_max_epochs := 1;
     arg_algorithms := [(plain, quiet)];
     arg_optimizer_hparams := [];
     arg_grad_accum := 2;
     arg_grad_clip_norm := None;
     arg_validate_every_n_batches := -1;
     arg_validate_every_n_epochs := 1;
     arg_compute_training_metrics := false;
     arg_precision := FP32;
     arg_ddp_sync_strategy := None;
     arg_callbacks := [];
     arg_checkpoint_filepath := None;
     arg_checkpoint_interval_unit := None;
     arg_checkpoint_interval := 1;
     arg_train_subset_num_batches := None;
     arg_eval_subset_num_batches := None;
     arg_deepspeed_enabled := false;
     env_scaler_enabled := false;
     env_rng := 0%nat;
     env_training := fun _ => true;
     env_write_fails := fun _ _ => false |}.

Definition with_algorithms (l : list (Algorithm.t * Handler))
    (a : TrainerArgs) : TrainerArgs :=
  {| arg_model := arg_model a;
     arg_train_dataloader := arg_train_dataloader a;
     arg_eval_dataloader := arg_eval_dataloader a;
     arg_max_epochs := arg_max_epochs a;
     arg_algorithms := l;
     arg_optimizer_hparams := arg_optimizer_hparams a;
     arg_grad_accum := arg_grad_accum a;
     arg_grad_clip_norm := arg_grad_clip_norm a;
     arg_validate_every_n_batches := arg_validate_every_n_batches a;
     arg_validate_every_n_epochs := arg_validate_every_n_epochs a;
     arg_compute_training_metrics := arg_compute_training_metrics a;
     arg_precision := arg_precision a;
     arg_ddp_sync_strategy := arg_ddp_sync_strategy a;
     arg_callbacks := arg_callbacks a;
     arg_checkpoint_filepath := arg_checkpoint_filepath a;
     arg_checkpoint_interval_unit := arg_checkpoint_interval_unit a;
     arg_checkpoint_interval := arg_checkpoint_interval a;
     arg_train_subset_num_batches := arg_train_subset_num_batches a;
     arg_eval_subset_num_batches := arg_eval_subset_num_batches a;
     arg_deepspeed_enabled := arg_deepspeed_enabled a;
     env_scaler_enabled := env_scaler_enabled a;
     env_rng := env_rng a;
     env_training := env_training a;
     env_write_fails := env_write_fails a |}.

Definition with_optimizers (l : list Optimizer) (a : TrainerArgs)
  : TrainerArgs :=
  {| arg_model := arg_model a;
     arg_train_dataloader := arg_train_dataloader a;
     arg_eval_dataloader := arg_eval_dataloader a;
     arg_max_epochs := arg_max_epochs a;
     arg_algorithms := arg_algorithms a;
     arg_optimizer_hparams := l;
     arg_grad_accum := arg_grad_accum a;
     arg_grad_clip_norm := arg_grad_clip_norm a;
     arg_validate_every_n_batches := arg_validate_every_n_batches a;
     arg_validate_every_n_epochs := arg_validate_every_n_epochs a;
     arg_compute_training_metrics := arg_compute_training_metrics a;
     arg_precision := arg_precision a;
     arg_ddp_sync_strategy := arg_ddp_sync_strategy a;
     arg_callbacks := arg_callbacks a;
     arg_checkpoint_filepath := arg_checkpoint_filepath a;
     arg_checkpoint_interval_unit := arg_checkpoint_interval_unit a;
     arg_checkpoint_interval := arg_checkpoint_interval a;
     arg_train_subset_num_batches := arg_train_subset_num_batches a;
     arg_eval_subset_num_batches := arg_eval_subset_num_batches a;
     arg_deepspeed_enabled := arg_deepspeed_enabled a;
     env_scaler_enabled := env_scaler_enabled a;
     env_rng := env_rng a;
     env_training := env_training a;
     env_write_fails := env_write_fails a |}.

Definition with_precision (p : Precision) (a : TrainerArgs) : TrainerArgs :=
  {| arg_model := arg_model a;
     arg_train_dataloader := arg_train_dataloader a;
     arg_eval_dataloader := arg_eval_dataloader a;
     arg_max_epochs := arg_max_epochs a;
     arg_algorithms := arg_algorithms a;
     arg_optimizer_hparams := arg_optimizer_hparams a;
     arg_grad_accum := arg_grad_accum a;
     arg_grad_clip_norm := arg_grad_clip_norm a;
     arg_validate_every_n_batches := arg_validate_every_n_batches a;
     arg_validate_every_n_epochs := arg_validate_every_n_epochs a;
     arg_compute_training_metrics := arg_compute_training_metrics a;
     arg_precision := p;
     arg_ddp_sync_strategy := arg_ddp_sync_strategy a;
     arg_callbacks := arg_callbacks a;
     arg_checkpoint_filepath := arg_checkpoint_filepath a;
     arg_checkpoint_interval_unit := arg_checkpoint_interval_unit a;
     arg_checkpoint_interval := arg_checkpoint_interval a;
     arg_train_subset_num_batches := arg_train_subset_num_batches a;
     arg_eval_subset_num_batches := arg_eval_subset_num_batches a;
     arg_deepspeed_enabled := arg_deepspeed_enabled a;
     env_scaler_enabled := env_scaler_enabled a;
     env_rng := env_rng a;
     env_training := env_training a;
     env_write_fails := env_write_fails a |}.

Definition with_checkpoint (cl : CheckpointLoader) (a : TrainerArgs)
  : TrainerArgs :=
  {| arg_model := arg_model a;
     arg_train_dataloader := arg_train_dataloader a;
     arg_eval_dataloader := arg_eval_dataloader a;
     arg_max_epochs := arg_max_epochs a;
     arg_algorithms := arg_algorithms a;
     arg_optimizer_hparams := arg_optimizer_hparams a;
     arg_grad_accum := arg_grad_accum a;
     arg_grad_clip_norm := arg_grad_clip_norm a;
     arg_validate_every_n_batches := arg_validate_every_n_batches a;
     arg_validate_every_n_epochs := arg_validate_every_n_epochs a;
     arg_compute_training_metrics := arg_compute_training_metrics a;
     arg_precision := arg_precision a;
     arg_ddp_sync_strategy := arg_ddp_sync_strategy a;
     arg_callbacks := arg_callbacks a;
     arg_checkpoint_filepath := Some cl;
     arg_checkpoint_interval_unit := arg_checkpoint_interval_unit a;
     arg_checkpoint_interval := arg_checkpoint_interval a;
     arg_train_subset_num_batches := arg_train_subset_num_batches a;
     arg_eval_subset_num_batches := arg_eval_subset_num_batches a;
     arg_deepspeed_enabled := arg_deepspeed_enabled a;
     env_scaler_enabled := env_scaler_enabled a;
     env_rng := env_rng a;
     env_training := env_training a;
     env_write_fails := env_write_fails a |}.

Definition with_deepspeed (a : TrainerArgs) : TrainerArgs :=
  {| arg_model := arg_model a;
     arg_train_dataloader := arg_train_dataloader a;
     arg_eval_dataloader := arg_eval_dataloader a;
     arg_max_epochs := arg_max_epochs a;
     arg_algorithms := arg_algorithms a;
     arg_optimizer_hparams := arg_optimizer_hparams a;
     arg_grad_accum := arg_grad_accum a;
     arg_grad_clip_norm := arg_grad_clip_norm a;
     arg_validate_every_n_batches := arg_validate_every_n_batches a;
     arg_validate_every_n_epochs := arg_validate_every_n_epochs a;
     arg_compute_training_metrics := arg_compute_training_metrics a;
     arg_precision := arg_precision a;
     arg_ddp_sync_strategy := arg_ddp_sync_strategy a;
     arg_callbacks := arg_callbacks a;
     arg_checkpoint_filepath := arg_checkpoint_filepath a;
     arg_checkpoint_interval_unit := arg_checkpoint_interval_unit a;
     arg_checkpoint_interval := arg_checkpoint_interval a;
     arg_train_subset_num_batches := arg_train_subset_num_batches a;
     arg_eval_subset_num_batches := arg_eval_subset_num_batches a;
     arg_deepspeed_enabled := true;
     env_scaler_enabled := env_scaler_enabled a;
     env_rng := env_rng a;
     env_training := env_training a;
     env_write_fails := env_write_fails a |}.

(** Checkpoints at every interval of the unit [u], on a file system that
    refuses every write. *)
Definition with_failing_checkpoints (u : IntervalUnit) (a : TrainerArgs)
  : TrainerArgs :=
  {| arg_model := arg_model a;
     arg_train_dataloader := arg_train_dataloader a;
     arg_eval_dataloader := arg_eval_dataloader a;
     arg_max_epochs := arg_max_epochs a;
     arg_algorithms := arg_algorithms a;
     arg_optimizer_hparams := arg_optimizer_hparams a;
     arg_grad_accum := arg_grad_accum a;
     arg_grad_clip_norm := arg_grad_clip_norm a;
     arg_validate_every_n_batches := arg_validate_every_n_batches a;
     arg_validate_every_n_epochs := arg_validate_every_n_epochs a;
     arg_compute_training_metrics := arg_compute_training_metrics a;
     arg_precision := arg_precision a;
     arg_ddp_sync_strategy := arg_ddp_sync_strategy a;
     arg_callbacks := arg_callbacks a;
     arg_checkpoint_filepath := arg_checkpoint_filepath a;
     arg_checkpoint_interval_unit := Some u;
     arg_checkpoint_interval := arg_checkpoint_interval a;
     arg_train_subset_num_batches := arg_train_subset_num_batches a;
     arg_eval_subset_num_batches := arg_eval_subset_num_batches a;
     arg_deepspeed_enabled := arg_deepspeed_enabled a;
     env_scaler_enabled := env_scaler_enabled a;
     env_rng := env_rng a;
     env_training := env_training a;
     env_write_fails := fun _ _ => true |}.

Definition construct (a : TrainerArgs) : Result Trainer :=
  __init__ modules sgd a.

(** The trainer a successful construction returns; the empty trainer
    stands in when construction raises. *)
Definition built (a : TrainerArgs) : Trainer :=
  match construct a with
  | Val t => t
  | _ => initial_trainer a (initial_state a)
  end.

Definition run_fit (fuel : nat) (num_batches num_epochs : option Z)
  : M unit :=
  fit modules halves None None None fuel num_batches num_epochs.

(** The trainer after a completed run over its single epoch. *)
Definition finished : Trainer := snd (run_fit 3 None None (built args)).

(** A checkpoint taken after three batches of the first epoch, and one
    taken at the end of it. *)
Definition mid_epoch_checkpoint : CheckpointLoader :=
  {| ckpt_epoch := 0; ckpt_step := 3; ckpt_rng := 42 |}.


Definition resumed_mid_epoch : Trainer :=
  built (with_checkpoint mid_epoch_checkpoint args).

(** A trainer over ten batches whose only extension raises the
    epoch-skip signal after three batches, and the same trainer after one
    iteration of the outer loop of [fit]. *)
Definition skipping : Trainer :=
  built (with_algorithms [(plain, skip_after_three)] args).

Definition after_skipped_epoch : Trainer :=
  snd (epoch_iteration modules halves None None None None skipping).

(** A trainer whose model is in eval mode. *)
Definition in_eval_mode : Trainer :=
  set_state (set_mode 0%nat false (state (built args))) (built args).

(** A trainer holding gradients left over from an earlier batch. *)
Definition with_leftover_grads : Trainer :=
  set_state (set_grads [7%Q; 9%Q] (state (built args))) (built args).



(** A trainer whose model is in eval mode and one of whose extensions
    switches the model to training mode when an evaluation ends. *)
Definition switching_at_eval_end : Trainer :=
  set_state
    (set_mode 0%nat false
       (state (built (with_algorithms [(plain, train_at_eval_end)] args))))
    (built (with_algorithms [(plain, train_at_eval_end)] args)).

End Example.

(** * Vocabulary of the properties *)

(** [pres P m]: running [m] from a trainer that satisfies [P] ends, by
    return or by exception, in a trainer that satisfies [P]. *)
Definition pres {A} (P : Trainer -> Prop) (m : M A) : Prop :=
  forall t, P t -> P (snd (m t)).

Definition is_restore (a : Action) : bool :=
  match a with ARestoreRng _ => true | _ => false end.


(** An invariant that does not read the training state, the engine's
    closed flag, the iterator, the gradient mode or the random stream, and
    that no logged action other than a restoration of the random stream
    disturbs. *)
Record Stable (P : Trainer -> Prop) : Prop := {
  stable_state : forall t s, P t -> P (set_state s t);
  stable_closed : forall t b, P t -> P (set_engine_closed b t);
  stable_iterator : forall t it, P t -> P (set_iterator it t);
  stable_grad : forall t b, P t -> P (set_grad_enabled b t);
  stable_rng : forall t r, P t -> P (set_rng r t);
  stable_log : forall t a, is_restore a = false -> P t ->
                           P (set_trace (trace t ++ [a]) t)
}.



(** [wp m t Q]: the outcome of running [m] from [t], whatever it is,
    satisfies [Q]. *)
Definition wp {A} (m : M A) (t : Trainer) (Q : Result A -> Trainer -> Prop)
  : Prop :=
  Q (fst (m t)) (snd (m t)).

(** Every handler returns, and leaves the precision and the scaler of the
    state as they are. *)
Definition keeps_scaling (h : Handler) : Prop :=
  forall ev s,
    fst (h ev s) = None /\
    precision (snd (h ev s)) = precision s /\
    scaler (snd (h ev s)) = scaler s.

(** A handler leaves the mode of the module object [m] as it is. *)
Definition keeps_mode (m : ModuleRef) (h : Handler) : Prop :=
  forall ev s, training (snd (h ev s)) m = training s m.

(** A call of [validate] is logged with gradients disabled. *)
Definition validate_without_grad (a : Action) : Prop :=
  match a with
  | AValidate _ _ ge => ge = false
  | _ => True
  end.

(** Gradients are disabled and every action logged after [base] is not a
    [validate] with gradients enabled. *)
Definition grad_off_since (base : list Action) (t : Trainer) : Prop :=
  grad_enabled t = false /\
  exists new, trace t = base ++ new /\ Forall validate_without_grad new.

(** The handlers are [hs] and the module object [m] is in mode [b]. *)
Definition mode_is (hs : list Handler) (m : ModuleRef) (b : bool)
    (t : Trainer) : Prop :=
  engine_handlers t = hs /\ training (state t) m = b.

(** A forward or backward pass over a microbatch. *)
Definition is_pass (a : Action) : bool :=
  match a with
  | AForward _ _ _ | ABackward _ _ | AModelBackward _ => true
  | _ => false
  end.

(** The losses whose backward passes a trace holds, in order. *)
Fixpoint backward_losses (tr : list Action) : list Q :=
  match tr with
  | [] => []
  | ABackward l _ :: tr' => l :: backward_losses tr'
  | _ :: tr' => backward_losses tr'
  end.

(** A handler leaves the accumulated gradients as they are. *)
Definition keeps_grads (h : Handler) : Prop :=
  forall ev s, grads (snd (h ev s)) = grads s.

(** The trace extends [base]. *)
Definition extends (base : list Action) (t : Trainer) : Prop :=
  exists new, trace t = base ++ new.

(** The handlers are [hs] and the accumulated gradients are those of the
    backward passes logged after [base]. *)
Definition accumulated (hs : list Handler) (base : list Action) (t : Trainer)
  : Prop :=
  engine_handlers t = hs /\
  exists new, trace t = base ++ new /\ grads (state t) = backward_losses new.

(** A handler leaves the batch, the outputs, the loss and the model of
    the state as they are. *)
Definition transparent (h : Handler) : Prop :=
  forall ev s,
    batch (snd (h ev s)) = batch s /\
    outputs (snd (h ev s)) = outputs s /\
    loss (snd (h ev s)) = loss s /\
    model (snd (h ev s)) = model s.






(** The handlers are [hs], the model is the module object [m] and the
    DeepSpeed flag is [ds]. *)
Definition same_model (hs : list Handler) (m : ModuleRef) (ds : bool)
    (t : Trainer) : Prop :=
  engine_handlers t = hs /\ model (state t) = m /\ deepspeed_enabled t = ds.

(** The first sample of every microbatch a trace forwards. *)
Fixpoint forwarded (tr : list Action) : list Sample :=
  match tr with
  | [] => []
  | AForward _ (x :: _) _ :: tr' => x :: forwarded tr'
  | _ :: tr' => forwarded tr'
  end.

(** ** Invariants that the handlers respect *)

(** The exceptions the trainer raises itself. *)
Definition raised_by_trainer (e : exn) : bool :=
  match e with
  | BreakEpochException | UserError _ => false
  | _ => true
  end.

(** [guarded ok P m]: from a trainer that satisfies [P], [m] ends, by
    return or by exception, in a trainer that satisfies [P], and an
    exception it raises is one that [ok] accepts. *)
Definition guarded {A} (ok : exn -> bool) (P : Trainer -> Prop) (m : M A)
  : Prop :=
  forall t, P t ->
    P (snd (m t)) /\ forall e, fst (m t) = Raise e -> ok e = true.

(** An invariant that the handlers of the extensions maintain, raising
    only exceptions that [ok] accepts, and that does not depend on what
    the processing of a batch writes itself. *)
Record Respected (ok : exn -> bool) (P : Trainer -> Prop) : Prop := {
  resp_raises : forall e, raised_by_trainer e = true -> ok e = true;
  resp_events : forall ev t, P t ->
    P (set_state (snd (run_handlers (engine_handlers t) ev (state t))) t) /\
    forall e, fst (run_handlers (engine_handlers t) ev (state t)) = Some e ->
              ok e = true;
  resp_batch : forall v t, P t -> P (set_state (set_batch v (state t)) t);
  resp_outputs : forall v t, P t -> P (set_state (set_outputs v (state t)) t);
  resp_loss : forall v t, P t -> P (set_state (set_loss v (state t)) t);
  resp_last_batch_size : forall v t,
    P t -> P (set_state (set_last_batch_size v (state t)) t);
  resp_training : forall v t,
    P t -> P (set_state (set_training v (state t)) t);
  resp_grads : forall v t, P t -> P (set_state (set_grads v (state t)) t);
  resp_iterator : forall v t, P t -> P (set_iterator v t);
  resp_loader : forall v t, P t -> P (set_checkpoint_loader v t);
  resp_grad_enabled : forall v t, P t -> P (set_grad_enabled v t);
  resp_rng : forall v t, P t -> P (set_rng v t);
  resp_log : forall a t, P t -> P (set_trace (trace t ++ [a]) t)
}.

(** An invariant that, besides, does not depend on the progress counters. *)
Record Steady (ok : exn -> bool) (P : Trainer -> Prop) : Prop := {
  steady_respected : Respected ok P;
  steady_epoch : forall v t, P t -> P (set_state (set_epoch v (state t)) t);
  steady_step : forall v t, P t -> P (set_state (set_step v (state t)) t)
}.

Definition any_exn (e : exn) : bool := true.

(** The engine has not been closed. *)
Definition engine_open (t : Trainer) : Prop := engine_closed t = false.

(** [engine.close()] on an open engine. *)
Definition closed_after (t : Trainer) : Trainer :=
  set_engine_closed true (set_trace (trace t ++ [AEngineClose]) t).

(** A handler leaves the progress of the run alone, that is the epoch,
    the step, the bounds and the training data, and never raises the
    epoch-skip signal. *)
Definition paced (h : Handler) : Prop :=
  forall ev s,
    fst (h ev s) <> Some BreakEpochException /\
    epoch (snd (h ev s)) = epoch s /\
    step (snd (h ev s)) = step s /\
    _steps_per_epoch (snd (h ev s)) = _steps_per_epoch s /\
    max_epochs (snd (h ev s)) = max_epochs s /\
    train_dataloader (snd (h ev s)) = train_dataloader s.

Definition not_skip (e : exn) : bool := negb (is_BreakEpochException e).

(** The run of [t0] at epoch [e] and step [s]: the handlers, the bounds
    and the training data are those of [t0]. *)
Definition at_progress (t0 : Trainer) (e s : Z) (t : Trainer) : Prop :=
  engine_handlers t = engine_handlers t0 /\
  _steps_per_epoch (state t) = _steps_per_epoch (state t0) /\
  max_epochs (state t) = max_epochs (state t0) /\
  train_dataloader (state t) = train_dataloader (state t0) /\
  epoch (state t) = e /\ step (state t) = s.

(** How many of [n] remaining batches the inner loop of [fit] takes from
    step [s] under the bound [max_step]. *)
Definition taken (max_step : option Z) (s : Z) (n : nat) : nat :=
  match max_step with
  | None => n
  | Some m => Nat.min n (Z.to_nat (m - s))
  end.

(** The step [s] has not passed the bound [max_step]. *)
Definition within (max_step : option Z) (s : Z) : Prop :=
  match max_step with
  | Some m => s <= m
  | None => True
  end.

(** The trainer stopped in the checkpoint that was due at the event
    [ev]: the last call is the saving of a checkpoint of the state it
    holds, and the write failed. *)
Definition failed_at_save (ev : Event) (t : Trainer) : Prop :=
  should_checkpoint (_checkpointer t) (state t) ev = true /\
  write_fails (_checkpointer t) (epoch (state t)) (step (state t)) = true /\
  exists before,
    trace t
    = before ++ [ASaveCheckpoint (epoch (state t)) (step (state t))].

(** The outcome of a batch: counted when it returns; when it raises, it
    is not counted unless the exception is the I/O error of the checkpoint
    after the batch, which is written when the batch has been counted.
    What it raises is not the epoch-skip signal. *)
Definition batch_outcome (t0 : Trainer) (e s : Z) (r : Result unit)
    (t : Trainer) : Prop :=
  match r with
  | Val _ => at_progress t0 e (s + 1) t
  | Raise x =>
      not_skip x = true /\
      (at_progress t0 e s t \/
       (x = OSError /\ at_progress t0 e (s + 1) t /\
        failed_at_save BATCH_END t))
  | Diverge => True
  end.

(** The outcome of the end of an epoch; its checkpoint is written when
    the epoch has been incremented. *)
Definition epoch_outcome (t0 : Trainer) (e s : Z) (r : Result unit)
    (t : Trainer) : Prop :=
  match r with
  | Val _ => at_progress t0 (e + 1) s t /\ _train_dataloader_iterator t = None
  | Raise x =>
      not_skip x = true /\
      (at_progress t0 e s t \/
       (x = OSError /\ at_progress t0 (e + 1) s t /\
        failed_at_save EPOCH_END t))
  | Diverge => True
  end.

(** The outcome of one iteration of the loop over the epochs, started at
    epoch [e] and step [s]: the epoch is [e] or [e_next], the step has not
    decreased and has not passed the bound. *)
Definition loop_outcome (t0 : Trainer) (e s : Z) (max_step : option Z)
    (e_next : Z) (r : Result unit) (t : Trainer) : Prop :=
  match r with
  | Val _ =>
      exists e' s',
        at_progress t0 e' s' t /\ (e' = e \/ e' = e_next) /\ s <= s' /\
        within max_step s'
  | Raise x => not_skip x = true
  | Diverge => True
  end.

(** ** Projections of the trace *)

(** The events a trace fires, in order. *)
Fixpoint events (tr : list Action) : list Event :=
  match tr with
  | [] => []
  | ARunEvent ev :: tr' => ev :: events tr'
  | _ :: tr' => events tr'
  end.

(** The batches a trace passes to [validate], in order. *)
Fixpoint validated (tr : list Action) : list Batch :=
  match tr with
  | [] => []
  | AValidate _ b _ :: tr' => b :: validated tr'
  | _ :: tr' => validated tr'
  end.

(** A handler leaves the batch and the evaluation data of the state as
    they are. *)
Definition keeps_eval_data (h : Handler) : Prop :=
  forall ev s,
    batch (snd (h ev s)) = batch s /\
    eval_dataloader (snd (h ev s)) = eval_dataloader s.

(** The events of one evaluation batch. *)
Definition eval_batch_events : list Event :=
  [EVAL_BATCH_START; EVAL_BEFORE_FORWARD; EVAL_AFTER_FORWARD; EVAL_BATCH_END].

(** [itertools.islice(dataloader, stop)] for a [stop] that is not
    negative. *)
Definition subset (stop : option Z) (dl : list Batch) : list Batch :=
  match stop with
  | None => dl
  | Some n => firstn (Z.to_nat n) dl
  end.

(** The optional device transformation. *)
Definition transformed (f : option (Batch -> Batch)) (b : Batch) : Batch :=
  match f with
  | None => b
  | Some g => g b
  end.

(** What a trace shows of the processing of a microbatch: the events and
    the passes between them. *)
Inductive Phase :=
| PEvent (ev : Event)
| PForward
| PLoss
| PBackward.

Fixpoint phases (tr : list Action) : list Phase :=
  match tr with
  | [] => []
  | ARunEvent ev :: tr' => PEvent ev :: phases tr'
  | AForward _ _ _ :: tr' => PForward :: phases tr'
  | ALoss _ _ :: tr' => PLoss :: phases tr'
  | ABackward _ _ :: tr' => PBackward :: phases tr'
  | AModelBackward _ :: tr' => PBackward :: phases tr'
  | _ :: tr' => phases tr'
  end.

(** The phases of one microbatch whose loss has [n] components, each with
    a backward pass of its own; DeepSpeed runs one backward pass. *)
Definition microbatch_phases (n : nat) : list Phase :=
  [PEvent BEFORE_FORWARD; PForward; PEvent AFTER_FORWARD;
   PEvent BEFORE_LOSS; PLoss; PEvent AFTER_LOSS; PEvent BEFORE_BACKWARD]
  ++ repeat PBackward n ++ [PEvent AFTER_BACKWARD].

(** The events of one microbatch. *)
Definition microbatch_events : list Event :=
  [BEFORE_FORWARD; AFTER_FORWARD; BEFORE_LOSS; AFTER_LOSS; BEFORE_BACKWARD;
   AFTER_BACKWARD].

(** The phases of a batch whose microbatches run [ns] backward passes. *)
Definition batch_phases (ns : list nat) : list Phase :=
  PEvent BEFORE_TRAIN_BATCH :: concat (map microbatch_phases ns)
  ++ [PEvent AFTER_TRAIN_BATCH].

(** The number of components of the loss of a microbatch. *)
Definition loss_components (c : ComposerModel.t) (mb : Batch) : nat :=
  length (ComposerModel.loss c (ComposerModel.forward c mb) mb).

(** DeepSpeed is enabled. *)
Definition deepspeed_on (t : Trainer) : Prop := deepspeed_enabled t = true.

(** The trainer after the batches [l] have been drawn from data loaders. *)
Definition draws (l : list Batch) (t : Trainer) : Trainer :=
  set_rng (rng t + length l)%nat (set_trace (trace t ++ map ANext l) t).

(** The batches [_spin_dataloaders] draws: the first batch of the
    evaluation data, then the first batch of the training data once for
    every completed epoch. *)
Definition spun (s : State) : list Batch :=
  firstn 1 (eval_dataloader s)
  ++ concat (repeat (firstn 1 (train_dataloader s)) (Z.to_nat (epoch s))).

(** What the constructor supports: a model with training metrics, at
    most one optimizer, and no checkpointing together with DeepSpeed. *)
Definition supported (module_of : ModuleRef -> ComposerModel.t)
    (a : TrainerArgs) : bool :=
  is_some (ComposerModel.metrics (module_of (arg_model a)) true)
  && (length (arg_optimizer_hparams a) <=? 1)%nat
  && negb (arg_deepspeed_enabled a
           && (is_some (arg_checkpoint_interval_unit a)
               || is_some (arg_checkpoint_filepath a))).

(** ** The size of a batch of any form *)

(** [_get_batch_size] over the forms of a batch the source distinguishes.
    An object found in a batch is a tensor, given by its shape, or
    something else, which has no attribute [shape].  An element of a list
    or tuple is given by the objects that [ensure_tuple] yields for it. *)
Module Shapes.

Inductive Item :=
| ITensor (shape : list Z)
| IOther.

Inductive Batch :=
| BTensor (shape : list Z)
| BSequence (elements : list (list Item))
| BDict (values : list Item)
| BOther.

(** [t.shape[0]]: an object that is no tensor has no [shape], and the
    shape of a tensor without dimensions has no first entry. *)
Definition shape0 (x : Item) : Result Z :=
  match x with
  | ITensor (n :: _) => Val n
  | ITensor [] => Raise IndexError
  | IOther => Raise AttributeError
  end.

(** The objects whose sizes lines 796-801 collect, in order. *)
Definition items (b : Batch) : list Item :=
  match b with
  | BSequence elements => concat elements
  | BDict values => values
  | _ => []
  end.

(** The list [dim0_sizes]: the first object without a size ends the
    collection with its exception. *)
Fixpoint dim0_sizes (l : list Item) : Result (list Z) :=
  match l with
  | [] => Val []
  | x :: rest =>
      match shape0 x with
      | Val n =>
          match dim0_sizes rest with
          | Val sizes => Val (n :: sizes)
          | Raise e => Raise e
          | Diverge => Diverge
          end
      | Raise e => Raise e
      | Diverge => Diverge
      end
  end.

Definition _get_batch_size (b : Batch) : Result Z :=
  match b with
  | BTensor shape => shape0 (ITensor shape)
  | _ =>
      match dim0_sizes (items b) with
      | Val sizes =>
          if (length (nodup Z.eq_dec sizes) =? 1)%nat
          then Val (hd 0 sizes)
          else Raise ValueError
      | Raise e => Raise e
      | Diverge => Diverge
      end
  end.

(** Every size of the list is [n], and there is one. *)
Definition uniform (n : Z) (l : list Z) : Prop :=
  l <> [] /\ forall x, In x l -> x = n.

(** The objects of [l] are tensors with the leading dimensions [sizes]. *)
Definition sized (l : list Item) (sizes : list Z) : Prop :=
  map shape0 l = map (@Val Z) sizes.

(** The first object of [l] without a size is [x]. *)
Definition first_unsized (l : list Item) (x : Item) : Prop :=
  exists before sizes rest,
    l = before ++ x :: rest /\ sized before sizes /\
    forall n, shape0 x <> Val n.

(** The batch is a list, a tuple, a dict or of another type. *)
Definition collection (b : Batch) : Prop :=
  forall shape, b <> BTensor shape.

End Shapes.

(** ** The callbacks and the log destinations *)

(** The two lists that the properties [callbacks] and [log_destinations]
    of the trainer read and write: [self.logger.backends] and
    [self.state.callbacks], two list objects of their own.  A callback is
    named by a number; two are equal when they are the same object. *)
Module Registry.

Record t := {
  backends : list nat;
  callbacks : list nat
}.

(** What a setter is given: a sequence of its own, or the very list that
    one of the two getters returned, which the setter may change while it
    reads it. *)
Inductive Assigned :=
| Fresh (l : list nat)
| TheCallbacks
| TheBackends.

(** What the assigned object holds when the lists are those of [r]. *)
Definition content (x : Assigned) (r : t) : list nat :=
  match x with
  | Fresh l => l
  | TheCallbacks => callbacks r
  | TheBackends => backends r
  end.

(** [list.remove(x)]: the first occurrence goes; ValueError when there is
    none. *)
Fixpoint remove (x : nat) (l : list nat) : option (list nat) :=
  match l with
  | [] => None
  | y :: l' =>
      if Nat.eqb y x then Some l'
      else match remove x l' with
           | Some r => Some (y :: r)
           | None => None
           end
  end.

(** [for log_destination in self.logger.backends:
       self.state.callbacks.remove(log_destination)]; the removals made
    before a failing one stay. *)
Fixpoint remove_each (xs : list nat) (l : list nat) : Result unit * list nat :=
  match xs with
  | [] => (Val tt, l)
  | x :: xs' =>
      match remove x l with
      | Some l' => remove_each xs' l'
      | None => (Raise ValueError, l)
      end
  end.

(** The getter and the setter of [callbacks], lines 514-522; the setter
    builds a new list. *)
Definition get_callbacks : Assigned := TheCallbacks.

Definition set_callbacks (x : Assigned) (r : t) : t :=
  {| backends := backends r; callbacks := backends r ++ content x r |}.

(** The getter and the setter of [log_destinations], lines 576-590.  The
    removals of lines 583-584 change the list of the callbacks in place,
    so an argument that is this very list is read, on lines 587 and 590,
    as the removals left it; line 587 writes into the list of the
    backends, line 590 builds a new list. *)
Definition get_log_destinations : Assigned := TheBackends.

Definition set_log_destinations (x : Assigned) (r : t) : Result unit * t :=
  match remove_each (backends r) (callbacks r) with
  | (Val _, rest) =>
      let log_destinations :=
        content x {| backends := backends r; callbacks := rest |} in
      (Val tt, {| backends := log_destinations;
                  callbacks := log_destinations ++ rest |})
  | (e, rest) => (e, {| backends := backends r; callbacks := rest |})
  end.

End Registry.

(** The calls the trainer makes on the optimizers, the scaler and the
    gradients itself; with DeepSpeed they are left to the DeepSpeed
    engine. *)
Definition left_to_deepspeed (a : Action) : bool :=
  match a with
  | AZeroGrad _ | AOptimizerStep _ | AScalerStep _ | AScalerUpdate
  | AUnscale _ | AClipGradNorm _ | ABackward _ _ | ASyncContext _ _ => true
  | _ => false
  end.

(** DeepSpeed is enabled and no action logged after [base] is one of
    those. *)
Definition delegating (base : list Action) (t : Trainer) : Prop :=
  deepspeed_enabled t = true /\
  exists new,
    trace t = base ++ new /\
    Forall (fun a => left_to_deepspeed a = false) new.

(** The calls on the DeepSpeed engine. *)
Definition on_deepspeed_engine (a : Action) : bool :=
  match a with
  | AModelBackward _ | AModelStep => true
  | _ => false
  end.

(** DeepSpeed is not enabled and no action logged after [base] is a call
    on the DeepSpeed engine. *)
Definition standalone (base : list Action) (t : Trainer) : Prop :=
  deepspeed_enabled t = false /\
  exists new,
    trace t = base ++ new /\
    Forall (fun a => on_deepspeed_engine a = false) new.

(** What the trace shows when the first microbatch fails at the scaling
    of its loss. *)
Definition phases_to_first_loss : list Phase :=
  [PEvent BEFORE_TRAIN_BATCH; PEvent BEFORE_FORWARD; PForward;
   PEvent AFTER_FORWARD; PEvent BEFORE_LOSS; PLoss].

(** What the trace shows of a microbatch up to its loss. *)
Definition phases_to_loss : list Phase :=
  [PEvent BEFORE_FORWARD; PForward; PEvent AFTER_FORWARD;
   PEvent BEFORE_LOSS; PLoss].

(** The run stopped with the exception [e] after the phases [done]: they
    are the first of [expected], and all of them only if [e] is the
    division by zero. *)
Definition stopped_within (expected : list Phase) (base : list Action)
    {A} (r : Result A) (t : Trainer) : Prop :=
  exists e done,
    r = Raise e /\
    phases (trace t) = phases base ++ done /\
    (exists rest, expected = done ++ rest) /\
    (done = expected -> e = ZeroDivisionError).

(** The DDP sync contexts a trace enters: for each the flag
    [is_final_microbatch] and the strategy it was given. *)
Fixpoint sync_contexts (tr : list Action) : list (bool * DDPSyncStrategy) :=
  match tr with
  | [] => []
  | ASyncContext is_final strategy :: tr' =>
      (is_final, strategy) :: sync_contexts tr'
  | _ :: tr' => sync_contexts tr'
  end.

(** The flags of [n] microbatches of which only the last is final. *)
Definition final_only (n : nat) : list bool :=
  repeat false (Nat.pred n) ++ match n with O => [] | S _ => [true] end.

(** DeepSpeed is off and the sync strategy is [strategy]. *)
Definition syncing (strategy : DDPSyncStrategy) (t : Trainer) : Prop :=
  deepspeed_enabled t = false /\ ddp_sync_strategy t = strategy.

(** * Properties *)

(** ** Guards at the entry of fit *)

Section FitGuards.

Variable module_of : ModuleRef -> ComposerModel.t.
Variable default_batch_split_fn : Batch -> Z -> list Batch.
Variable _train_split_fn : option (Batch -> Z -> list Batch).
Variable _train_device_transformation_fn : option (Batch -> Batch).
Variable _eval_device_transformation_fn : option (Batch -> Batch).

Local Abbreviation fit_ :=
  (fit module_of default_batch_split_fn _train_split_fn
     _train_device_transformation_fn _eval_device_transformation_fn).

(** C3.  On a trainer whose engine is closed, [fit] raises RuntimeError,
    whatever its arguments, and the trainer, training state included, is
    exactly as it was: the check comes before any mutation. *)
Theorem fit_closed_engine_raises (fuel : nat) (num_batches num_epochs : option Z)
    (t : Trainer) :
  engine_closed t = true ->
  fit_ fuel num_batches num_epochs t = (Raise RuntimeError, t).
Proof.
  intro Hclosed.
  unfold fit, bind, gets.
  rewrite Hclosed. reflexivity.
Qed.

(** C8, amended.  On a trainer whose engine is not closed, [fit] with
    both [num_batches] and [num_epochs], or with [num_epochs] while
    [batch_idx] is not 0, raises ValueError and the trainer, training
    state and trace included, is exactly as it was: no batch has been
    processed. *)
Theorem fit_rejects_arguments (fuel : nat) (num_batches num_epochs : option Z)
    (t : Trainer) :
  engine_closed t = false ->
  (is_some num_batches = true /\ is_some num_epochs = true) \/
  (batch_idx (state t) <> 0 /\ is_some num_epochs = true) ->
  fit_ fuel num_batches num_epochs t = (Raise ValueError, t).
Proof.
  intros Hopen Hargs.
  unfold fit, bind, gets.
  rewrite Hopen.
  destruct Hargs as [[Hb He] | [Hidx He]].
  - rewrite Hb, He. reflexivity.
  - rewrite He, andb_true_r.
    destruct (is_some num_batches); simpl; [reflexivity |].
    apply Z.eqb_neq in Hidx. rewrite Hidx. reflexivity.
Qed.

End FitGuards.

(** ** Invariants of trainer methods *)

Section PresRules.

Variable P : Trainer -> Prop.

Lemma pres_ret {A} (a : A) : pres P (ret a).
Proof. intros t Ht; exact Ht. Qed.

Lemma pres_raise {A} (e : exn) : pres P (@raise A e).
Proof. intros t Ht; exact Ht. Qed.

Lemma pres_diverge {A} : pres P (@diverge A).
Proof. intros t Ht; exact Ht. Qed.

Lemma pres_gets {A} (f : Trainer -> A) : pres P (gets f).
Proof. intros t Ht; exact Ht. Qed.

Lemma pres_modify (f : Trainer -> Trainer) :
  (forall t, P t -> P (f t)) -> pres P (modify f).
Proof. intros Hf t Ht; apply Hf, Ht. Qed.

Lemma pres_bind {A B} (m : M A) (k : A -> M B) :
  pres P m -> (forall a, pres P (k a)) -> pres P (bind m k).
Proof.
  intros Hm Hk t Ht. unfold bind.
  specialize (Hm t Ht).
  destruct (m t) as [[a | e |] t1]; simpl in *; auto.
  apply Hk, Hm.
Qed.

Lemma pres_try_except {A} (m : M A) (sel : exn -> bool) (h : exn -> M A) :
  pres P m -> (forall e, pres P (h e)) -> pres P (try_except m sel h).
Proof.
  intros Hm Hh t Ht. unfold try_except.
  specialize (Hm t Ht).
  destruct (m t) as [[a | e |] t1]; simpl in *; auto.
  destruct (sel e); simpl; auto.
  apply Hh, Hm.
Qed.

Lemma pres_for_each {A} (l : list A) (body : A -> M unit) :
  (forall x, pres P (body x)) -> pres P (for_each l body).
Proof.
  intro Hbody. induction l as [| x l IH]; simpl.
  - apply pres_ret.
  - apply pres_bind; auto.
Qed.

Lemma pres_no_grad {A} (body : M A) :
  (forall t b, P t -> P (set_grad_enabled b t)) ->
  pres P body -> pres P (no_grad body).
Proof.
  intros Hg Hbody t Ht. unfold no_grad.
  specialize (Hbody (set_grad_enabled false t) (Hg _ _ Ht)).
  destruct (body (set_grad_enabled false t)) as [r t1]; simpl in *.
  apply Hg, Hbody.
Qed.

End PresRules.

Lemma pres_assert (P : Trainer -> Prop) (b : bool) : pres P (assert b).
Proof. destruct b; intros t Ht; exact Ht. Qed.

Lemma pres_log (P : Trainer -> Prop) (a : Action) :
  (forall t, P t -> P (set_trace (trace t ++ [a]) t)) -> pres P (log a).
Proof. intro H. apply pres_modify, H. Qed.

Lemma pres_modify_state (P : Trainer -> Prop) (f : State -> State) :
  (forall t, P t -> P (set_state (f (state t)) t)) -> pres P (modify_state f).
Proof. intro H. apply pres_modify, H. Qed.

Lemma pres_run_event (P : Trainer -> Prop) (ev : Event) :
  (forall t, P t -> P (set_trace (trace t ++ [ARunEvent ev]) t)) ->
  (forall t, P t ->
             P (set_state (snd (run_handlers (engine_handlers t) ev (state t))) t)) ->
  pres P (run_event ev).
Proof.
  intros Hlog Hrun t Ht.
  unfold run_event, bind, gets, log, modify.
  destruct (engine_closed t); simpl; [exact Ht |].
  specialize (Hrun _ (Hlog t Ht)). simpl in Hrun.
  destruct (run_handlers (engine_handlers t) ev (state t)) as [[e |] s1];
    simpl in *; exact Hrun.
Qed.

(** The structural steps of a proof of [pres]. *)
Ltac pres_struct :=
  lazymatch goal with
  | |- pres _ (bind _ _) => apply pres_bind; [| intro]
  | |- pres _ (ret _) => apply pres_ret
  | |- pres _ (raise _) => apply pres_raise
  | |- pres _ diverge => apply pres_diverge
  | |- pres _ (gets _) => apply pres_gets
  | |- pres _ (assert _) => apply pres_assert
  | |- pres _ (for_each _ _) => apply pres_for_each; intro
  | |- pres _ (try_except _ _ _) => apply pres_try_except; [| intro]
  | |- pres _ (match ?x with _ => _ end) => destruct x
  end.



Ltac pres_leaf HS :=
  lazymatch goal with
  | |- pres _ (modify_state _) =>
      apply pres_modify_state; intros; apply (stable_state _ HS); assumption
  | |- pres _ (log _) =>
      apply pres_log; intros; apply (stable_log _ HS); [| assumption];
      repeat match goal with
             | |- context [if ?b then _ else _] => destruct b
             end; reflexivity
  | |- pres _ (run_event _) =>
      apply pres_run_event; intros;
      [apply (stable_log _ HS); [reflexivity | assumption]
      | apply (stable_state _ HS); assumption]
  | |- pres _ (modify (set_iterator _)) =>
      apply pres_modify; intros; apply (stable_iterator _ HS); assumption
  | |- pres _ (modify (set_engine_closed _)) =>
      apply pres_modify; intros; apply (stable_closed _ HS); assumption
  | |- pres _ (modify (fun t => set_rng _ t)) =>
      apply pres_modify; intros; apply (stable_rng _ HS); assumption
  | |- pres _ (no_grad _) =>
      apply pres_no_grad; [intros; apply (stable_grad _ HS); assumption |]
  end.

Create HintDb pres discriminated.

Ltac pres_auto HS :=
  repeat first [ pres_struct | pres_leaf HS | solve [auto with pres] ].

Section Frame.

Variable module_of : ModuleRef -> ComposerModel.t.
Variable default_batch_split_fn : Batch -> Z -> list Batch.
Variable _train_split_fn : option (Batch -> Z -> list Batch).
Variable _train_device_transformation_fn : option (Batch -> Batch).
Variable _eval_device_transformation_fn : option (Batch -> Batch).

Variable P : Trainer -> Prop.
Hypothesis HS : Stable P.

Lemma pres_engine_close : pres P engine_close.
Proof. unfold engine_close. pres_auto HS. Qed.

Lemma pres_checkpoint_if_due ev : pres P (checkpoint_if_due ev).
Proof. unfold checkpoint_if_due. pres_auto HS. Qed.

Lemma pres_islice dl stop : pres P (islice dl stop).
Proof. unfold islice. pres_auto HS. Qed.

Lemma pres_draw b : pres P (draw b).
Proof. unfold draw. pres_auto HS. Qed.

Lemma pres_transform f : pres P (transform f).
Proof. unfold transform. pres_auto HS. Qed.

Lemma pres_iter_optimizers : pres P iter_optimizers.
Proof. unfold iter_optimizers. pres_auto HS. Qed.

Lemma pres_use_grad_scaling p sc : pres P (_use_grad_scaling p sc).
Proof. unfold _use_grad_scaling. pres_auto HS. Qed.

Lemma pres_use_closures : pres P _use_closures.
Proof. unfold _use_closures. pres_auto HS. Qed.

Lemma pres_get_metrics b : pres P (_get_metrics_as_collection module_of b).
Proof. unfold _get_metrics_as_collection. pres_auto HS. Qed.

Lemma pres_compute_and_log_metrics a b :
  pres P (_compute_and_log_metrics a b).
Proof. unfold _compute_and_log_metrics. pres_auto HS. Qed.

Hint Resolve pres_engine_close pres_checkpoint_if_due pres_islice pres_draw
  pres_transform pres_iter_optimizers pres_use_grad_scaling
  pres_use_closures pres_get_metrics pres_compute_and_log_metrics : pres.

Lemma pres_eval_batch b :
  pres P (eval_batch module_of _eval_device_transformation_fn b).
Proof. unfold eval_batch. pres_auto HS. Qed.

Hint Resolve pres_eval_batch : pres.

Lemma pres_eval is_batch :
  pres P (eval module_of _eval_device_transformation_fn is_batch).
Proof. unfold eval, eval_body. pres_auto HS. Qed.

Hint Resolve pres_eval : pres.

Lemma pres_epoch_end :
  pres P (_epoch_end module_of _eval_device_transformation_fn).
Proof. unfold _epoch_end. pres_auto HS. Qed.

Lemma pres_zero_grad o : pres P (zero_grad o).
Proof. unfold zero_grad. pres_auto HS. Qed.

Lemma pres_backward cg l : pres P (backward cg l).
Proof. unfold backward. pres_auto HS. Qed.

Lemma pres_scale_and_accumulate a b tot :
  pres P (scale_and_accumulate a b tot).
Proof. unfold scale_and_accumulate. pres_auto HS. Qed.

Lemma pres_scale_loss : pres P scale_loss.
Proof. unfold scale_loss. pres_auto HS. Qed.

Hint Resolve pres_epoch_end pres_zero_grad pres_backward
  pres_scale_and_accumulate pres_scale_loss : pres.

Lemma pres_train_microbatch ugs cbs fin mb tot :
  pres P (train_microbatch module_of ugs cbs fin mb tot).
Proof. unfold train_microbatch. pres_auto HS. Qed.

Hint Resolve pres_train_microbatch : pres.

Lemma pres_train_microbatches ugs cbs mbs :
  forall tot, pres P (train_microbatches module_of ugs cbs mbs tot).
Proof.
  induction mbs as [| mb rest IH]; intro tot; simpl; pres_auto HS.
Qed.

Hint Resolve pres_train_microbatches : pres.

Lemma pres_train_batch_inner mbs sync :
  pres P (_train_batch_inner module_of mbs sync).
Proof. unfold _train_batch_inner, after_zero_grad. pres_auto HS. Qed.

Hint Resolve pres_train_batch_inner : pres.

Lemma pres_step_all_with_closure ugs mbs os :
  forall tot, pres P (step_all_with_closure module_of ugs mbs os tot).
Proof.
  induction os as [| o os IH]; intro tot; simpl; [pres_auto HS |].
  unfold step_with_closure. pres_auto HS.
Qed.

Hint Resolve pres_step_all_with_closure : pres.

Lemma pres_train_batch :
  pres P (_train_batch module_of default_batch_split_fn _train_split_fn
            _train_device_transformation_fn _eval_device_transformation_fn).
Proof. unfold _train_batch. pres_auto HS. Qed.

Hint Resolve pres_train_batch : pres.

Lemma pres_train_batches max_step remaining :
  pres P (train_batches module_of default_batch_split_fn _train_split_fn
            _train_device_transformation_fn _eval_device_transformation_fn
            max_step remaining).
Proof.
  induction remaining as [| b rest IH]; simpl; pres_auto HS.
Qed.

Lemma pres_advance n : pres P (advance n).
Proof. induction n as [| n IH]; simpl; pres_auto HS. Qed.

End Frame.

#[global] Hint Resolve pres_engine_close pres_checkpoint_if_due pres_islice
  pres_draw pres_transform pres_iter_optimizers pres_use_grad_scaling
  pres_use_closures pres_get_metrics pres_compute_and_log_metrics
  pres_eval_batch pres_eval pres_epoch_end pres_zero_grad pres_backward
  pres_scale_and_accumulate pres_scale_loss pres_train_microbatch
  pres_train_microbatches pres_train_batch_inner pres_step_all_with_closure
  pres_train_batch pres_train_batches pres_advance : pres.

(** ** Inversion of the monad *)

Lemma bind_inv {A B} (m : M A) (k : A -> M B) t r t' :
  bind m k t = (r, t') ->
  (exists a t1, m t = (Val a, t1) /\ k a t1 = (r, t')) \/
  (exists e, m t = (Raise e, t') /\ r = Raise e) \/
  (m t = (Diverge, t') /\ r = Diverge).
Proof.
  unfold bind. destruct (m t) as [[a | e |] t1]; intro H.
  - left. eauto.
  - right. left. inversion H; subst. eauto.
  - right. right. inversion H; subst. eauto.
Qed.

Lemma bind_val_inv {A B} (m : M A) (k : A -> M B) t b t' :
  bind m k t = (Val b, t') ->
  exists a t1, m t = (Val a, t1) /\ k a t1 = (Val b, t').
Proof.
  intro H. apply bind_inv in H.
  destruct H as [H | [[e [_ H]] | [_ H]]]; [exact H | discriminate ..].
Qed.

Lemma bind_val {A B} (m : M A) (k : A -> M B) t a t1 :
  m t = (Val a, t1) -> bind m k t = k a t1.
Proof. intro E. unfold bind. rewrite E. reflexivity. Qed.

Lemma bind_raise {A B} (m : M A) (k : A -> M B) t e t1 :
  m t = (Raise e, t1) -> bind m k t = (Raise e, t1).
Proof. intro E. unfold bind. rewrite E. reflexivity. Qed.

(** [run_event] on an open engine: the event is logged and the handlers
    run in order. *)
Lemma run_event_open ev t :
  engine_closed t = false ->
  run_event ev t =
  let t1 := set_trace (trace t ++ [ARunEvent ev]) t in
  match run_handlers (engine_handlers t) ev (state t) with
  | (None, s1) => (Val tt, set_state s1 t1)
  | (Some e, s1) => (Raise e, set_state s1 t1)
  end.
Proof.
  intro Hopen. unfold run_event, bind, gets, log, modify.
  rewrite Hopen. simpl.
  destruct (run_handlers (engine_handlers t) ev (state t)) as [[e |] s1];
    reflexivity.
Qed.

Lemma pres_apply {A} (P : Trainer -> Prop) (m : M A) t r t' :
  pres P m -> P t -> m t = (r, t') -> P t'.
Proof. intros Hm Ht E. specialize (Hm t Ht). rewrite E in Hm. exact Hm. Qed.




(** ** The random stream is restored once *)




Section RestoreOnce.

Variable module_of : ModuleRef -> ComposerModel.t.
Variable default_batch_split_fn : Batch -> Z -> list Batch.
Variable _train_split_fn : option (Batch -> Z -> list Batch).
Variable _train_device_transformation_fn : option (Batch -> Batch).
Variable _eval_device_transformation_fn : option (Batch -> Batch).

Local Abbreviation fit_ :=
  (fit module_of default_batch_split_fn _train_split_fn
     _train_device_transformation_fn _eval_device_transformation_fn).
Local Abbreviation fit_loop_ :=
  (fit_loop module_of default_batch_split_fn _train_split_fn
     _train_device_transformation_fn _eval_device_transformation_fn).










End RestoreOnce.

(** ** Construction *)

(** Leaves that an invariant reading only untouched fields passes by
    computation. *)
Ltac pres_conv :=
  lazymatch goal with
  | |- pres _ (modify _) => apply pres_modify; intros ? ?; assumption
  | |- pres _ (log _) => apply pres_log; intros ? ?; assumption
  end.

Ltac pres_auto' HS :=
  repeat first [ pres_struct | pres_leaf HS | solve [auto with pres]
               | pres_conv ].

Section Construction.

Variable module_of : ModuleRef -> ComposerModel.t.
Variable DecoupledSGDW : Optimizer.

Local Abbreviation init_ := (__init__ module_of DecoupledSGDW).

Lemma pres_draw_first P (HS : Stable P) dl : pres P (draw_first dl).
Proof. unfold draw_first. pres_auto HS. Qed.

Lemma pres_spin_dataloaders P (HS : Stable P) : pres P _spin_dataloaders.
Proof.
  pose proof (pres_draw_first P HS).
  unfold _spin_dataloaders. pres_auto HS.
Qed.

Lemma pres_init_scaler_and_start P (HS : Stable P) a :
  pres P (init_scaler_and_start a).
Proof.
  pose proof (pres_spin_dataloaders P HS).
  unfold init_scaler_and_start. pres_auto HS.
Qed.

Lemma pres_load_checkpoint P (HS : Stable P) cl : pres P (load_checkpoint cl).
Proof. unfold load_checkpoint. pres_auto HS. Qed.

(** What [__init__] returns is where the body of the constructor stops. *)
Lemma init_inv a t :
  init_ a = Val t ->
  exists ms,
    ComposerModel.metrics (module_of (arg_model a)) true = Some ms /\
    init_body DecoupledSGDW a
      (initial_trainer a (set_train_metrics (Some ms) (initial_state a)))
    = (Val tt, t).
Proof.
  unfold __init__.
  destruct (ComposerModel.metrics (module_of (arg_model a)) true) as [ms |];
    [| discriminate].
  destruct (init_body _ _ _) as [[[] | e |] t1] eqn:E; try discriminate.
  intro H. inversion H; subst. eauto.
Qed.

(** The strategy is chosen before the first event and nothing assigns it
    again. *)
Lemma pres_init_body_strategy a x :
  pres (fun t => ddp_sync_strategy t = x) (init_body DecoupledSGDW a).
Proof.
  assert (HS : Stable (fun t => ddp_sync_strategy t = x))
    by (split; intros; assumption).
  pose proof (pres_init_scaler_and_start _ HS).
  pose proof (pres_load_checkpoint _ HS).
  unfold init_body, init_optimizers, init_checkpoint, init_restore_rng,
    restore_checkpoint_rng_state.
  pres_auto' HS.
Qed.

Lemma init_strategy a t :
  init_ a = Val t ->
  ddp_sync_strategy t =
  select_ddp_sync_strategy (arg_ddp_sync_strategy a) (initial_state a).
Proof.
  intro H. apply init_inv in H. destruct H as [ms [_ E]].
  eapply (pres_apply _ _ _ _ _ (pres_init_body_strategy a _)); [| exact E].
  reflexivity.
Qed.




End Construction.

(** ** The claims about construction and resumption *)

Section Claims.

Variable module_of : ModuleRef -> ComposerModel.t.
Variable default_batch_split_fn : Batch -> Z -> list Batch.
Variable _train_split_fn : option (Batch -> Z -> list Batch).
Variable _train_device_transformation_fn : option (Batch -> Batch).
Variable _eval_device_transformation_fn : option (Batch -> Batch).
Variable DecoupledSGDW : Optimizer.

Local Abbreviation fit_ :=
  (fit module_of default_batch_split_fn _train_split_fn
     _train_device_transformation_fn _eval_device_transformation_fn).
Local Abbreviation init_ := (__init__ module_of DecoupledSGDW).



(** C6.  When no strategy is passed to the constructor, the trainer it
    returns uses FORCED_SYNC exactly when some algorithm has
    [find_unused_parameters] set, and SINGLE_AUTO_SYNC exactly when none
    has. *)
Theorem default_sync_strategy (a : TrainerArgs) (t : Trainer) :
  arg_ddp_sync_strategy a = None ->
  init_ a = Val t ->
  (ddp_sync_strategy t = FORCED_SYNC <->
   exists alg, In alg (map fst (arg_algorithms a)) /\
               Algorithm.find_unused_parameters alg = true) /\
  (ddp_sync_strategy t = SINGLE_AUTO_SYNC <->
   forall alg, In alg (map fst (arg_algorithms a)) ->
               Algorithm.find_unused_parameters alg = false).
Proof.
  intros Hnone Hinit.
  rewrite (init_strategy module_of DecoupledSGDW a t Hinit), Hnone.
  unfold select_ddp_sync_strategy, find_unused_parameters. simpl algorithms.
  destruct (existsb Algorithm.find_unused_parameters
              (map fst (arg_algorithms a))) eqn:E; simpl.
  - apply existsb_exists in E. destruct E as [alg [Hin Hf]].
    split; split; intro H; try reflexivity; try discriminate.
    + exists alg. auto.
    + rewrite (H alg Hin) in Hf. discriminate.
  - split; split; intro H; try reflexivity; try discriminate.
    + destruct H as [alg [Hin Hf]].
      assert (existsb Algorithm.find_unused_parameters
                (map fst (arg_algorithms a)) = true)
        by (apply existsb_exists; eauto).
      congruence.
    + intros alg Hin.
      destruct (Algorithm.find_unused_parameters alg) eqn:Hf; [| reflexivity].
      assert (existsb Algorithm.find_unused_parameters
                (map fst (arg_algorithms a)) = true)
        by (apply existsb_exists; eauto).
      congruence.
Qed.

(** C7.  With more than one optimizer the constructor raises: no trainer
    is returned, and when the model has training metrics and the INIT
    handlers return, the exception is NotImplementedError.  No optimizer
    at all is replaced by the default one, so the count after defaulting
    is never zero. *)
Theorem more_than_one_optimizer_raises (a : TrainerArgs) :
  (1 < length (arg_optimizer_hparams a))%nat ->
  (exists e, init_ a = Raise e) /\
  (forall ms,
      ComposerModel.metrics (module_of (arg_model a)) true = Some ms ->
      fst (run_handlers (map snd (arg_algorithms a) ++ arg_callbacks a) INIT
             (set_train_metrics (Some ms) (initial_state a))) = None ->
      init_ a = Raise NotImplementedError).
Proof.
  intro Hlen.
  assert (Hopt : negb (Nat.eqb (length (match arg_optimizer_hparams a with
                                         | [] => [DecoupledSGDW]
                                         | hs => hs
                                         end)) 1) = true).
  { destruct (arg_optimizer_hparams a) as [| o [| o' os]];
      simpl in Hlen; try lia. reflexivity. }
  assert (Hraise : forall ms,
             ComposerModel.metrics (module_of (arg_model a)) true = Some ms ->
             init_ a =
             match fst (run_handlers (map snd (arg_algorithms a)
                                      ++ arg_callbacks a) INIT
                          (set_train_metrics (Some ms) (initial_state a))) with
             | None => Raise NotImplementedError
             | Some e => Raise e
             end).
  { intros ms Hms. unfold __init__. rewrite Hms.
    set (t0 := initial_trainer a _).
    pose proof (run_event_open INIT t0 eq_refl) as Hev.
    simpl engine_handlers in Hev. simpl state in Hev.
    destruct (run_handlers _ INIT _) as [[e |] s1]; simpl fst; cbv iota.
    - unfold init_body, init_optimizers.
      rewrite (bind_raise _ _ _ _ _ (bind_raise _ _ _ _ _ Hev)).
      reflexivity.
    - assert (E : init_optimizers DecoupledSGDW a t0
                  = (Raise NotImplementedError,
                     set_state s1 (set_trace (trace t0 ++ [ARunEvent INIT]) t0))).
      { unfold init_optimizers. rewrite (bind_val _ _ _ _ _ Hev).
        unfold bind at 1. rewrite Hopt. reflexivity. }
      unfold init_body. rewrite (bind_raise _ _ _ _ _ E). reflexivity. }
  split.
  - destruct (ComposerModel.metrics (module_of (arg_model a)) true)
      as [ms |] eqn:Hms.
    + rewrite (Hraise ms eq_refl).
      destruct (fst _); eauto.
    + unfold __init__. rewrite Hms. eauto.
  - intros ms Hms Hh. rewrite (Hraise ms Hms), Hh. reflexivity.
Qed.

End Claims.

(** ** Symbolic execution *)

Section WpRules.

Context {A B : Type}.

Lemma wp_bind (m : M A) (k : A -> M B) t (Q : Result B -> Trainer -> Prop) :
  wp m t (fun r t1 =>
            match r with
            | Val a => wp (k a) t1 Q
            | Raise e => Q (Raise e) t1
            | Diverge => Q Diverge t1
            end) ->
  wp (bind m k) t Q.
Proof.
  unfold wp, bind. destruct (m t) as [[a | e |] t1]; simpl; auto.
Qed.

Lemma wp_ret (a : A) t (Q : Result A -> Trainer -> Prop) :
  Q (Val a) t -> wp (ret a) t Q.
Proof. auto. Qed.

Lemma wp_raise (e : exn) t (Q : Result A -> Trainer -> Prop) :
  Q (Raise e) t -> wp (raise e) t Q.
Proof. auto. Qed.

Lemma wp_gets (f : Trainer -> A) t (Q : Result A -> Trainer -> Prop) :
  Q (Val (f t)) t -> wp (gets f) t Q.
Proof. auto. Qed.

Lemma wp_eq (m : M A) t r t' (Q : Result A -> Trainer -> Prop) :
  m t = (r, t') -> Q r t' -> wp m t Q.
Proof. unfold wp. intros E H. rewrite E. exact H. Qed.

Lemma wp_inv (m : M A) t r t' (Q : Result A -> Trainer -> Prop) :
  wp m t Q -> m t = (r, t') -> Q r t'.
Proof. unfold wp. intros H E. rewrite E in H. exact H. Qed.

End WpRules.

Lemma wp_modify (f : Trainer -> Trainer) t (Q : Result unit -> Trainer -> Prop) :
  Q (Val tt) (f t) -> wp (modify f) t Q.
Proof. auto. Qed.

Lemma wp_assert (b : bool) t (Q : Result unit -> Trainer -> Prop) :
  (if b then Q (Val tt) t else Q (Raise AssertionError) t) ->
  wp (assert b) t Q.
Proof. destruct b; auto. Qed.

Lemma wp_run_event ev t (Q : Result unit -> Trainer -> Prop) :
  engine_closed t = false ->
  (forall o s1,
      run_handlers (engine_handlers t) ev (state t) = (o, s1) ->
      Q (match o with None => Val tt | Some e => Raise e end)
        (set_state s1 (set_trace (trace t ++ [ARunEvent ev]) t))) ->
  wp (run_event ev) t Q.
Proof.
  intros Hopen H. unfold wp. rewrite (run_event_open ev t Hopen). simpl.
  specialize (H (fst (run_handlers (engine_handlers t) ev (state t)))
                (snd (run_handlers (engine_handlers t) ev (state t)))
                (surjective_pairing _)).
  destruct (run_handlers (engine_handlers t) ev (state t)) as [[e |] s1];
    exact H.
Qed.

Lemma wp_transform f t (Q : Result unit -> Trainer -> Prop) :
  Q (Val tt) (match f with
              | None => t
              | Some g => set_state (set_batch (g (batch (state t))) (state t)) t
              end) ->
  wp (transform f) t Q.
Proof. destruct f; auto. Qed.

(** Reduction of the projections of updated records. *)
Ltac proj_simpl :=
  cbn [state engine_closed engine_handlers deepspeed_enabled ddp_sync_strategy
       _grad_clip_norm validate_every_n_batches validate_every_n_epochs
       compute_training_metrics _checkpointer checkpoint_loader
       _train_dataloader_iterator _eval_subset_num_batches grad_enabled rng
       trace
       set_state set_engine_closed set_checkpoint_loader set_iterator
       set_grad_enabled set_rng set_trace set_checkpointer
       epoch step _steps_per_epoch max_epochs grad_accum precision batch
       outputs loss last_batch_size algorithms optimizers scaler model
       training grads train_metrics train_dataloader eval_dataloader
       set_epoch set_step set_batch set_outputs set_loss set_last_batch_size
       set_optimizers set_scaler set_training set_grads set_train_metrics
       set_mode modify_state log].

Ltac wp_step :=
  lazymatch goal with
  | |- wp (bind _ _) _ _ => apply wp_bind
  | |- wp (ret _) _ _ => apply wp_ret
  | |- wp (raise _) _ _ => apply wp_raise
  | |- wp (gets _) _ _ => apply wp_gets
  | |- wp (modify _) _ _ => apply wp_modify
  | |- wp (modify_state _) _ _ => apply wp_modify
  | |- wp (log _) _ _ => apply wp_modify
  | |- wp (assert _) _ _ => apply wp_assert
  end; cbv beta iota; proj_simpl.

Ltac wp_steps := repeat wp_step.


(** ** The decision to scale gradients *)

Lemma run_handlers_keeps_scaling hs :
  Forall keeps_scaling hs ->
  forall ev s,
    fst (run_handlers hs ev s) = None /\
    precision (snd (run_handlers hs ev s)) = precision s /\
    scaler (snd (run_handlers hs ev s)) = scaler s.
Proof.
  induction 1 as [| h hs Hh _ IH]; intros ev s; simpl; [auto |].
  destruct (Hh ev s) as [Hn [Hp Hs]].
  destruct (h ev s) as [[e |] s1]; simpl in *; [discriminate |].
  rewrite <- Hp, <- Hs. apply IH.
Qed.

Section GradScaling.

Variable module_of : ModuleRef -> ComposerModel.t.
Variable default_batch_split_fn : Batch -> Z -> list Batch.
Variable _train_split_fn : option (Batch -> Z -> list Batch).
Variable _train_device_transformation_fn : option (Batch -> Batch).
Variable _eval_device_transformation_fn : option (Batch -> Batch).

Local Abbreviation train_batch_ :=
  (_train_batch module_of default_batch_split_fn _train_split_fn
     _train_device_transformation_fn _eval_device_transformation_fn).

(** The first batch of a trainer in auto-mixed precision whose scaler is
    disabled raises RuntimeError. *)
Lemma train_batch_raises_without_scaler t g ms :
  engine_closed t = false ->
  deepspeed_enabled t = false ->
  compute_training_metrics t = false ->
  Forall keeps_scaling (engine_handlers t) ->
  precision (state t) = AMP ->
  scaler (state t) = Some g ->
  is_enabled g = false ->
  train_metrics (state t) = Some ms ->
  fst (train_batch_ t) = Raise RuntimeError.
Proof.
  intros Hopen Hds Hctm Hh Hp Hs Hg Hm.
  change (wp train_batch_ t (fun r _ => r = Raise RuntimeError)).
  unfold _train_batch.
  wp_steps. rewrite Hs. wp_steps. rewrite Hm. wp_steps.
  apply wp_transform. cbv beta.
  set (t1 := match _train_device_transformation_fn with
             | None => _
             | Some g0 => _
             end).
  assert (H1 : engine_closed t1 = false /\ deepspeed_enabled t1 = false /\
               compute_training_metrics t1 = false /\
               engine_handlers t1 = engine_handlers t /\
               precision (state t1) = AMP /\ scaler (state t1) = Some g).
  { unfold t1. destruct _train_device_transformation_fn; simpl; auto 10. }
  clearbody t1. destruct H1 as [Ho1 [Hd1 [Hc1 [Hh1 [Hp1 Hs1]]]]].
  wp_steps. rewrite Hc1. wp_steps.
  apply wp_run_event; [exact Ho1 |]. proj_simpl. intros o s1 E1.
  rewrite Hh1 in E1.
  match type of E1 with
  | run_handlers _ _ ?s0 = _ =>
      destruct (run_handlers_keeps_scaling _ Hh AFTER_DATALOADER s0)
        as [Hn1 [Hp2 Hs2]]
  end.
  rewrite E1 in Hn1, Hp2, Hs2. simpl in Hn1, Hp2, Hs2.
  subst o. proj_simpl.
  wp_steps.
  apply wp_run_event; [exact Ho1 |]. proj_simpl. intros o s2 E2.
  rewrite Hh1 in E2.
  destruct (run_handlers_keeps_scaling _ Hh BATCH_START s1) as [Hn2 [Hp3 Hs3]].
  rewrite E2 in Hn2, Hp3, Hs3. simpl in Hn2, Hp3, Hs3.
  subst o. proj_simpl.
  wp_steps.
  unfold _use_grad_scaling. wp_steps. rewrite Hd1.
  rewrite Hp3, Hp2, Hp1, Hs3, Hs2, Hs1. simpl. rewrite Hg. simpl.
  reflexivity.
Qed.

End GradScaling.

(** C5, amended.  [_use_grad_scaling] never changes the trainer.  Without
    DeepSpeed it returns true exactly for auto-mixed precision with an
    enabled scaler, raises RuntimeError exactly for auto-mixed precision
    with a missing or disabled scaler, and returns false for full and half
    precision; with DeepSpeed it returns false whatever the precision.
    The error reaches the caller of the first trained batch: a batch of a
    trainer in auto-mixed precision whose scaler is disabled raises
    RuntimeError once the BATCH_START handlers have returned. *)
Theorem grad_scaling_decision :
  (forall p sc t, snd (_use_grad_scaling p sc t) = t) /\
  (forall p sc t,
      fst (_use_grad_scaling p sc t) = Val true <->
      deepspeed_enabled t = false /\ p = AMP /\ scaler_unusable sc = false) /\
  (forall p sc t,
      fst (_use_grad_scaling p sc t) = Raise RuntimeError <->
      deepspeed_enabled t = false /\ p = AMP /\ scaler_unusable sc = true) /\
  (forall p sc t,
      fst (_use_grad_scaling p sc t) = Val false <->
      deepspeed_enabled t = true \/ p <> AMP) /\
  (forall module_of default_batch_split_fn _train_split_fn
          _train_device_transformation_fn _eval_device_transformation_fn
          t g ms,
      engine_closed t = false ->
      deepspeed_enabled t = false ->
      compute_training_metrics t = false ->
      Forall keeps_scaling (engine_handlers t) ->
      precision (state t) = AMP ->
      scaler (state t) = Some g ->
      is_enabled g = false ->
      train_metrics (state t) = Some ms ->
      fst (_train_batch module_of default_batch_split_fn _train_split_fn
             _train_device_transformation_fn _eval_device_transformation_fn t)
      = Raise RuntimeError).
Proof.
  assert (Heq : forall p sc t,
             _use_grad_scaling p sc t =
             (if deepspeed_enabled t then Val false
              else if Precision_eqb p AMP && scaler_unusable sc
                   then Raise RuntimeError
                   else Val (Precision_eqb p AMP), t)).
  { intros p sc t. unfold _use_grad_scaling, bind, gets, raise, ret.
    destruct (deepspeed_enabled t); [reflexivity |].
    destruct (Precision_eqb p AMP && scaler_unusable sc); reflexivity. }
  split; [| split; [| split; [| split]]].
  - intros p sc t. rewrite Heq. reflexivity.
  - intros p sc t. rewrite Heq. simpl fst.
    destruct (deepspeed_enabled t), p, (scaler_unusable sc); simpl;
      split; intro H; try discriminate; auto;
      destruct H as [H1 [H2 H3]]; discriminate.
  - intros p sc t. rewrite Heq. simpl fst.
    destruct (deepspeed_enabled t), p, (scaler_unusable sc); simpl;
      split; intro H; try discriminate; auto;
      destruct H as [H1 [H2 H3]]; discriminate.
  - intros p sc t. rewrite Heq. simpl fst.
    destruct (deepspeed_enabled t), p, (scaler_unusable sc); simpl;
      split; intro H; try discriminate; auto;
      try (right; discriminate);
      destruct H as [H | H]; try discriminate; contradiction H; reflexivity.
  - intros. eapply train_batch_raises_without_scaler; eassumption.
Qed.

(** ** Evaluation *)

Lemma pres_bind_gets_eq {A B} (P : Trainer -> Prop) (f : Trainer -> A)
    (k : A -> M B) (v : A) :
  (forall t, P t -> f t = v) -> pres P (k v) -> pres P (bind (gets f) k).
Proof.
  intros Hf Hk t Ht. unfold bind, gets. rewrite (Hf t Ht). apply Hk, Ht.
Qed.

Lemma grad_off_since_log base a t :
  validate_without_grad a ->
  grad_off_since base t ->
  grad_off_since base (set_trace (trace t ++ [a]) t).
Proof.
  intros Ha [Hg [new [Htr Hall]]]. split; [exact Hg |].
  exists (new ++ [a]). simpl. rewrite Htr, app_assoc. split; [reflexivity |].
  apply Forall_app. split; [exact Hall | constructor; [exact Ha | constructor]].
Qed.

Lemma run_handlers_keeps_mode m hs :
  Forall (keeps_mode m) hs ->
  forall ev s, training (snd (run_handlers hs ev s)) m = training s m.
Proof.
  induction 1 as [| h hs Hh _ IH]; intros ev s; simpl; [reflexivity |].
  specialize (Hh ev s).
  destruct (h ev s) as [[e |] s1]; simpl in *; [exact Hh |].
  rewrite IH. exact Hh.
Qed.

(** Proofs of [pres] whose leaves need [log_tac] for a logged action and
    [run_tac] for the state the handlers leave. *)
Ltac pres_with log_tac run_tac :=
  repeat first
    [ lazymatch goal with
      | |- pres _ (bind (gets grad_enabled) _) =>
          apply (pres_bind_gets_eq _ grad_enabled _ false);
          [intros ? [? _]; assumption |]
      end
    | pres_struct
    | lazymatch goal with
      | |- pres _ (modify_state _) =>
          apply pres_modify_state; intros ? ?; assumption
      | |- pres _ (log _) => apply pres_log; intros ? ?; log_tac
      | |- pres _ (run_event _) =>
          apply pres_run_event; intros ? ?; [log_tac | run_tac]
      | |- pres _ (modify _) => apply pres_modify; intros ? ?; assumption
      end ].

Section Evaluation.

Variable module_of : ModuleRef -> ComposerModel.t.
Variable _eval_device_transformation_fn : option (Batch -> Batch).

Local Abbreviation eval_ := (eval module_of _eval_device_transformation_fn).
Local Abbreviation eval_batch_ :=
  (eval_batch module_of _eval_device_transformation_fn).

Local Abbreviation eval_body_ :=
  (eval_body module_of _eval_device_transformation_fn).

Lemma pres_eval_body_grad_off base is_batch :
  pres (grad_off_since base) (eval_body_ is_batch).
Proof.
  unfold eval_body, eval_batch, _get_metrics_as_collection, islice, draw,
    transform, _compute_and_log_metrics.
  pres_with ltac:(apply grad_off_since_log; [exact I | assumption])
            ltac:(assumption).
  apply pres_log. intros t Ht.
  apply grad_off_since_log; [reflexivity | assumption].
Qed.

Lemma pres_eval_body_mode hs m is_batch :
  Forall (keeps_mode m) hs ->
  pres (mode_is hs m false) (eval_body_ is_batch).
Proof.
  intro Hh.
  assert (Hrun : forall ev t,
             mode_is hs m false t ->
             mode_is hs m false
               (set_state (snd (run_handlers (engine_handlers t) ev (state t)))
                  t)).
  { intros ev t [He Hm]. split; [exact He |]. simpl.
    rewrite He, (run_handlers_keeps_mode m hs Hh). exact Hm. }
  unfold eval_body, eval_batch, _get_metrics_as_collection, islice, draw,
    transform, _compute_and_log_metrics.
  repeat first
    [ pres_struct
    | lazymatch goal with
      | |- pres _ (modify_state _) =>
          apply pres_modify_state; intros ? ?; assumption
      | |- pres _ (log _) => apply pres_log; intros ? ?; assumption
      | |- pres _ (run_event _) =>
          apply pres_run_event; intros ? ?; [assumption | apply Hrun; assumption]
      | |- pres _ (modify _) => apply pres_modify; intros ? ?; assumption
      end ].
Qed.

(** [eval] is the block run under [no_grad] between the two switches of
    mode. *)
Lemma eval_inv is_batch t t' :
  eval_ is_batch t = (Val tt, t') ->
  let m := model (state t) in
  let t1 := set_grad_enabled false
              (set_state (set_mode m false (state t)) t) in
  exists t2,
    eval_body_ is_batch t1 = (Val tt, t2) /\
    t' = (if training (state t) m
          then set_state (set_mode m true
                            (state (set_grad_enabled (grad_enabled t) t2)))
                 (set_grad_enabled (grad_enabled t) t2)
          else set_grad_enabled (grad_enabled t) t2).
Proof.
  intros E m t1. unfold eval in E.
  apply bind_val_inv in E. destruct E as [st [t0 [E0 E]]].
  inversion E0; subst st t0. clear E0.
  apply bind_val_inv in E. destruct E as [[] [t0 [E0 E]]].
  inversion E0; subst t0. clear E0.
  apply bind_val_inv in E. destruct E as [[] [t3 [E3 E]]].
  unfold no_grad in E3.
  simpl grad_enabled in E3. fold m in E3. fold t1 in E3.
  destruct (eval_body_ is_batch t1) as [r t2] eqn:E2.
  inversion E3; subst r t3. clear E3.
  exists t2. split; [reflexivity |].
  fold m in E.
  destruct (training (state t) m); inversion E; reflexivity.
Qed.

(** C9.  When [eval] returns, the module object that was the model at
    the call is in training mode if it was before; if the handlers of the
    extensions leave its mode alone, its mode is what it was before, so a
    model in eval mode stays in eval mode.  Every [validate] of the call
    ran with gradients disabled, and the gradient mode of the caller is
    back in place. *)
Theorem eval_restores_mode (is_batch : bool) (t t' : Trainer) :
  eval_ is_batch t = (Val tt, t') ->
  let m := model (state t) in
  (training (state t) m = true -> training (state t') m = true) /\
  (Forall (keeps_mode m) (engine_handlers t) ->
   training (state t') m = training (state t) m) /\
  (exists new, trace t' = trace t ++ new /\
               Forall validate_without_grad new) /\
  grad_enabled t' = grad_enabled t.
Proof.
  intros E m.
  destruct (eval_inv is_batch t t' E) as [t2 [E2 Ht']].
  fold m in E2, Ht'.
  set (t1 := set_grad_enabled false
               (set_state (set_mode m false (state t)) t)) in E2.
  split; [| split; [| split]].
  - intro Hm. rewrite Hm in Ht'. subst t'. simpl.
    rewrite Nat.eqb_refl. reflexivity.
  - intro Hh.
    assert (H2 : mode_is (engine_handlers t) m false t2).
    { eapply (pres_apply _ _ _ _ _
                (pres_eval_body_mode (engine_handlers t) m is_batch Hh));
        [| exact E2].
      split; [reflexivity |]. simpl. rewrite Nat.eqb_refl. reflexivity. }
    destruct H2 as [_ H2].
    destruct (training (state t) m) eqn:Hm; subst t'; simpl.
    + rewrite Nat.eqb_refl. reflexivity.
    + exact H2.
  - assert (H2 : grad_off_since (trace t) t2).
    { eapply (pres_apply _ _ _ _ _
                (pres_eval_body_grad_off (trace t) is_batch)); [| exact E2].
      split; [reflexivity |]. exists []. simpl. rewrite app_nil_r. auto. }
    destruct H2 as [_ [new [Htr Hall]]].
    exists new. split; [| exact Hall].
    destruct (training (state t) m); subst t'; simpl; exact Htr.
  - destruct (training (state t) m); subst t'; reflexivity.
Qed.

End Evaluation.

(** ** Gradients are zeroed before a batch accumulates *)

Lemma wp_run_event_any ev t (Q : Result unit -> Trainer -> Prop) :
  (engine_closed t = true -> Q (Raise RuntimeError) t) ->
  (engine_closed t = false ->
   forall o s1,
     run_handlers (engine_handlers t) ev (state t) = (o, s1) ->
     Q (match o with None => Val tt | Some e => Raise e end)
       (set_state s1 (set_trace (trace t ++ [ARunEvent ev]) t))) ->
  wp (run_event ev) t Q.
Proof.
  intros Hc Ho. destruct (engine_closed t) eqn:E.
  - unfold wp, run_event, bind, gets. rewrite E. apply Hc. reflexivity.
  - apply wp_run_event; [exact E | apply Ho; reflexivity].
Qed.

Lemma extends_stable base : Stable (extends base).
Proof.
  split; unfold extends; simpl; intros; try assumption.
  destruct H0 as [new Htr]. exists (new ++ [a]).
  rewrite Htr, app_assoc. reflexivity.
Qed.

Lemma backward_losses_app tr tr' :
  backward_losses (tr ++ tr') = backward_losses tr ++ backward_losses tr'.
Proof.
  induction tr as [| a tr IH]; [reflexivity |].
  destruct a; simpl; rewrite IH; reflexivity.
Qed.

Lemma backward_losses_zero_grad os :
  backward_losses (map AZeroGrad os) = [].
Proof. induction os as [| o os IH]; [reflexivity | exact IH]. Qed.

Lemma accumulated_log hs base a t :
  backward_losses [a] = [] ->
  accumulated hs base t ->
  accumulated hs base (set_trace (trace t ++ [a]) t).
Proof.
  intros Ha [Hh [new [Htr Hg]]]. split; [exact Hh |].
  exists (new ++ [a]). simpl. rewrite Htr, app_assoc. split; [reflexivity |].
  rewrite backward_losses_app, Ha, app_nil_r. exact Hg.
Qed.

Lemma run_handlers_keeps_grads hs :
  Forall keeps_grads hs ->
  forall ev s, grads (snd (run_handlers hs ev s)) = grads s.
Proof.
  induction 1 as [| h hs Hh _ IH]; intros ev s; simpl; [reflexivity |].
  specialize (Hh ev s).
  destruct (h ev s) as [[e |] s1]; simpl in *; [exact Hh |].
  rewrite IH. exact Hh.
Qed.

Lemma pres_backward_accumulated hs base cg l :
  pres (accumulated hs base) (backward cg l).
Proof.
  intros t [Hh [new [Htr Hg]]]. unfold backward, bind, log, modify_state,
    modify. simpl. split; [exact Hh |].
  exists (new ++ [ABackward l cg]). rewrite Htr, app_assoc.
  split; [reflexivity |].
  rewrite backward_losses_app, Hg. reflexivity.
Qed.

(** The zeroing loop logs one [AZeroGrad] per optimizer and leaves no
    accumulated gradient when there is an optimizer. *)
Lemma zero_grads_spec os : forall t,
  exists t2,
    for_each os zero_grad t = (Val tt, t2) /\
    trace t2 = trace t ++ map AZeroGrad os /\
    (os <> [] -> grads (state t2) = []) /\
    engine_handlers t2 = engine_handlers t.
Proof.
  induction os as [| o os IH]; intro t.
  - exists t. simpl. rewrite app_nil_r. repeat split; auto.
    intro H. contradiction H. reflexivity.
  - set (t1 := set_state (set_grads [] (state t))
                 (set_trace (trace t ++ [AZeroGrad o]) t)).
    destruct (IH t1) as [t2 [E [Htr [Hg Hh]]]].
    exists t2. split; [| split; [| split]].
    + simpl for_each.
      etransitivity; [eapply bind_val; reflexivity | exact E].
    + rewrite Htr. simpl. rewrite <- app_assoc. reflexivity.
    + intros _. destruct os as [| o' os'].
      * simpl in E. inversion E. reflexivity.
      * apply Hg. discriminate.
    + rewrite Hh. reflexivity.
Qed.

(** A pass found in a trace that starts with a prefix free of passes lies
    behind the prefix. *)
Lemma pass_after_prefix (p q pre post : list Action) a :
  p ++ q = pre ++ a :: post ->
  Forall (fun x => is_pass x = false) p ->
  is_pass a = true ->
  exists pre', pre = p ++ pre'.
Proof.
  revert pre. induction p as [| x p IH]; intros pre E Hp Ha.
  - exists pre. reflexivity.
  - inversion Hp as [| x' p' Hx Hp']; subst.
    destruct pre as [| y pre].
    + simpl in E. inversion E; subst. congruence.
    + simpl in E. inversion E; subst.
      destruct (IH pre H1 Hp' Ha) as [pre' Hpre].
      exists pre'. rewrite Hpre. reflexivity.
Qed.

Section ZeroGrad.

Variable module_of : ModuleRef -> ComposerModel.t.

Local Abbreviation inner_ := (_train_batch_inner module_of).

Local Abbreviation after_zero_grad_ := (after_zero_grad module_of).

Lemma pres_after_zero_grad_extends base ugs ds mbs :
  pres (extends base) (after_zero_grad_ ugs ds mbs).
Proof.
  pose proof (extends_stable base) as HS.
  unfold after_zero_grad. pres_auto HS.
Qed.

Lemma pres_train_microbatch_accumulated hs base ugs cbs fin mb tot :
  Forall keeps_grads hs ->
  pres (accumulated hs base) (train_microbatch module_of ugs cbs fin mb tot).
Proof.
  intro Hh.
  assert (Hrun : forall ev t,
             accumulated hs base t ->
             accumulated hs base
               (set_state (snd (run_handlers (engine_handlers t) ev (state t)))
                  t)).
  { intros ev t [He [new [Htr Hg]]]. split; [exact He |].
    exists new. split; [exact Htr |]. simpl.
    rewrite He, (run_handlers_keeps_grads hs Hh). exact Hg. }
  pose proof (pres_backward_accumulated hs base) as Hb.
  unfold train_microbatch, scale_and_accumulate, scale_loss.
  repeat first
    [ pres_struct
    | solve [auto]
    | lazymatch goal with
      | |- pres _ (modify_state _) =>
          apply pres_modify_state; intros ? ?; assumption
      | |- pres _ (log _) =>
          apply pres_log; intros ? ?;
          apply accumulated_log; [reflexivity | assumption]
      | |- pres _ (run_event _) =>
          apply pres_run_event; intros ? ?;
          [apply accumulated_log; [reflexivity | assumption]
          | apply Hrun; assumption]
      end ].
Qed.

Lemma pres_after_zero_grad_accumulated hs base ugs ds mbs :
  Forall keeps_grads hs ->
  pres (accumulated hs base) (after_zero_grad_ ugs ds mbs).
Proof.
  intro Hh.
  assert (Hrun : forall ev t,
             accumulated hs base t ->
             accumulated hs base
               (set_state (snd (run_handlers (engine_handlers t) ev (state t)))
                  t)).
  { intros ev t [He [new [Htr Hg]]]. split; [exact He |].
    exists new. split; [exact Htr |]. simpl.
    rewrite He, (run_handlers_keeps_grads hs Hh). exact Hg. }
  assert (Hmbs : forall cbs tot,
             pres (accumulated hs base)
               (train_microbatches module_of ugs cbs mbs tot)).
  { intro cbs. induction mbs as [| mb rest IH]; intro tot; simpl.
    - apply pres_ret.
    - apply pres_bind; [| intro; apply IH].
      apply pres_train_microbatch_accumulated, Hh. }
  unfold after_zero_grad.
  repeat first
    [ pres_struct
    | solve [auto]
    | lazymatch goal with
      | |- pres _ (log _) =>
          apply pres_log; intros ? ?;
          apply accumulated_log; [reflexivity | assumption]
      | |- pres _ (run_event _) =>
          apply pres_run_event; intros ? ?;
          [apply accumulated_log; [reflexivity | assumption]
          | apply Hrun; assumption]
      end ].
Qed.

(** C10.  In a call of [_train_batch_inner] without DeepSpeed, whatever
    its outcome, every forward or backward pass in the trace of the call
    comes after the [zero_grad] of every optimizer the state holds when
    the routine reads them, that is after the BEFORE_TRAIN_BATCH handlers.
    When the handlers leave the gradients alone and there is an optimizer,
    the gradients held when the routine returns are those of the backward
    passes of this call and nothing else: whatever was accumulated before,
    in a batch of an aborted epoch or otherwise, is gone. *)
Theorem zero_grad_before_passes (microbatches : list Batch) (ddp_sync : bool)
    (t : Trainer) (r : Result Q) (t' : Trainer) :
  deepspeed_enabled t = false ->
  inner_ microbatches ddp_sync t = (r, t') ->
  let os := ensure_tuple
              (optimizers
                 (snd (run_handlers (engine_handlers t) BEFORE_TRAIN_BATCH
                         (state t)))) in
  exists new,
    trace t' = trace t ++ new /\
    (forall pre a post,
        new = pre ++ a :: post -> is_pass a = true ->
        forall o, In o os -> In (AZeroGrad o) pre) /\
    (Forall keeps_grads (engine_handlers t) -> os <> [] ->
     forall total, r = Val total ->
     grads (state t') = backward_losses new).
Proof.
  intros Hds E os.
  (* outcomes before the loop over the microbatches: nothing but the event *)
  assert (Hearly : forall tr,
             tr = [] \/ tr = [ARunEvent BEFORE_TRAIN_BATCH] ->
             forall pre a post, tr = pre ++ a :: post -> is_pass a = true ->
             forall o, In o os -> In (AZeroGrad o) pre).
  { intros tr [H | H] pre a post Hsplit Ha; subst tr.
    - destruct pre; discriminate.
    - destruct pre as [| x [| y pre]]; try discriminate.
      inversion Hsplit; subst. discriminate. }
  revert E. apply (wp_inv (inner_ microbatches ddp_sync) t r t'
                     (fun r t' =>
                        exists new,
                          trace t' = trace t ++ new /\
                          (forall pre a post,
                              new = pre ++ a :: post -> is_pass a = true ->
                              forall o, In o os -> In (AZeroGrad o) pre) /\
                          (Forall keeps_grads (engine_handlers t) ->
                           os <> [] ->
                           forall total, r = Val total ->
                           grads (state t') = backward_losses new))).
  unfold _train_batch_inner. wp_steps.
  apply wp_run_event_any.
  { intros _. exists []. rewrite app_nil_r. split; [reflexivity |].
    split; [apply Hearly; auto | intros; discriminate]. }
  intros Hopen o s1 E1.
  assert (Hos : os = ensure_tuple (optimizers s1))
    by (unfold os; rewrite E1; reflexivity).
  destruct o as [e |].
  { exists [ARunEvent BEFORE_TRAIN_BATCH]. simpl. split; [reflexivity |].
    split; [apply Hearly; auto | intros; discriminate]. }
  wp_steps.
  destruct (optimizers s1) as [os1 |] eqn:Hopt; wp_steps;
    [| exists [ARunEvent BEFORE_TRAIN_BATCH]; simpl; split; [reflexivity |];
       split; [apply Hearly; auto | intros; discriminate]].
  destruct (scaler s1) as [g |]; wp_steps;
    [| exists [ARunEvent BEFORE_TRAIN_BATCH]; simpl; split; [reflexivity |];
       split; [apply Hearly; auto | intros; discriminate]].
  unfold _use_grad_scaling. wp_steps. rewrite Hds. wp_steps.
  destruct (Precision_eqb (precision s1) AMP && scaler_unusable (Some g));
    wp_steps;
    [exists [ARunEvent BEFORE_TRAIN_BATCH]; simpl; split; [reflexivity |];
     split; [apply Hearly; auto | intros; discriminate] |].
  rewrite Hds. cbn [negb]. cbv iota.
  set (t1 := set_state s1 (set_trace (trace t ++ [ARunEvent BEFORE_TRAIN_BATCH]) t)).
  destruct (zero_grads_spec os1 t1) as [t2 [Ez [Htr2 [Hg2 Hh2]]]].
  eapply wp_eq; [exact Ez |]. cbv beta iota.
  simpl in Hos. subst os1.
  set (ugs := Precision_eqb (precision s1) AMP).
  set (p := ARunEvent BEFORE_TRAIN_BATCH :: map AZeroGrad os).
  assert (Hbase : trace t2 = trace t ++ p).
  { rewrite Htr2. unfold t1, p. simpl. rewrite <- app_assoc. reflexivity. }
  unfold wp.
  pose proof (pres_after_zero_grad_extends (trace t2) ugs false microbatches
                t2 (ex_intro _ [] (eq_sym (app_nil_r _)))) as [q Hq].
  exists (p ++ q). split; [rewrite Hq, Hbase, app_assoc; reflexivity |].
  split.
  - intros pre a post Hsplit Ha o Ho.
    assert (Hp : Forall (fun x => is_pass x = false) p).
    { unfold p. constructor; [reflexivity |].
      apply Forall_forall. intros x Hx. apply in_map_iff in Hx.
      destruct Hx as [o' [Hx _]]. subst x. reflexivity. }
    destruct (pass_after_prefix p q pre post a Hsplit Hp Ha) as [pre' Hpre].
    subst pre. apply in_or_app. left. right. apply in_map. exact Ho.
  - intros Hkeep Hne total Hr.
    assert (Hacc : accumulated (engine_handlers t) (trace t2) t2).
    { split; [rewrite Hh2; reflexivity |].
      exists []. rewrite app_nil_r. split; [reflexivity |].
      apply Hg2, Hne. }
    pose proof (pres_after_zero_grad_accumulated (engine_handlers t)
                  (trace t2) ugs false microbatches Hkeep t2 Hacc)
      as [_ [q' [Hq' Hgr]]].
    rewrite Hq in Hq'. apply app_inv_head in Hq'. subst q'.
    rewrite Hgr, backward_losses_app. unfold p. simpl.
    rewrite backward_losses_zero_grad. reflexivity.
Qed.

End ZeroGrad.

(** ** The loss of a batch is the size-weighted sum over its microbatches *)

Lemma run_handlers_transparent hs :
  Forall transparent hs ->
  forall ev s,
    batch (snd (run_handlers hs ev s)) = batch s /\
    outputs (snd (run_handlers hs ev s)) = outputs s /\
    loss (snd (run_handlers hs ev s)) = loss s /\
    model (snd (run_handlers hs ev s)) = model s.
Proof.
  induction 1 as [| h hs Hh _ IH]; intros ev s; simpl; [auto |].
  destruct (Hh ev s) as [Hb [Ho [Hl Hm]]].
  destruct (h ev s) as [[e |] s1]; simpl in *; [auto |].
  rewrite <- Hb, <- Ho, <- Hl, <- Hm. apply IH.
Qed.




Ltac proj_simpl_in H :=
  cbn [state engine_closed engine_handlers deepspeed_enabled ddp_sync_strategy
       _grad_clip_norm validate_every_n_batches validate_every_n_epochs
       compute_training_metrics _checkpointer checkpoint_loader
       _train_dataloader_iterator _eval_subset_num_batches grad_enabled rng
       trace
       set_state set_engine_closed set_checkpoint_loader set_iterator
       set_grad_enabled set_rng set_trace set_checkpointer
       epoch step _steps_per_epoch max_epochs grad_accum precision batch
       outputs loss last_batch_size algorithms optimizers scaler model
       training grads train_metrics train_dataloader eval_dataloader
       set_epoch set_step set_batch set_outputs set_loss set_last_batch_size
       set_optimizers set_scaler set_training set_grads set_train_metrics
       set_mode modify_state log fst snd] in H.

(** An outcome that is not a returned value satisfies a postcondition on
    returned values. *)
Ltac not_val := cbv beta iota; intros; discriminate.

(** One event under transparent handlers: the state the handlers leave
    has the batch, outputs, loss and model of the state they found. *)
Ltac enter_bind :=
  lazymatch goal with
  | |- wp (bind _ _) _ _ => apply wp_bind
  | _ => idtac
  end.

Ltac event_step Hh :=
  enter_bind;
  apply wp_run_event_any;
  [ intros _; not_val
  | let o := fresh "o" in
    let s := fresh "s" in
    let E := fresh "E" in
    let H := fresh "H" in
    intros _ o s E; proj_simpl_in E;
    match type of E with
    | run_handlers ?hs ?ev ?s0 = _ =>
        pose proof (run_handlers_transparent hs Hh ev s0) as H;
        rewrite E in H; proj_simpl_in H;
        destruct H as (? & ? & ? & ?)
    end;
    destruct o; [not_val |]; proj_simpl ].




Section LossWeighting.

Variable module_of : ModuleRef -> ComposerModel.t.

Local Abbreviation train_microbatch_ := (train_microbatch module_of).
Local Abbreviation train_microbatches_ := (train_microbatches module_of).
Local Abbreviation inner_ := (_train_batch_inner module_of).


(** The handlers, the model and the DeepSpeed flag stay what they are. *)
Lemma pres_train_microbatch_same hs m ds ugs cbs fin mb tot :
  Forall transparent hs ->
  pres (same_model hs m ds) (train_microbatch_ ugs cbs fin mb tot).
Proof.
  intro Hh.
  assert (Hrun : forall ev t,
             same_model hs m ds t ->
             same_model hs m ds
               (set_state (snd (run_handlers (engine_handlers t) ev (state t)))
                  t)).
  { intros ev t [He [Hm Hd]]. split; [exact He |]. split; [| exact Hd].
    simpl. rewrite He.
    destruct (run_handlers_transparent hs Hh ev (state t)) as [_ [_ [_ H]]].
    rewrite H. exact Hm. }
  unfold train_microbatch, scale_and_accumulate, scale_loss, backward.
  repeat first
    [ pres_struct
    | lazymatch goal with
      | |- pres _ (modify_state _) =>
          apply pres_modify_state; intros ? ?; assumption
      | |- pres _ (log _) => apply pres_log; intros ? ?; assumption
      | |- pres _ (run_event _) =>
          apply pres_run_event; intros ? ?; [assumption | apply Hrun; assumption]
      end ].
Qed.












End LossWeighting.

(** ** The epoch-skip signal *)

Lemma bind_diverge {A B} (m : M A) (k : A -> M B) t t1 :
  m t = (Diverge, t1) -> bind m k t = (Diverge, t1).
Proof. intro E. unfold bind. rewrite E. reflexivity. Qed.

Lemma try_except_else_diverge {A B} (body : M A) (handler : exn -> M B)
    (orelse : M B) t t1 :
  body t = (Diverge, t1) ->
  try_except_else body handler orelse t = (Diverge, t1).
Proof. intro E. unfold try_except_else. rewrite E. reflexivity. Qed.

Section EpochSkip.

Variable module_of : ModuleRef -> ComposerModel.t.
Variable default_batch_split_fn : Batch -> Z -> list Batch.
Variable _train_split_fn : option (Batch -> Z -> list Batch).
Variable _train_device_transformation_fn : option (Batch -> Batch).
Variable _eval_device_transformation_fn : option (Batch -> Batch).

Local Abbreviation fit_ :=
  (fit module_of default_batch_split_fn _train_split_fn
     _train_device_transformation_fn _eval_device_transformation_fn).
Local Abbreviation fit_loop_ :=
  (fit_loop module_of default_batch_split_fn _train_split_fn
     _train_device_transformation_fn _eval_device_transformation_fn).
Local Abbreviation epoch_iteration_ :=
  (epoch_iteration module_of default_batch_split_fn _train_split_fn
     _train_device_transformation_fn _eval_device_transformation_fn).

(** Past the end of an epoch with an exhausted iterator, an iteration of
    the outer loop changes nothing: the loop never ends. *)
Lemma fit_loop_never_ends t max_epoch max_step :
  epoch (state t) < max_epoch ->
  below (step (state t)) max_step = true ->
  batch_idx (state t) <> 0 ->
  batch_idx (state t) <> steps_per_epoch (state t) ->
  checkpoint_loader t = None ->
  _train_dataloader_iterator t = Some [] ->
  forall fuel, fit_loop_ fuel max_epoch max_step t = (Diverge, t).
Proof.
  intros Hep Hbelow Hidx Hend Hcl Hit.
  apply Z.ltb_lt in Hep. apply Z.eqb_neq in Hidx. apply Z.eqb_neq in Hend.
  assert (Hiter : epoch_iteration_ max_step t = (Val tt, t)).
  { unfold epoch_iteration, epoch_start_or_resume, resume_mid_epoch, bind,
      gets, assert.
    rewrite Hidx, Hcl. simpl. rewrite Hit. simpl. rewrite Hit. simpl.
    unfold bind, gets. rewrite Hbelow. simpl. rewrite Hend. reflexivity. }
  induction fuel as [| fuel IH]; simpl; unfold bind at 1, gets at 1;
    rewrite Hep, Hbelow; cbn [andb].
  - reflexivity.
  - rewrite (bind_val _ _ _ _ _ Hiter). exact IH.
Qed.

(** A first iteration that ends in such a state makes [fit] run for
    ever. *)
Lemma fit_never_ends t t1 :
  engine_closed t = false ->
  epoch (state t) < max_epochs (state t) ->
  epoch_iteration_ None t = (Val tt, t1) ->
  epoch (state t1) < max_epochs (state t) ->
  batch_idx (state t1) <> 0 ->
  batch_idx (state t1) <> steps_per_epoch (state t1) ->
  checkpoint_loader t1 = None ->
  _train_dataloader_iterator t1 = Some [] ->
  forall fuel, fit_ (S fuel) None None t = (Diverge, t1).
Proof.
  intros Hopen Hep Hiter Hep1 Hidx Hend Hcl Hit fuel.
  unfold fit. unfold bind at 1, gets at 1. rewrite Hopen. simpl andb. cbv iota.
  unfold bind at 1, gets at 1. cbn [is_some]. rewrite ?andb_false_r.
  apply try_except_else_diverge.
  apply bind_diverge. simpl fit_loop. unfold bind at 1, gets at 1.
  apply Z.ltb_lt in Hep. rewrite Hep. simpl.
  rewrite (bind_val _ _ _ _ _ Hiter).
  apply fit_loop_never_ends; auto.
Qed.

End EpochSkip.

(** C1 at the failing input: ten batches per epoch, the signal raised
    when the fourth batch starts.  The step jumps from 3 to 10, and the
    loop then takes batches 5 to 10 from the iterator and trains on them:
    the step ends at 16, past the boundary of the epoch, the epoch never
    ends, and [fit] does not return, however much fuel it is given. *)
Theorem epoch_skip_runs_remaining_batches (fuel : nat) :
  let r := Example.run_fit (S fuel) None None Example.skipping in
  fst r = Diverge /\
  step (state (snd r)) = 16 /\
  epoch (state (snd r)) = 0 /\
  forwarded (trace (snd r))
  = [1; 201; 2; 202; 3; 203; 5; 205; 6; 206; 7; 207; 8; 208; 9; 209;
     10; 210]%nat.
Proof.
  assert (E : Example.run_fit (S fuel) None None Example.skipping
              = (Diverge, Example.after_skipped_epoch)).
  { apply fit_never_ends.
    - vm_compute; reflexivity.
    - vm_compute; reflexivity.
    - vm_compute; reflexivity.
    - vm_compute; reflexivity.
    - vm_compute; discriminate.
    - vm_compute; discriminate.
    - vm_compute; reflexivity.
    - vm_compute; reflexivity. }
  cbv zeta. rewrite E. vm_compute. repeat split.
Qed.

(** ** Witnesses and counterexamples *)

Lemma fit_closed_engine_raises_witness :
  engine_closed Example.finished = true /\
  Example.run_fit 1 (Some 5) None Example.finished
  = (Raise RuntimeError, Example.finished).
Proof.
  split; [vm_compute; reflexivity |].
  apply fit_closed_engine_raises. vm_compute. reflexivity.
Defined.

Lemma fit_rejects_arguments_witness :
  Example.run_fit 1 (Some 2) (Some 1) (Example.built Example.args)
  = (Raise ValueError, Example.built Example.args) /\
  Example.run_fit 1 None (Some 1) Example.resumed_mid_epoch
  = (Raise ValueError, Example.resumed_mid_epoch).
Proof.
  split.
  - apply fit_rejects_arguments; [vm_compute; reflexivity |].
    left. split; reflexivity.
  - apply fit_rejects_arguments; [vm_compute; reflexivity |].
    right. split; [vm_compute; discriminate | reflexivity].
Defined.

(** C8 as stated fails on a closed engine: with both arguments given the
    error is the RuntimeError of the closed engine, not a ValueError. *)
Lemma fit_closed_engine_not_value_error :
  fst (Example.run_fit 1 (Some 2) (Some 1) Example.finished)
  = Raise RuntimeError /\
  fst (Example.run_fit 1 (Some 2) (Some 1) Example.finished)
  <> Raise ValueError.
Proof.
  assert (H : fst (Example.run_fit 1 (Some 2) (Some 1) Example.finished)
              = Raise RuntimeError) by (vm_compute; reflexivity).
  split; [exact H | rewrite H; discriminate].
Qed.


Lemma default_sync_strategy_witness :
  ddp_sync_strategy
    (Example.built (Example.with_algorithms
                      [(Example.plain, Example.quiet);
                       (Example.pruning, Example.quiet)] Example.args))
  = FORCED_SYNC /\
  ddp_sync_strategy (Example.built Example.args) = SINGLE_AUTO_SYNC.
Proof.
  split.
  - apply (default_sync_strategy Example.modules Example.sgd
             (Example.with_algorithms
                [(Example.plain, Example.quiet);
                 (Example.pruning, Example.quiet)] Example.args));
      [reflexivity | vm_compute; reflexivity |].
    exists Example.pruning. split; [simpl; auto | reflexivity].
  - apply (default_sync_strategy Example.modules Example.sgd Example.args);
      [reflexivity | vm_compute; reflexivity |].
    intros alg [H | []]. rewrite <- H. reflexivity.
Defined.

Lemma more_than_one_optimizer_raises_witness :
  Example.construct (Example.with_optimizers [Example.sgd; Example.adam]
                       Example.args)
  = Raise NotImplementedError.
Proof.
  apply (more_than_one_optimizer_raises Example.modules Example.sgd
           (Example.with_optimizers [Example.sgd; Example.adam] Example.args))
    with (ms := []).
  - simpl. lia.
  - reflexivity.
  - reflexivity.
Defined.

Lemma grad_scaling_decision_witness :
  fst (_train_batch Example.modules Example.halves None None None
         (Example.built (Example.with_precision AMP Example.args)))
  = Raise RuntimeError.
Proof.
  destruct grad_scaling_decision as [_ [_ [_ [_ H]]]].
  apply (H Example.modules Example.halves None None None
           (Example.built (Example.with_precision AMP Example.args))
           {| is_enabled := false; scale_factor := 65536%Q |} []).
  - vm_compute; reflexivity.
  - vm_compute; reflexivity.
  - vm_compute; reflexivity.
  - change (Forall keeps_scaling [Example.quiet]).
    constructor; [| constructor]. intros ev s. simpl. auto.
  - vm_compute; reflexivity.
  - vm_compute; reflexivity.
  - reflexivity.
  - vm_compute; reflexivity.
Defined.

(** C5 as stated fails twice.  With DeepSpeed enabled, auto-mixed
    precision and an enabled scaler give no scaling; and constructing a
    trainer in auto-mixed precision on hardware whose scaler is disabled
    returns a trainer instead of raising. *)
Lemma grad_scaling_not_by_precision_at_construction :
  fst (_use_grad_scaling AMP
         (Some {| is_enabled := true; scale_factor := 1%Q |})
         (Example.built (Example.with_deepspeed
                           (Example.with_precision AMP Example.args))))
  = Val false /\
  Example.construct (Example.with_precision AMP Example.args)
  = Val (Example.built (Example.with_precision AMP Example.args)) /\
  precision (state (Example.built (Example.with_precision AMP Example.args)))
  = AMP /\
  scaler_unusable
    (scaler (state (Example.built (Example.with_precision AMP Example.args))))
  = true.
Proof. vm_compute. repeat split. Qed.



Lemma eval_restores_mode_witness :
  training
    (state (snd (eval Example.modules None false Example.in_eval_mode)))
    0%nat
  = false /\
  training
    (state (snd (eval Example.modules None false
                   (Example.built Example.args))))
    0%nat
  = true.
Proof.
  split.
  - assert (Hm : model (state Example.in_eval_mode) = 0%nat)
      by (vm_compute; reflexivity).
    assert (He : engine_handlers Example.in_eval_mode = [Example.quiet])
      by (vm_compute; reflexivity).
    destruct (eval_restores_mode Example.modules None false
                Example.in_eval_mode
                (snd (eval Example.modules None false Example.in_eval_mode)))
      as [_ [H _]]; [vm_compute; reflexivity |].
    rewrite Hm, He in H.
    rewrite H; [vm_compute; reflexivity |].
    constructor; [| constructor]. intros ev s. reflexivity.
  - assert (Hm : model (state (Example.built Example.args)) = 0%nat)
      by (vm_compute; reflexivity).
    destruct (eval_restores_mode Example.modules None false
                (Example.built Example.args)
                (snd (eval Example.modules None false
                        (Example.built Example.args))))
      as [H _]; [vm_compute; reflexivity |].
    rewrite Hm in H. apply H. vm_compute. reflexivity.
Defined.

(** C9 as stated fails when an extension switches the mode of the model:
    with a handler that puts the model in training mode at EVAL_END, an
    [eval] called on a model in eval mode returns with the model in
    training mode. *)
Lemma eval_mode_switched_by_handler :
  training (state Example.switching_at_eval_end)
    (model (state Example.switching_at_eval_end))
  = false /\
  fst (eval Example.modules None false Example.switching_at_eval_end)
  = Val tt /\
  training
    (state (snd (eval Example.modules None false
                   Example.switching_at_eval_end)))
    (model (state Example.switching_at_eval_end))
  = true.
Proof. vm_compute. repeat split. Qed.

Lemma zero_grad_before_passes_witness :
  let t := Example.with_leftover_grads in
  let r := _train_batch_inner Example.modules [[1; 2]; [3; 4; 5]]%nat true t in
  grads (state t) = [7%Q; 9%Q] /\
  exists new,
    trace (snd r) = trace t ++ new /\
    grads (state (snd r)) = backward_losses new.
Proof.
  intros t r. split; [vm_compute; reflexivity |].
  assert (He : engine_handlers t = [Example.quiet])
    by (vm_compute; reflexivity).
  destruct (zero_grad_before_passes Example.modules
              [[1; 2]; [3; 4; 5]]%nat true t (fst r) (snd r))
    as [new [Htr [_ Hg]]].
  - vm_compute; reflexivity.
  - apply surjective_pairing.
  - exists new. split; [exact Htr |].
    rewrite He in Hg.
    apply (Hg ltac:(constructor; [intros ev s; reflexivity | constructor])
              ltac:(vm_compute; discriminate)
              (match fst r with Val x => x | _ => 0%Q end)).
    vm_compute. reflexivity.
Defined.

(** * Further properties of the training loop *)

(** ** Invariants under the handlers *)

Section GuardedRules.

Variable ok : exn -> bool.
Variable P : Trainer -> Prop.

Lemma guarded_ret {A} (a : A) : guarded ok P (ret a).
Proof. intros t Ht. split; [exact Ht | discriminate]. Qed.

Lemma guarded_raise {A} (e : exn) : ok e = true -> guarded ok P (@raise A e).
Proof.
  intros He t Ht. split; [exact Ht |].
  intros e' H. inversion H; subst. exact He.
Qed.

Lemma guarded_diverge {A} : guarded ok P (@diverge A).
Proof. intros t Ht. split; [exact Ht | discriminate]. Qed.

Lemma guarded_gets {A} (f : Trainer -> A) : guarded ok P (gets f).
Proof. intros t Ht. split; [exact Ht | discriminate]. Qed.

Lemma guarded_modify (f : Trainer -> Trainer) :
  (forall t, P t -> P (f t)) -> guarded ok P (modify f).
Proof. intros Hf t Ht. split; [apply Hf, Ht | discriminate]. Qed.

Lemma guarded_bind {A B} (m : M A) (k : A -> M B) :
  guarded ok P m -> (forall a, guarded ok P (k a)) -> guarded ok P (bind m k).
Proof.
  intros Hm Hk t Ht. unfold bind.
  destruct (Hm t Ht) as [H1 H2].
  destruct (m t) as [[a | e |] t1]; simpl in *.
  - apply Hk, H1.
  - split; [exact H1 |].
    intros e' H. inversion H; subst. apply H2. reflexivity.
  - split; [exact H1 | discriminate].
Qed.

Lemma guarded_try_except {A} (m : M A) (sel : exn -> bool) (h : exn -> M A) :
  guarded ok P m -> (forall e, guarded ok P (h e)) ->
  guarded ok P (try_except m sel h).
Proof.
  intros Hm Hh t Ht. unfold try_except.
  destruct (Hm t Ht) as [H1 H2].
  destruct (m t) as [[a | e |] t1]; simpl in *.
  - split; [exact H1 | discriminate].
  - destruct (sel e); [apply Hh, H1 | split; [exact H1 | exact H2]].
  - split; [exact H1 | discriminate].
Qed.

Lemma guarded_for_each {A} (l : list A) (body : A -> M unit) :
  (forall x, guarded ok P (body x)) -> guarded ok P (for_each l body).
Proof.
  intro Hbody. induction l as [| x l IH]; simpl.
  - apply guarded_ret.
  - apply guarded_bind; auto.
Qed.

Lemma guarded_no_grad {A} (body : M A) :
  (forall b t, P t -> P (set_grad_enabled b t)) ->
  guarded ok P body -> guarded ok P (no_grad body).
Proof.
  intros Hg Hbody t Ht. unfold no_grad.
  destruct (Hbody (set_grad_enabled false t) (Hg _ _ Ht)) as [H1 H2].
  destruct (body (set_grad_enabled false t)) as [r t1]; simpl in *.
  split; [apply Hg, H1 | exact H2].
Qed.

Lemma guarded_pres {A} (m : M A) : guarded ok P m -> pres P m.
Proof. intros H t Ht. apply H, Ht. Qed.

End GuardedRules.

Lemma guarded_assert ok P (b : bool) :
  ok AssertionError = true -> guarded ok P (assert b).
Proof.
  intro H. destruct b; [apply guarded_ret | apply guarded_raise, H].
Qed.

Lemma guarded_run_event ok P (HR : Respected ok P) (ev : Event) :
  guarded ok P (run_event ev).
Proof.
  intros t Ht.
  unfold run_event, bind, gets, log, modify.
  destruct (engine_closed t); simpl.
  - split; [exact Ht |]. intros e H. inversion H; subst.
    apply (resp_raises _ _ HR). reflexivity.
  - pose proof (resp_log _ _ HR (ARunEvent ev) t Ht) as H1.
    destruct (resp_events _ _ HR ev _ H1) as [H2 H3]. simpl in H2, H3.
    destruct (run_handlers (engine_handlers t) ev (state t)) as [[e |] s1];
      simpl in *.
    + split; [exact H2 |]. intros e' H. inversion H; subst. apply H3.
      reflexivity.
    + split; [exact H2 | discriminate].
Qed.

(** The structural steps of a proof of [guarded]. *)
Ltac guarded_struct :=
  lazymatch goal with
  | |- guarded _ _ (bind _ _) => apply guarded_bind; [| intro]
  | |- guarded _ _ (ret _) => apply guarded_ret
  | |- guarded _ _ diverge => apply guarded_diverge
  | |- guarded _ _ (gets _) => apply guarded_gets
  | |- guarded _ _ (for_each _ _) => apply guarded_for_each; intro
  | |- guarded _ _ (try_except _ _ _) => apply guarded_try_except; [| intro]
  | |- guarded _ _ (match ?x with _ => _ end) => destruct x
  end.

Ltac guarded_leaf HR :=
  lazymatch goal with
  | |- guarded _ _ (raise _) =>
      apply guarded_raise; apply (resp_raises _ _ HR); reflexivity
  | |- guarded _ _ (assert _) =>
      apply guarded_assert; apply (resp_raises _ _ HR); reflexivity
  | |- guarded _ _ (run_event _) => apply (guarded_run_event _ _ HR)
  | |- guarded _ _ (log _) =>
      apply guarded_modify; intros ? ?; apply (resp_log _ _ HR); assumption
  | |- guarded _ _ (no_grad _) =>
      apply guarded_no_grad; [apply (resp_grad_enabled _ _ HR) |]
  | |- guarded _ _ (modify_state _) =>
      apply guarded_modify; intros ? ?; cbv beta; unfold set_mode;
      first [ apply (resp_batch _ _ HR) | apply (resp_outputs _ _ HR)
            | apply (resp_loss _ _ HR) | apply (resp_last_batch_size _ _ HR)
            | apply (resp_training _ _ HR) | apply (resp_grads _ _ HR) ];
      assumption
  | |- guarded _ _ (modify _) =>
      apply guarded_modify; intros ? ?; cbv beta;
      first [ apply (resp_iterator _ _ HR) | apply (resp_loader _ _ HR)
            | apply (resp_rng _ _ HR) ];
      assumption
  end.

Create HintDb guarded discriminated.

Ltac guarded_auto HR :=
  repeat first [ guarded_struct | guarded_leaf HR
               | solve [auto with guarded] ].

Section GuardedMethods.

Variable module_of : ModuleRef -> ComposerModel.t.
Variable default_batch_split_fn : Batch -> Z -> list Batch.
Variable _train_split_fn : option (Batch -> Z -> list Batch).
Variable _train_device_transformation_fn : option (Batch -> Batch).
Variable _eval_device_transformation_fn : option (Batch -> Batch).

Variable ok : exn -> bool.
Variable P : Trainer -> Prop.
Hypothesis HR : Respected ok P.

Lemma guarded_checkpoint_if_due ev : guarded ok P (checkpoint_if_due ev).
Proof. unfold checkpoint_if_due. guarded_auto HR. Qed.

Lemma guarded_islice dl stop : guarded ok P (islice dl stop).
Proof. unfold islice. guarded_auto HR. Qed.

Lemma guarded_draw b : guarded ok P (draw b).
Proof. unfold draw. guarded_auto HR. Qed.

Lemma guarded_transform f : guarded ok P (transform f).
Proof. unfold transform. guarded_auto HR. Qed.

Lemma guarded_iter_optimizers : guarded ok P iter_optimizers.
Proof. unfold iter_optimizers. guarded_auto HR. Qed.

Lemma guarded_use_grad_scaling p sc : guarded ok P (_use_grad_scaling p sc).
Proof. unfold _use_grad_scaling. guarded_auto HR. Qed.

Lemma guarded_use_closures : guarded ok P _use_closures.
Proof. unfold _use_closures. guarded_auto HR. Qed.

Lemma guarded_get_metrics b :
  guarded ok P (_get_metrics_as_collection module_of b).
Proof. unfold _get_metrics_as_collection. guarded_auto HR. Qed.

Lemma guarded_compute_and_log_metrics a b :
  guarded ok P (_compute_and_log_metrics a b).
Proof. unfold _compute_and_log_metrics. guarded_auto HR. Qed.

Hint Resolve guarded_checkpoint_if_due guarded_islice guarded_draw
  guarded_transform guarded_iter_optimizers guarded_use_grad_scaling
  guarded_use_closures guarded_get_metrics guarded_compute_and_log_metrics
  : guarded.

Lemma guarded_eval_batch b :
  guarded ok P (eval_batch module_of _eval_device_transformation_fn b).
Proof. unfold eval_batch. guarded_auto HR. Qed.

Hint Resolve guarded_eval_batch : guarded.

Lemma guarded_eval_body is_batch :
  guarded ok P (eval_body module_of _eval_device_transformation_fn is_batch).
Proof. unfold eval_body. guarded_auto HR. Qed.

Hint Resolve guarded_eval_body : guarded.

Lemma guarded_eval is_batch :
  guarded ok P (eval module_of _eval_device_transformation_fn is_batch).
Proof. unfold eval. guarded_auto HR. Qed.

Hint Resolve guarded_eval : guarded.

Lemma guarded_zero_grad o : guarded ok P (zero_grad o).
Proof. unfold zero_grad. guarded_auto HR. Qed.

Lemma guarded_backward cg l : guarded ok P (backward cg l).
Proof. unfold backward. guarded_auto HR. Qed.

Lemma guarded_scale_and_accumulate a b tot :
  guarded ok P (scale_and_accumulate a b tot).
Proof. unfold scale_and_accumulate. guarded_auto HR. Qed.

Lemma guarded_scale_loss : guarded ok P scale_loss.
Proof. unfold scale_loss. guarded_auto HR. Qed.

Hint Resolve guarded_zero_grad guarded_backward guarded_scale_and_accumulate
  guarded_scale_loss : guarded.

Lemma guarded_train_microbatch ugs cbs fin mb tot :
  guarded ok P (train_microbatch module_of ugs cbs fin mb tot).
Proof. unfold train_microbatch. guarded_auto HR. Qed.

Hint Resolve guarded_train_microbatch : guarded.

Lemma guarded_train_microbatches ugs cbs mbs :
  forall tot, guarded ok P (train_microbatches module_of ugs cbs mbs tot).
Proof.
  induction mbs as [| mb rest IH]; intro tot; simpl; guarded_auto HR.
Qed.

Hint Resolve guarded_train_microbatches : guarded.

Lemma guarded_train_batch_inner mbs sync :
  guarded ok P (_train_batch_inner module_of mbs sync).
Proof. unfold _train_batch_inner, after_zero_grad. guarded_auto HR. Qed.

Hint Resolve guarded_train_batch_inner : guarded.

Lemma guarded_step_all_with_closure ugs mbs os :
  forall tot, guarded ok P (step_all_with_closure module_of ugs mbs os tot).
Proof.
  induction os as [| o os IH]; intro tot; simpl; [guarded_auto HR |].
  unfold step_with_closure. guarded_auto HR.
Qed.

Hint Resolve guarded_step_all_with_closure : guarded.

Lemma guarded_advance n : guarded ok P (advance n).
Proof. induction n as [| n IH]; simpl; guarded_auto HR. Qed.

Hint Resolve guarded_advance : guarded.

Lemma guarded_resume_mid_epoch : guarded ok P resume_mid_epoch.
Proof.
  unfold resume_mid_epoch, restore_checkpoint_rng_state. guarded_auto HR.
Qed.

Hint Resolve guarded_resume_mid_epoch : guarded.

Lemma guarded_epoch_start_or_resume : guarded ok P epoch_start_or_resume.
Proof. unfold epoch_start_or_resume. guarded_auto HR. Qed.

End GuardedMethods.


#[global] Hint Resolve guarded_checkpoint_if_due guarded_islice guarded_draw
  guarded_transform guarded_iter_optimizers guarded_use_grad_scaling
  guarded_use_closures guarded_get_metrics guarded_compute_and_log_metrics
  guarded_eval_batch guarded_eval_body guarded_eval guarded_zero_grad
  guarded_backward guarded_scale_and_accumulate guarded_scale_loss
  guarded_train_microbatch guarded_train_microbatches
  guarded_train_batch_inner guarded_step_all_with_closure guarded_advance
  guarded_resume_mid_epoch guarded_epoch_start_or_resume : guarded.

(** Leaves that write the progress counters. *)
Ltac guarded_progress HT :=
  lazymatch goal with
  | |- guarded _ _ (modify_state _) =>
      apply guarded_modify; intros ? ?; cbv beta;
      first [ apply (steady_epoch _ _ HT) | apply (steady_step _ _ HT) ];
      assumption
  end.

Ltac guarded_auto' HR HT :=
  repeat first [ guarded_struct | guarded_leaf HR | guarded_progress HT
               | solve [auto with guarded] ].

Section SteadyMethods.

Variable module_of : ModuleRef -> ComposerModel.t.
Variable default_batch_split_fn : Batch -> Z -> list Batch.
Variable _train_split_fn : option (Batch -> Z -> list Batch).
Variable _train_device_transformation_fn : option (Batch -> Batch).
Variable _eval_device_transformation_fn : option (Batch -> Batch).

Variable ok : exn -> bool.
Variable P : Trainer -> Prop.
Hypothesis HT : Steady ok P.

Lemma guarded_train_batch :
  guarded ok P
    (_train_batch module_of default_batch_split_fn _train_split_fn
       _train_device_transformation_fn _eval_device_transformation_fn).
Proof.
  pose proof (steady_respected _ _ HT) as HR.
  unfold _train_batch. guarded_auto' HR HT.
Qed.

Lemma guarded_epoch_end :
  guarded ok P (_epoch_end module_of _eval_device_transformation_fn).
Proof.
  pose proof (steady_respected _ _ HT) as HR.
  unfold _epoch_end. guarded_auto' HR HT.
Qed.

Lemma guarded_train_batches max_step remaining :
  guarded ok P
    (train_batches module_of default_batch_split_fn _train_split_fn
       _train_device_transformation_fn _eval_device_transformation_fn
       max_step remaining).
Proof.
  pose proof (steady_respected _ _ HT) as HR.
  pose proof guarded_train_batch.
  induction remaining as [| b rest IH]; simpl; guarded_auto' HR HT.
Qed.

Lemma guarded_fit_loop fuel max_epoch max_step :
  guarded ok P
    (fit_loop module_of default_batch_split_fn _train_split_fn
       _train_device_transformation_fn _eval_device_transformation_fn
       fuel max_epoch max_step).
Proof.
  pose proof (steady_respected _ _ HT) as HR.
  pose proof guarded_train_batches.
  pose proof guarded_epoch_end.
  induction fuel as [| fuel IH]; simpl; unfold epoch_iteration;
    guarded_auto' HR HT.
Qed.

End SteadyMethods.


Lemma engine_open_steady : Steady any_exn engine_open.
Proof.
  split; [split | |]; unfold engine_open; simpl; intros; auto.
Qed.

Section FitProtocol.

Variable module_of : ModuleRef -> ComposerModel.t.
Variable default_batch_split_fn : Batch -> Z -> list Batch.
Variable _train_split_fn : option (Batch -> Z -> list Batch).
Variable _train_device_transformation_fn : option (Batch -> Batch).
Variable _eval_device_transformation_fn : option (Batch -> Batch).

Local Abbreviation fit_ :=
  (fit module_of default_batch_split_fn _train_split_fn
     _train_device_transformation_fn _eval_device_transformation_fn).
Local Abbreviation fit_loop_ :=
  (fit_loop module_of default_batch_split_fn _train_split_fn
     _train_device_transformation_fn _eval_device_transformation_fn).

(** What a call of [fit] that passes the checks of its arguments does. *)
Lemma fit_open fuel num_batches num_epochs t :
  engine_closed t = false ->
  is_some num_batches && is_some num_epochs = false ->
  negb (batch_idx (state t) =? 0) && is_some num_epochs = false ->
  fit_ fuel num_batches num_epochs t =
  try_except_else
    (fit_loop_ fuel
       (match num_epochs with
        | Some n => epoch (state t) + n
        | None => max_epochs (state t)
        end)
       (match num_batches with
        | Some n => Some (step (state t) + n)
        | None => None
        end) ;;
     run_event TRAINING_END)
    (fun e => engine_close ;; raise e)
    (st <- gets state ;;
     if epoch st =? max_epochs st then engine_close else ret tt) t.
Proof.
  intros Hopen H1 H2. unfold fit.
  unfold bind at 1, gets at 1. rewrite Hopen, H1.
  unfold bind at 1, gets at 1. rewrite H2. reflexivity.
Qed.

(** A call of [fit] that does not pass them raises and changes nothing. *)
Lemma fit_rejected fuel num_batches num_epochs t :
  engine_closed t = false ->
  is_some num_batches && is_some num_epochs = true \/
  negb (batch_idx (state t) =? 0) && is_some num_epochs = true ->
  fit_ fuel num_batches num_epochs t = (Raise ValueError, t).
Proof.
  intros Hopen H. unfold fit, bind, gets. rewrite Hopen.
  destruct (is_some num_batches && is_some num_epochs); [reflexivity |].
  destruct H as [H | H]; [discriminate | rewrite H; reflexivity].
Qed.

Lemma fit_closed fuel num_batches num_epochs t :
  engine_closed t = true ->
  fit_ fuel num_batches num_epochs t = (Raise RuntimeError, t).
Proof. intro H. unfold fit, bind, gets. rewrite H. reflexivity. Qed.

Lemma engine_close_closes t :
  exists t', engine_close t = (Val tt, t') /\ engine_closed t' = true /\
             state t' = state t.
Proof.
  unfold engine_close, bind, gets.
  destruct (engine_closed t) eqn:E; simpl.
  - exists t. auto.
  - eexists. split; [reflexivity |]. split; reflexivity.
Qed.

(** X1.  A call of [fit] on an open engine that raises has either
    rejected its arguments, with a ValueError and the trainer untouched,
    or has closed the engine on the way out: whatever exception escapes
    the training loop or the TRAINING_END event, the engine is closed
    before it is raised again, and every later call of [fit] on that
    trainer raises RuntimeError. *)
Theorem fit_failure_closes_engine (fuel : nat)
    (num_batches num_epochs : option Z) (t : Trainer) (e : exn)
    (t' : Trainer) :
  engine_closed t = false ->
  fit_ fuel num_batches num_epochs t = (Raise e, t') ->
  (e = ValueError /\ t' = t) \/
  (engine_closed t' = true /\
   forall fuel' num_batches' num_epochs',
     fit_ fuel' num_batches' num_epochs' t' = (Raise RuntimeError, t')).
Proof.
  intros Hopen E.
  destruct (is_some num_batches && is_some num_epochs) eqn:H1.
  { rewrite (fit_rejected _ _ _ _ Hopen (or_introl H1)) in E.
    inversion E. auto. }
  destruct (negb (batch_idx (state t) =? 0) && is_some num_epochs) eqn:H2.
  { rewrite (fit_rejected _ _ _ _ Hopen (or_intror H2)) in E.
    inversion E. auto. }
  right.
  assert (Hc : engine_closed t' = true).
  { rewrite (fit_open _ _ _ _ Hopen H1 H2) in E.
    unfold try_except_else in E.
    destruct ((_ ;; run_event TRAINING_END) t) as [[[] | e1 |] t1].
    - unfold bind, gets in E.
      destruct (epoch (state t1) =? max_epochs (state t1)).
      + destruct (engine_close_closes t1) as [t2 [E2 _]].
        rewrite E2 in E. discriminate.
      + discriminate.
    - destruct (engine_close_closes t1) as [t2 [E2 [Hc2 _]]].
      unfold bind in E. rewrite E2 in E. inversion E; subst. exact Hc2.
    - discriminate. }
  split; [exact Hc |].
  intros. apply fit_closed, Hc.
Qed.

(** X2.  When [fit] returns, the engine is closed exactly if the epoch
    counter has reached [max_epochs]: nothing in the training loop closes
    it, and the [else] clause closes it on [epoch == max_epochs] only.  A
    trainer that has trained to [max_epochs] cannot be fitted again. *)
Theorem fit_closes_engine_at_max_epochs (fuel : nat)
    (num_batches num_epochs : option Z) (t t' : Trainer) :
  fit_ fuel num_batches num_epochs t = (Val tt, t') ->
  (engine_closed t' = true <-> epoch (state t') = max_epochs (state t')) /\
  (epoch (state t') = max_epochs (state t') ->
   forall fuel' num_batches' num_epochs',
     fit_ fuel' num_batches' num_epochs' t' = (Raise RuntimeError, t')).
Proof.
  intro E.
  assert (Hiff : engine_closed t' = true <->
                 epoch (state t') = max_epochs (state t')).
  { destruct (engine_closed t) eqn:Hopen;
      [rewrite (fit_closed _ _ _ _ Hopen) in E; discriminate |].
    destruct (is_some num_batches && is_some num_epochs) eqn:H1;
      [rewrite (fit_rejected _ _ _ _ Hopen (or_introl H1)) in E;
       discriminate |].
    destruct (negb (batch_idx (state t) =? 0) && is_some num_epochs) eqn:H2;
      [rewrite (fit_rejected _ _ _ _ Hopen (or_intror H2)) in E;
       discriminate |].
    rewrite (fit_open _ _ _ _ Hopen H1 H2) in E.
    unfold try_except_else in E.
    match type of E with
    | context [bind ?body (fun _ => run_event TRAINING_END) t] =>
        pose proof (guarded_bind any_exn engine_open body
                      (fun _ => run_event TRAINING_END)
                      (guarded_fit_loop _ _ _ _ _ _ _ engine_open_steady
                         _ _ _)
                      (fun _ => guarded_run_event _ _
                                  (steady_respected _ _ engine_open_steady)
                                  TRAINING_END)
                      t Hopen) as [Ho _];
        destruct (bind body (fun _ => run_event TRAINING_END) t)
          as [[[] | e1 |] t1]
    end; simpl in Ho.
    - unfold bind, gets in E.
      destruct (epoch (state t1) =? max_epochs (state t1)) eqn:Hep.
      + destruct (engine_close_closes t1) as [t2 [E2 [Hc2 Hs2]]].
        rewrite E2 in E. inversion E; subst.
        rewrite Hs2. apply Z.eqb_eq in Hep. tauto.
      + inversion E; subst. apply Z.eqb_neq in Hep.
        unfold engine_open in Ho. rewrite Ho. split; [discriminate | tauto].
    - destruct (engine_close_closes t1) as [t2 [E2 _]].
      unfold bind in E. rewrite E2 in E. discriminate.
    - discriminate. }
  split; [exact Hiff |].
  intros Hep ? ? ?. apply fit_closed, Hiff, Hep.
Qed.

End FitProtocol.


Lemma wp_conseq {A} (m : M A) t (Q Q' : Result A -> Trainer -> Prop) :
  wp m t Q -> (forall r t', Q r t' -> Q' r t') -> wp m t Q'.
Proof. unfold wp. auto. Qed.

Lemma run_handlers_paced hs :
  Forall paced hs ->
  forall ev s,
    fst (run_handlers hs ev s) <> Some BreakEpochException /\
    epoch (snd (run_handlers hs ev s)) = epoch s /\
    step (snd (run_handlers hs ev s)) = step s /\
    _steps_per_epoch (snd (run_handlers hs ev s)) = _steps_per_epoch s /\
    max_epochs (snd (run_handlers hs ev s)) = max_epochs s /\
    train_dataloader (snd (run_handlers hs ev s)) = train_dataloader s.
Proof.
  induction 1 as [| h hs Hh _ IH]; intros ev s; simpl.
  - repeat split; auto. discriminate.
  - destruct (Hh ev s) as [H1 [H2 [H3 [H4 [H5 H6]]]]].
    destruct (h ev s) as [[e |] s1]; simpl in *.
    + repeat split; auto.
    + destruct (IH ev s1) as [I1 [I2 [I3 [I4 [I5 I6]]]]].
      repeat split; congruence.
Qed.

Lemma at_progress_respected t0 e s :
  Forall paced (engine_handlers t0) ->
  Respected not_skip (at_progress t0 e s).
Proof.
  intro Hh. split; unfold at_progress; simpl; intros; try assumption.
  - destruct e0; try discriminate; reflexivity.
  - destruct H as [He H]. rewrite He.
    destruct (run_handlers_paced _ Hh ev (state t))
      as [H1 [H2 [H3 [H4 [H5 H6]]]]].
    split.
    + intuition congruence.
    + intros x Hx. rewrite Hx in H1.
      destruct x; try reflexivity. contradiction H1. reflexivity.
Qed.

Lemma wp_guarded_bind {A B} ok P (m : M A) (k : A -> M B) t
    (Q : Result B -> Trainer -> Prop) :
  guarded ok P m -> P t ->
  (forall a t1, P t1 -> wp (k a) t1 Q) ->
  (forall e t1, ok e = true -> P t1 -> Q (Raise e) t1) ->
  (forall t1, P t1 -> Q Diverge t1) ->
  wp (bind m k) t Q.
Proof.
  intros Hm Ht Hk He Hd. apply wp_bind. unfold wp.
  destruct (Hm t Ht) as [H1 H2].
  destruct (m t) as [[a | e |] t1]; simpl in *.
  - apply Hk, H1.
  - apply He; [apply H2; reflexivity | exact H1].
  - apply Hd, H1.
Qed.

Lemma wp_guarded {A} ok P (m : M A) t (Q : Result A -> Trainer -> Prop) :
  guarded ok P m -> P t ->
  (forall a t1, P t1 -> Q (Val a) t1) ->
  (forall e t1, ok e = true -> P t1 -> Q (Raise e) t1) ->
  (forall t1, P t1 -> Q Diverge t1) ->
  wp m t Q.
Proof.
  intros Hm Ht Hv He Hd. unfold wp.
  destruct (Hm t Ht) as [H1 H2].
  destruct (m t) as [[a | e |] t1]; simpl in *.
  - apply Hv, H1.
  - apply He; [apply H2; reflexivity | exact H1].
  - apply Hd, H1.
Qed.

(** Runs through the binds of a method whose first components maintain
    the invariant [P]; [side] settles the outcome when one of them raises. *)
Ltac spine ok P HR side :=
  repeat (cbv beta zeta;
          lazymatch goal with
          | H : P ?t |- wp (bind ?m ?k) ?t ?Q =>
              apply (wp_guarded_bind ok P m k t Q);
              [ solve [guarded_auto HR] | exact H | clear H; intros ? ? H
              | solve [side] | solve [side] ]
          end).

Section Progress.

Variable module_of : ModuleRef -> ComposerModel.t.
Variable default_batch_split_fn : Batch -> Z -> list Batch.
Variable _train_split_fn : option (Batch -> Z -> list Batch).
Variable _train_device_transformation_fn : option (Batch -> Batch).
Variable _eval_device_transformation_fn : option (Batch -> Batch).

Local Abbreviation train_batch_ :=
  (_train_batch module_of default_batch_split_fn _train_split_fn
     _train_device_transformation_fn _eval_device_transformation_fn).
Local Abbreviation epoch_end_ :=
  (_epoch_end module_of _eval_device_transformation_fn).

Lemma train_batch_progress t0 e s t :
  Forall paced (engine_handlers t0) ->
  at_progress t0 e s t ->
  wp train_batch_ t (batch_outcome t0 e s).
Proof.
  intros Hh Ht.
  pose proof (at_progress_respected t0 e s Hh) as HR.
  unfold _train_batch.
  spine not_skip (at_progress t0 e s) HR ltac:(intros; simpl; auto).
  unfold checkpoint_if_due. wp_steps.
  destruct Ht as [H1 [H2 [H3 [H4 [H5 H6]]]]].
  destruct (should_checkpoint _ _ _) eqn:Hdue; wp_steps;
    [destruct (write_fails _ _ _) eqn:Hw; wp_steps |];
    unfold batch_outcome, at_progress; simpl;
    try rewrite H6 in Hdue; try rewrite H6 in Hw; rewrite H6; auto 10.
  split; [reflexivity |]. right.
  split; [reflexivity |]. split; [auto 10 |].
  unfold failed_at_save. proj_simpl.
  split; [exact Hdue |]. split; [exact Hw |]. eexists. reflexivity.
Qed.

Lemma epoch_end_progress t0 e s t :
  Forall paced (engine_handlers t0) ->
  at_progress t0 e s t ->
  wp epoch_end_ t (epoch_outcome t0 e s).
Proof.
  intros Hh Ht.
  pose proof (at_progress_respected t0 e s Hh) as HR.
  unfold _epoch_end.
  spine not_skip (at_progress t0 e s) HR ltac:(intros; simpl; auto).
  unfold checkpoint_if_due. wp_steps.
  destruct Ht as [H1 [H2 [H3 [H4 [H5 H6]]]]].
  destruct (should_checkpoint _ _ _) eqn:Hdue; wp_steps;
    [destruct (write_fails _ _ _) eqn:Hw; wp_steps |];
    unfold epoch_outcome, at_progress; simpl;
    try rewrite H5 in Hdue; try rewrite H5 in Hw; rewrite H5; auto 10.
  split; [reflexivity |]. right.
  split; [reflexivity |]. split; [auto 10 |].
  unfold failed_at_save. proj_simpl.
  split; [exact Hdue |]. split; [exact Hw |]. eexists. reflexivity.
Qed.

(** X4.  With handlers that leave the progress counters alone and do not
    raise the epoch-skip signal, [_train_batch] leaves the epoch as it is
    and never raises the epoch-skip signal.  The step is one more when it
    returns.  When it raises, the step is unchanged, with one exception:
    the step is incremented before the checkpoint of the batch is saved,
    so when that save fails the I/O error leaves a trainer whose step is
    already one more. *)
Theorem train_batch_counts_one_step (t : Trainer) :
  Forall paced (engine_handlers t) ->
  (forall t',
      train_batch_ t = (Val tt, t') ->
      epoch (state t') = epoch (state t) /\
      step (state t') = step (state t) + 1) /\
  (forall x t',
      train_batch_ t = (Raise x, t') ->
      epoch (state t') = epoch (state t) /\
      x <> BreakEpochException /\
      (step (state t') = step (state t) \/
       (step (state t') = step (state t) + 1 /\
        x = OSError /\ failed_at_save BATCH_END t'))).
Proof.
  intro Hh.
  pose proof (train_batch_progress t (epoch (state t)) (step (state t)) t Hh
                ltac:(repeat split)) as H.
  unfold wp in H.
  split; [intros t' E | intros x t' E]; rewrite E in H; simpl in H.
  - destruct H as [_ [_ [_ [_ [He Hs]]]]]. auto.
  - destruct H as [Hx [[_ [_ [_ [_ [He Hs]]]]]
                      | [Hio [[_ [_ [_ [_ [He Hs]]]]] Hsave]]]].
    + split; [exact He |].
      split; [intro Hb; subst x; discriminate |]. left. exact Hs.
    + split; [exact He |].
      split; [intro Hb; subst x; discriminate |]. right. auto.
Qed.

(** X5.  With such handlers, [_epoch_end] leaves the step as it is and
    never raises the epoch-skip signal.  When it returns it has
    incremented the epoch and dropped the iterator over the training
    data.  When it raises, the epoch has not been incremented, with one
    exception: the epoch is incremented before the checkpoint of the epoch
    is saved, so when that save fails the I/O error leaves a trainer whose
    epoch is already one more. *)
Theorem epoch_end_advances_epoch (t : Trainer) :
  Forall paced (engine_handlers t) ->
  (forall t',
      epoch_end_ t = (Val tt, t') ->
      epoch (state t') = epoch (state t) + 1 /\
      step (state t') = step (state t) /\
      _train_dataloader_iterator t' = None) /\
  (forall x t',
      epoch_end_ t = (Raise x, t') ->
      step (state t') = step (state t) /\
      x <> BreakEpochException /\
      (epoch (state t') = epoch (state t) \/
       (epoch (state t') = epoch (state t) + 1 /\
        x = OSError /\ failed_at_save EPOCH_END t'))).
Proof.
  intro Hh.
  pose proof (epoch_end_progress t (epoch (state t)) (step (state t)) t Hh
                ltac:(repeat split)) as H.
  unfold wp in H.
  split; [intros t' E | intros x t' E]; rewrite E in H; simpl in H.
  - destruct H as [[_ [_ [_ [_ [He Hs]]]]] Hit]. auto.
  - destruct H as [Hx [[_ [_ [_ [_ [He Hs]]]]]
                      | [Hio [[_ [_ [_ [_ [He Hs]]]]] Hsave]]]].
    + split; [exact Hs |].
      split; [intro Hb; subst x; discriminate |]. left. exact He.
    + split; [exact Hs |].
      split; [intro Hb; subst x; discriminate |]. right. auto.
Qed.

Local Abbreviation train_batches_ :=
  (train_batches module_of default_batch_split_fn _train_split_fn
     _train_device_transformation_fn _eval_device_transformation_fn).
Local Abbreviation epoch_iteration_ :=
  (epoch_iteration module_of default_batch_split_fn _train_split_fn
     _train_device_transformation_fn _eval_device_transformation_fn).
Local Abbreviation fit_loop_ :=
  (fit_loop module_of default_batch_split_fn _train_split_fn
     _train_device_transformation_fn _eval_device_transformation_fn).
Local Abbreviation fit_ :=
  (fit module_of default_batch_split_fn _train_split_fn
     _train_device_transformation_fn _eval_device_transformation_fn).

Lemma train_batches_progress t0 e max_step remaining :
  Forall paced (engine_handlers t0) ->
  forall s t,
    at_progress t0 e s t ->
    wp (train_batches_ max_step remaining) t
      (fun r t' =>
         match r with
         | Val _ =>
             at_progress t0 e
               (s + Z.of_nat (taken max_step s (length remaining))) t'
         | Raise x => not_skip x = true
         | Diverge => True
         end).
Proof.
  intro Hh. induction remaining as [| b rest IH]; intros s t Ht.
  - simpl train_batches. wp_steps.
    assert (Hs : step (state t) = s) by apply Ht.
    rewrite Hs.
    assert (Hk : taken max_step s (length (@nil Batch)) = 0%nat)
      by (destruct max_step; reflexivity).
    rewrite Hk, Z.add_0_r.
    destruct (below s max_step); wp_steps; exact Ht.
  - simpl train_batches. wp_steps.
    assert (Hs : step (state t) = s) by apply Ht.
    rewrite Hs.
    destruct (below s max_step) eqn:Hb.
    + pose proof (at_progress_respected t0 e s Hh) as HR.
      spine not_skip (at_progress t0 e s) HR ltac:(intros; simpl; auto).
      apply wp_bind. unfold wp, try_except.
      pose proof (train_batch_progress t0 e s t3 Hh Ht) as Hb1.
      unfold wp in Hb1.
      destruct (train_batch_ t3) as [[[] | x |] t4]; simpl in Hb1 |- *.
      * assert (Hk : s + Z.of_nat (taken max_step s (S (length rest)))
                     = s + 1 + Z.of_nat (taken max_step (s + 1) (length rest))).
        { unfold taken. destruct max_step as [m |].
          - simpl in Hb. apply Z.ltb_lt in Hb.
            replace (Z.to_nat (m - s)) with (S (Z.to_nat (m - (s + 1))))
              by lia.
            simpl Nat.min. lia.
          - lia. }
        change (length (b :: rest)) with (S (length rest)).
        rewrite Hk. apply (IH (s + 1) t4 Hb1).
      * destruct Hb1 as [Hx _]. pose proof Hx as Hx'.
        unfold not_skip in Hx'.
        destruct (is_BreakEpochException x); [discriminate |].
        simpl. exact Hx.
      * exact I.
    + wp_steps.
      assert (Hk : taken max_step s (length (b :: rest)) = 0%nat).
      { unfold taken. destruct max_step as [m |]; [| discriminate].
        simpl in Hb. apply Z.ltb_ge in Hb.
        replace (Z.to_nat (m - s)) with 0%nat by lia.
        apply Nat.min_0_r. }
      rewrite Hk, Z.add_0_r. exact Ht.
Qed.

Lemma epoch_iteration_progress t0 e s max_step t :
  Forall paced (engine_handlers t0) ->
  at_progress t0 e s t ->
  within max_step s ->
  wp (epoch_iteration_ max_step) t (loop_outcome t0 e s max_step (e + 1)).
Proof.
  intros Hh Ht Hw.
  pose proof (at_progress_respected t0 e s Hh) as HR.
  unfold epoch_iteration.
  spine not_skip (at_progress t0 e s) HR ltac:(intros; simpl; auto).
  rename a0 into it. clear t1. rename t2 into t1.
  apply wp_bind.
  eapply wp_conseq;
    [apply (train_batches_progress t0 e max_step _ Hh s t1 Ht) |].
  cbv beta. intros [[] | x |] t2 H2; [| exact H2 | exact I].
  set (s' := s + Z.of_nat (taken max_step s (length (ensure_tuple it))))
    in *.
  assert (Hs' : s <= s' /\ within max_step s').
  { unfold s', taken, within in *. destruct max_step as [m |]; lia. }
  wp_steps.
  destruct (batch_idx (state t2) =? steps_per_epoch (state t2)).
  - eapply wp_conseq; [apply (epoch_end_progress t0 e s' t2 Hh H2) |].
    cbv beta. intros [[] | x |] t3 H3; simpl; [| apply H3 | exact I].
    exists (e + 1), s'.
    split; [apply H3 | split; [right; reflexivity | exact Hs']].
  - wp_steps. exists e, s'.
    split; [exact H2 | split; [left; reflexivity | exact Hs']].
Qed.

Lemma fit_loop_progress t0 max_epoch max_step fuel :
  Forall paced (engine_handlers t0) ->
  forall e s t,
    at_progress t0 e s t ->
    within max_step s ->
    wp (fit_loop_ fuel max_epoch max_step) t
      (fun r t' =>
         match r with
         | Val _ =>
             exists e' s',
               at_progress t0 e' s' t' /\ e <= e' /\ s <= s' /\
               within max_step s' /\ (e <= max_epoch -> e' <= max_epoch) /\
               (e' <? max_epoch) && below s' max_step = false
         | Raise x => not_skip x = true
         | Diverge => True
         end).
Proof.
  intro Hh. induction fuel as [| fuel IH]; intros e s t Ht Hw;
    simpl fit_loop; wp_steps;
    assert (He : epoch (state t) = e) by apply Ht;
    assert (Hs : step (state t) = s) by apply Ht;
    rewrite He, Hs;
    destruct ((e <? max_epoch) && below s max_step) eqn:Hc;
    try (wp_steps; exists e, s; split; [exact Ht |];
         repeat split; auto; lia).
  - exact I.
  - apply wp_bind.
    eapply wp_conseq;
      [apply (epoch_iteration_progress t0 e s max_step t Hh Ht Hw) |].
    cbv beta. intros [[] | x |] t1 H1; [| exact H1 | exact I].
    destruct H1 as [e1 [s1 [H1 [He1 [Hs1 Hw1]]]]].
    eapply wp_conseq; [apply (IH e1 s1 t1 H1 Hw1) |].
    cbv beta. intros [[] | x |] t2 H2; [| exact H2 | exact I].
    destruct H2 as [e2 [s2 [H2 [He2 [Hs2 [Hw2 [Hm2 Hx2]]]]]]].
    apply andb_true_iff in Hc. destruct Hc as [Hc _].
    apply Z.ltb_lt in Hc.
    exists e2, s2. split; [exact H2 |].
    repeat split; auto; lia.
Qed.

(** A call of [fit] that returns has run the loop and the TRAINING_END
    event on an open engine; closing the engine leaves the state alone. *)
Lemma fit_returns fuel num_batches num_epochs t t' :
  fit_ fuel num_batches num_epochs t = (Val tt, t') ->
  exists t1,
    (fit_loop_ fuel
       (match num_epochs with
        | Some n => epoch (state t) + n
        | None => max_epochs (state t)
        end)
       (match num_batches with
        | Some n => Some (step (state t) + n)
        | None => None
        end) ;;
     run_event TRAINING_END) t = (Val tt, t1) /\
    state t' = state t1 /\
    engine_closed t = false.
Proof.
  intro E.
  destruct (engine_closed t) eqn:Hopen;
    [rewrite (fit_closed _ _ _ _ _ _ _ _ _ Hopen) in E; discriminate |].
  destruct (is_some num_batches && is_some num_epochs) eqn:H1;
    [rewrite (fit_rejected _ _ _ _ _ _ _ _ _ Hopen (or_introl H1)) in E;
     discriminate |].
  destruct (negb (batch_idx (state t) =? 0) && is_some num_epochs) eqn:H2;
    [rewrite (fit_rejected _ _ _ _ _ _ _ _ _ Hopen (or_intror H2)) in E;
     discriminate |].
  rewrite (fit_open _ _ _ _ _ _ _ _ _ Hopen H1 H2) in E.
  unfold try_except_else in E.
  destruct ((_ ;; run_event TRAINING_END) t) as [[[] | e1 |] t1].
  - exists t1. split; [reflexivity |]. split; [| reflexivity].
    unfold bind, gets in E.
    destruct (epoch (state t1) =? max_epochs (state t1)).
    + destruct (engine_close_closes t1) as [t2 [E2 [_ Hs2]]].
      rewrite E2 in E. inversion E; subst. exact Hs2.
    + inversion E; subst. reflexivity.
  - destruct (engine_close_closes t1) as [t2 [E2 _]].
    unfold bind in E. rewrite E2 in E. discriminate.
  - discriminate.
Qed.

(** Where the loop of a call of [fit] that returns has stopped. *)
Lemma fit_progress fuel num_batches num_epochs t t' :
  Forall paced (engine_handlers t) ->
  within (match num_batches with
          | Some n => Some (step (state t) + n)
          | None => None
          end) (step (state t)) ->
  fit_ fuel num_batches num_epochs t = (Val tt, t') ->
  let max_epoch := match num_epochs with
                   | Some n => epoch (state t) + n
                   | None => max_epochs (state t)
                   end in
  let max_step := match num_batches with
                  | Some n => Some (step (state t) + n)
                  | None => None
                  end in
  max_epochs (state t') = max_epochs (state t) /\
  epoch (state t) <= epoch (state t') /\
  step (state t) <= step (state t') /\
  within max_step (step (state t')) /\
  (epoch (state t) <= max_epoch -> epoch (state t') <= max_epoch) /\
  (epoch (state t') <? max_epoch) && below (step (state t')) max_step = false.
Proof.
  intros Hh Hw E max_epoch max_step.
  destruct (fit_returns _ _ _ _ _ E) as [t1 [E1 [Hst _]]].
  rewrite Hst.
  fold max_epoch max_step in E1.
  apply bind_val_inv in E1. destruct E1 as [[] [t2 [E2 E3]]].
  assert (Ht : at_progress t (epoch (state t)) (step (state t)) t)
    by (repeat split).
  pose proof (fit_loop_progress t max_epoch max_step fuel Hh _ _ t Ht Hw)
    as H2.
  unfold wp in H2. rewrite E2 in H2. simpl in H2.
  destruct H2 as [e2 [s2 [H2 [He2 [Hs2 [Hw2 [Hm2 Hx2]]]]]]].
  destruct (guarded_run_event _ _ (at_progress_respected t e2 s2 Hh)
              TRAINING_END t2 H2) as [H3 _].
  rewrite E3 in H3. simpl in H3.
  destruct H3 as [_ [_ [H3m [_ [H3e H3s]]]]].
  rewrite H3m, H3e, H3s. auto 10.
Qed.

(** X6.  With handlers that leave the progress counters alone and do not
    raise the epoch-skip signal, a call [fit(num_batches=n)] that returns
    has advanced the step by at most [n], and by exactly [n] unless the
    run has reached [max_epochs]. *)
Theorem fit_trains_num_batches (fuel : nat) (n : Z) (t t' : Trainer) :
  Forall paced (engine_handlers t) ->
  0 <= n ->
  fit_ fuel (Some n) None t = (Val tt, t') ->
  step (state t) <= step (state t') <= step (state t) + n /\
  (epoch (state t') < max_epochs (state t') ->
   step (state t') = step (state t) + n).
Proof.
  intros Hh Hn E.
  destruct (fit_progress fuel (Some n) None t t' Hh ltac:(simpl; lia) E)
    as [Hm [He [Hs [Hw [_ Hx]]]]].
  simpl in Hw, Hx. split; [lia |].
  intro Hlt. rewrite Hm in Hlt. apply Z.ltb_lt in Hlt.
  rewrite Hlt in Hx. simpl in Hx. apply Z.ltb_ge in Hx. lia.
Qed.

(** X7.  With such handlers, a call of [fit] without [num_batches] that
    returns has brought the epoch counter exactly to its bound: to
    [epoch + num_epochs] for [fit(num_epochs=k)], to [max_epochs] for
    [fit()], provided the counter was not beyond the bound already. *)
Theorem fit_trains_num_epochs (fuel : nat) (num_epochs : option Z)
    (t t' : Trainer) :
  Forall paced (engine_handlers t) ->
  fit_ fuel None num_epochs t = (Val tt, t') ->
  let max_epoch := match num_epochs with
                   | Some k => epoch (state t) + k
                   | None => max_epochs (state t)
                   end in
  epoch (state t) <= max_epoch ->
  epoch (state t') = max_epoch.
Proof.
  intros Hh E max_epoch Hle.
  destruct (fit_progress fuel None num_epochs t t' Hh I E)
    as [Hm [He [Hs [Hw [Hb Hx]]]]].
  fold max_epoch in Hb, Hx. simpl in Hx.
  rewrite andb_true_r in Hx. apply Z.ltb_ge in Hx.
  specialize (Hb Hle). lia.
Qed.

End Progress.


Section NoBudget.

Variable module_of : ModuleRef -> ComposerModel.t.
Variable default_batch_split_fn : Batch -> Z -> list Batch.
Variable _train_split_fn : option (Batch -> Z -> list Batch).
Variable _train_device_transformation_fn : option (Batch -> Batch).
Variable _eval_device_transformation_fn : option (Batch -> Batch).

Local Abbreviation fit_ :=
  (fit module_of default_batch_split_fn _train_split_fn
     _train_device_transformation_fn _eval_device_transformation_fn).

(** X3.  A call of [fit] that passes the checks of its arguments and has
    no budget left, because [num_batches] or [num_epochs] is not positive
    or the epoch counter is not below [max_epochs], trains nothing,
    whatever the fuel: no batch is drawn and no epoch starts.  It still
    fires TRAINING_END; if a handler raises there the engine is closed and
    the exception raised again, and otherwise the engine is closed if
    [epoch == max_epochs]. *)
Theorem fit_without_budget_only_ends (fuel : nat)
    (num_batches num_epochs : option Z) (t : Trainer) :
  engine_closed t = false ->
  is_some num_batches && is_some num_epochs = false ->
  negb (batch_idx (state t) =? 0) && is_some num_epochs = false ->
  let max_epoch := match num_epochs with
                   | Some n => epoch (state t) + n
                   | None => max_epochs (state t)
                   end in
  let max_step := match num_batches with
                  | Some n => Some (step (state t) + n)
                  | None => None
                  end in
  (epoch (state t) <? max_epoch) && below (step (state t)) max_step = false ->
  let t1 := set_trace (trace t ++ [ARunEvent TRAINING_END]) t in
  fit_ fuel num_batches num_epochs t =
  match run_handlers (engine_handlers t) TRAINING_END (state t) with
  | (None, s1) =>
      (Val tt,
       if epoch s1 =? max_epochs s1 then closed_after (set_state s1 t1)
       else set_state s1 t1)
  | (Some e, s1) => (Raise e, closed_after (set_state s1 t1))
  end.
Proof.
  intros Hopen H1 H2 max_epoch max_step Hx t1.
  rewrite (fit_open _ _ _ _ _ _ _ _ _ Hopen H1 H2).
  fold max_epoch max_step.
  unfold try_except_else.
  assert (Hloop : forall B (k : unit -> M B),
             bind (fit_loop module_of default_batch_split_fn _train_split_fn
                     _train_device_transformation_fn
                     _eval_device_transformation_fn fuel max_epoch max_step)
               k t = k tt t).
  { intros B k. unfold bind at 1.
    destruct fuel; simpl fit_loop; unfold bind at 1, gets at 1;
      rewrite Hx; reflexivity. }
  rewrite Hloop, (run_event_open TRAINING_END t Hopen).
  cbv zeta. fold t1.
  destruct (run_handlers (engine_handlers t) TRAINING_END (state t))
    as [[e |] s1].
  - unfold engine_close, closed_after, bind, gets, log, modify, raise, ret.
    simpl.
    change (engine_closed (set_state s1 t1)) with (engine_closed t).
    rewrite Hopen. reflexivity.
  - unfold engine_close, closed_after, bind, gets, log, modify, ret. simpl.
    destruct (epoch s1 =? max_epochs s1); [| reflexivity].
    change (engine_closed (set_state s1 t1)) with (engine_closed t).
    rewrite Hopen. reflexivity.
Qed.

End NoBudget.


Lemma events_app tr tr' : events (tr ++ tr') = events tr ++ events tr'.
Proof.
  induction tr as [| a tr IH]; [reflexivity |].
  destruct a; simpl; rewrite IH; reflexivity.
Qed.

Lemma validated_app tr tr' :
  validated (tr ++ tr') = validated tr ++ validated tr'.
Proof.
  induction tr as [| a tr IH]; [reflexivity |].
  destruct a; simpl; rewrite IH; reflexivity.
Qed.

Lemma run_handlers_keeps_eval_data hs :
  Forall keeps_eval_data hs ->
  forall ev s,
    batch (snd (run_handlers hs ev s)) = batch s /\
    eval_dataloader (snd (run_handlers hs ev s)) = eval_dataloader s.
Proof.
  induction 1 as [| h hs Hh _ IH]; intros ev s; simpl; [auto |].
  destruct (Hh ev s) as [Hb Hd].
  destruct (h ev s) as [[e |] s1]; simpl in *; [auto |].
  rewrite <- Hb, <- Hd. apply IH.
Qed.

Lemma handlers_stable hs : Stable (fun t => engine_handlers t = hs).
Proof. split; intros; assumption. Qed.

(** One event whose handlers leave the batch and the evaluation data. *)
Ltac event_data :=
  enter_bind;
  apply wp_run_event_any;
  [ intros _; not_val
  | let o := fresh "o" in
    let s := fresh "s" in
    let E := fresh "E" in
    let H := fresh "H" in
    intros _ o s E; proj_simpl_in E;
    match type of E with
    | run_handlers ?hs ?ev ?s0 = _ =>
        assert (H : Forall keeps_eval_data hs ->
                    batch s = batch s0 /\
                    eval_dataloader s = eval_dataloader s0)
          by (let Hh := fresh in
              intro Hh;
              pose proof (run_handlers_keeps_eval_data hs Hh ev s0) as H;
              rewrite E in H; exact H);
        proj_simpl_in H; clear E
    end;
    destruct o; [not_val |]; proj_simpl ].

Section EvalTrace.

Variable module_of : ModuleRef -> ComposerModel.t.
Variable _eval_device_transformation_fn : option (Batch -> Batch).

Local Abbreviation eval_ := (eval module_of _eval_device_transformation_fn).
Local Abbreviation eval_batch_ :=
  (eval_batch module_of _eval_device_transformation_fn).
Local Abbreviation eval_body_ :=
  (eval_body module_of _eval_device_transformation_fn).
Local Abbreviation tf := (transformed _eval_device_transformation_fn).

Lemma eval_batch_trace b t t' :
  eval_batch_ b t = (Val tt, t') ->
  events (trace t') = events (trace t) ++ eval_batch_events /\
  length (validated (trace t')) = S (length (validated (trace t))) /\
  (Forall keeps_eval_data (engine_handlers t) ->
   validated (trace t') = validated (trace t) ++ [tf b]).
Proof.
  intro E.
  refine (wp_inv _ t (Val tt) t'
            (fun r t' =>
               r = Val tt ->
               events (trace t') = events (trace t) ++ eval_batch_events /\
               length (validated (trace t')) = S (length (validated (trace t))) /\
               (Forall keeps_eval_data (engine_handlers t) ->
                validated (trace t') = validated (trace t) ++ [tf b]))
            _ E eq_refl).
  clear E t'.
  unfold eval_batch, draw. wp_steps.
  apply wp_transform. cbv beta.
  set (t1 := match _eval_device_transformation_fn with
             | None => _
             | Some g => _
             end).
  assert (H1 : trace t1 = trace t ++ [ANext b] /\
               engine_handlers t1 = engine_handlers t /\
               batch (state t1) = tf b).
  { unfold t1, transformed.
    destruct _eval_device_transformation_fn; simpl; auto. }
  clearbody t1. destruct H1 as [Htr1 [Hh1 Hb1]].
  event_data. event_data. wp_steps.
  destruct (ComposerModel.validate _ _) as [[o tg] |]; wp_steps;
    [| not_val].
  event_data. wp_steps. event_data.
  intros _. rewrite Htr1, Hh1 in *.
  repeat rewrite ?events_app, ?validated_app, ?length_app. simpl.
  rewrite !app_nil_r, <- !app_assoc. simpl.
  split; [reflexivity |]. split; [lia |].
  intro Hk. destruct (H Hk) as [Hb _]. destruct (H0 Hk) as [Hb' _].
  rewrite Hb', Hb, Hb1. reflexivity.
Qed.

Lemma eval_batches_trace bs : forall t t',
  for_each bs eval_batch_ t = (Val tt, t') ->
  events (trace t')
  = events (trace t) ++ concat (map (fun _ => eval_batch_events) bs) /\
  length (validated (trace t'))
  = (length (validated (trace t)) + length bs)%nat /\
  (Forall keeps_eval_data (engine_handlers t) ->
   validated (trace t') = validated (trace t) ++ map tf bs).
Proof.
  induction bs as [| b bs IH]; intros t t' E.
  - simpl in E. inversion E; subst. simpl.
    rewrite !app_nil_r, Nat.add_0_r. auto.
  - simpl in E. apply bind_val_inv in E. destruct E as [[] [t1 [E1 E2]]].
    destruct (eval_batch_trace b t t1 E1) as [He1 [Hl1 Hv1]].
    destruct (IH t1 t' E2) as [He2 [Hl2 Hv2]].
    assert (Hh : engine_handlers t1 = engine_handlers t).
    { exact (pres_apply _ _ _ _ _
               (pres_eval_batch module_of _eval_device_transformation_fn _
                  (handlers_stable (engine_handlers t)) b)
               eq_refl E1). }
    rewrite He2, He1, Hl2, Hl1. simpl.
    rewrite <- !app_assoc. split; [reflexivity |]. split; [lia |].
    intro Hk. rewrite Hh in Hv2. rewrite (Hv2 Hk), (Hv1 Hk).
    rewrite <- app_assoc. reflexivity.
Qed.

(** The trace of the block of [eval] under [no_grad]. *)
Lemma eval_body_trace is_batch t t' :
  eval_body_ is_batch t = (Val tt, t') ->
  exists bs,
    events (trace t')
    = events (trace t)
      ++ EVAL_START :: concat (map (fun _ => eval_batch_events) bs)
      ++ [EVAL_END] /\
    length (validated (trace t'))
    = (length (validated (trace t)) + length bs)%nat /\
    (Forall keeps_eval_data (engine_handlers t) ->
     bs = subset (_eval_subset_num_batches t) (eval_dataloader (state t)) /\
     validated (trace t') = validated (trace t) ++ map tf bs) /\
    match _eval_subset_num_batches t with
    | Some n => 0 <= n /\ Z.of_nat (length bs) <= n
    | None => True
    end.
Proof.
  intro E.
  refine (wp_inv _ t (Val tt) t'
            (fun r t' =>
               r = Val tt ->
               exists bs,
                 events (trace t')
                 = events (trace t)
                   ++ EVAL_START
                   :: concat (map (fun _ => eval_batch_events) bs)
                   ++ [EVAL_END] /\
                 length (validated (trace t'))
                 = (length (validated (trace t)) + length bs)%nat /\
                 (Forall keeps_eval_data (engine_handlers t) ->
                  bs = subset (_eval_subset_num_batches t)
                         (eval_dataloader (state t)) /\
                  validated (trace t') = validated (trace t) ++ map tf bs) /\
                 match _eval_subset_num_batches t with
                 | Some n => 0 <= n /\ Z.of_nat (length bs) <= n
                 | None => True
                 end)
            _ E eq_refl).
  clear E t'.
  unfold eval_body, _get_metrics_as_collection, _compute_and_log_metrics.
  event_data. wp_steps.
  destruct (ComposerModel.metrics _ _) as [ms |]; wp_steps; [| not_val].
  set (bs := subset (_eval_subset_num_batches t) (eval_dataloader s)).
  assert (Hn : (match _eval_subset_num_batches t with
                | Some n => n <? 0
                | None => false
                end) = false ->
               islice (eval_dataloader s) (_eval_subset_num_batches t)
               = ret bs).
  { unfold islice, bs, subset.
    destruct (_eval_subset_num_batches t) as [n |]; [| reflexivity].
    intro Hn. rewrite Hn. reflexivity. }
  destruct (match _eval_subset_num_batches t with
            | Some n => n <? 0
            | None => false
            end) eqn:Hneg.
  { unfold islice. destruct (_eval_subset_num_batches t) as [n |];
      [| discriminate].
    rewrite Hneg. wp_steps. not_val. }
  rewrite (Hn eq_refl). clear Hn. wp_steps.
  set (t1 := set_state s (set_trace (trace t ++ [ARunEvent EVAL_START]) t)).
  unfold wp at 1.
  destruct (for_each bs eval_batch_ t1) as [[[] | e |] t2] eqn:E2;
    simpl; [| not_val | not_val].
  destruct (eval_batches_trace bs t1 t2 E2) as [He2 [Hl2 Hv2]].
  wp_steps.
  assert (Hh2 : engine_handlers t2 = engine_handlers t).
  { exact (pres_apply (fun x => engine_handlers x = engine_handlers t)
             _ t1 _ _
             (pres_for_each _ bs eval_batch_
                (pres_eval_batch module_of _eval_device_transformation_fn _
                   (handlers_stable (engine_handlers t))))
             eq_refl E2). }
  event_data.
  intros _. exists bs.
  repeat rewrite ?events_app, ?validated_app, ?length_app. simpl.
  rewrite He2, Hl2. unfold t1 at 1 2. simpl.
  repeat rewrite ?events_app, ?validated_app, ?length_app, ?app_nil_r,
    ?Nat.add_0_r.
  simpl. rewrite ?app_nil_r, ?Nat.add_0_r, <- ?app_assoc. simpl.
  split; [reflexivity |]. split; [reflexivity |].
  split.
  - intro Hk. destruct (H Hk) as [_ Hd].
    split; [unfold bs; rewrite Hd; reflexivity |].
    rewrite (Hv2 Hk). unfold t1. simpl.
    rewrite validated_app, app_nil_r. reflexivity.
  - unfold bs, subset.
    destruct (_eval_subset_num_batches t) as [n |]; [| exact I].
    apply Z.ltb_ge in Hneg. split; [exact Hneg |].
    pose proof (firstn_le_length (Z.to_nat n) (eval_dataloader s)). lia.
Qed.

Lemma map_const_repeat {A B} (x : B) (l : list A) :
  map (fun _ => x) l = repeat x (length l).
Proof. induction l as [| a l IH]; simpl; [| rewrite IH]; reflexivity. Qed.

(** What [eval] adds to the trace is what its block adds. *)
Lemma eval_trace_inv is_batch t t' :
  eval_ is_batch t = (Val tt, t') ->
  exists t2 new,
    eval_body_ is_batch
      (set_grad_enabled false
         (set_state (set_mode (model (state t)) false (state t)) t))
    = (Val tt, t2) /\
    trace t2 = trace t ++ new /\ trace t' = trace t ++ new.
Proof.
  intro E.
  destruct (eval_inv module_of _eval_device_transformation_fn is_batch t t' E)
    as [t2 [E2 Ht']].
  pose proof (pres_apply (extends (trace t)) _ _ _ _
                (pres_eval module_of _eval_device_transformation_fn _
                   (extends_stable (trace t)) is_batch)
                (ex_intro _ [] (eq_sym (app_nil_r _))) E) as [new Hnew].
  exists t2, new. split; [exact E2 |]. split; [| exact Hnew].
  rewrite <- Hnew. rewrite Ht'.
  destruct (training (state t) (model (state t))); reflexivity.
Qed.

(** X8.  When the handlers leave the batch and the evaluation data of
    the state alone, a call of [eval] that returns has passed to
    [validate] exactly the first [eval_subset_num_batches] batches of the
    evaluation data, every batch when no bound is set, in order and after
    the device transformation. *)
Theorem eval_validates_subset (is_batch : bool) (t t' : Trainer) :
  Forall keeps_eval_data (engine_handlers t) ->
  eval_ is_batch t = (Val tt, t') ->
  exists new,
    trace t' = trace t ++ new /\
    validated new
    = map tf (subset (_eval_subset_num_batches t)
                (eval_dataloader (state t))).
Proof.
  intros Hk E.
  destruct (eval_trace_inv is_batch t t' E) as [t2 [new [E2 [H2 Hnew]]]].
  exists new. split; [exact Hnew |].
  destruct (eval_body_trace is_batch _ t2 E2) as [bs [_ [_ [Hv _]]]].
  destruct (Hv Hk) as [Hbs Hval]. simpl in Hbs, Hval.
  rewrite H2, validated_app in Hval. apply app_inv_head in Hval.
  rewrite Hval, Hbs. reflexivity.
Qed.

(** X9.  Whatever the handlers do, a call of [eval] that returns has
    fired EVAL_START, then for each of its [k] batches EVAL_BATCH_START,
    EVAL_BEFORE_FORWARD, EVAL_AFTER_FORWARD and EVAL_BATCH_END in this
    order, then EVAL_END, and has called [validate] once per batch; [k] is
    at most [eval_subset_num_batches], which is not negative. *)
Theorem eval_event_order (is_batch : bool) (t t' : Trainer) :
  eval_ is_batch t = (Val tt, t') ->
  exists new k,
    trace t' = trace t ++ new /\
    events new
    = EVAL_START :: concat (repeat eval_batch_events k) ++ [EVAL_END] /\
    length (validated new) = k /\
    match _eval_subset_num_batches t with
    | Some n => 0 <= n /\ Z.of_nat k <= n
    | None => True
    end.
Proof.
  intro E.
  destruct (eval_trace_inv is_batch t t' E) as [t2 [new [E2 [H2 Hnew]]]].
  destruct (eval_body_trace is_batch _ t2 E2) as [bs [He [Hl [_ Hn]]]].
  simpl in He, Hl, Hn.
  exists new, (length bs). split; [exact Hnew |].
  rewrite H2 in He, Hl.
  rewrite events_app in He. apply app_inv_head in He.
  rewrite validated_app, length_app in Hl.
  split; [rewrite He, map_const_repeat; reflexivity |].
  split; [lia | exact Hn].
Qed.

(** X10.  When an exception escapes [eval], the gradient mode of the
    caller is back in place, since [torch.no_grad()] is a context manager,
    but the model is not switched back: if the handlers leave its mode
    alone it is left in eval mode, even if it was in training mode when
    [eval] was called. *)
Theorem eval_failure_leaves_eval_mode (is_batch : bool) (t : Trainer)
    (e : exn) (t' : Trainer) :
  eval_ is_batch t = (Raise e, t') ->
  grad_enabled t' = grad_enabled t /\
  (Forall (keeps_mode (model (state t))) (engine_handlers t) ->
   training (state t') (model (state t)) = false).
Proof.
  intro E. unfold eval in E.
  set (m := model (state t)) in *.
  set (t1 := set_grad_enabled false (set_state (set_mode m false (state t)) t)).
  assert (E' : exists t2,
             eval_body_ is_batch t1 = (Raise e, t2) /\
             t' = set_grad_enabled (grad_enabled t) t2).
  { unfold bind, gets, modify_state, modify, no_grad in E. simpl in E.
    fold m in E. fold t1 in E.
    destruct (eval_body_ is_batch t1) as [[[] | e1 |] t2].
    - destruct (training (state t) m); discriminate.
    - inversion E; subst. eauto.
    - discriminate. }
  destruct E' as [t2 [E2 Ht']]. subst t'.
  split; [reflexivity |].
  intro Hh.
  assert (H2 : mode_is (engine_handlers t) m false t2).
  { eapply (pres_apply _ _ _ _ _
              (pres_eval_body_mode module_of _eval_device_transformation_fn
                 (engine_handlers t) m is_batch Hh)); [| exact E2].
    split; [reflexivity |]. simpl. rewrite Nat.eqb_refl. reflexivity. }
  apply H2.
Qed.

End EvalTrace.

(** ** Witnesses of the further properties *)

Lemma quiet_paced : Forall paced [Example.quiet].
Proof.
  constructor; [| constructor]. intros ev s. simpl.
  repeat split; auto. discriminate.
Qed.

Lemma fit_failure_closes_engine_witness :
  let t := Example.built (Example.with_precision AMP Example.args) in
  let r := fit Example.modules Example.halves None None None 1 None None t in
  fst r = Raise RuntimeError /\ engine_closed (snd r) = true.
Proof.
  intros t r.
  assert (E : fit Example.modules Example.halves None None None 1 None None t
              = (Raise RuntimeError, snd r)) by (vm_compute; reflexivity).
  split; [vm_compute; reflexivity |].
  destruct (fit_failure_closes_engine Example.modules Example.halves None None
              None 1 None None t RuntimeError (snd r)
              ltac:(vm_compute; reflexivity) E) as [[H _] | [H _]];
    [discriminate | exact H].
Defined.

Lemma fit_closes_engine_at_max_epochs_witness :
  engine_closed Example.finished = true.
Proof.
  destruct (fit_closes_engine_at_max_epochs Example.modules Example.halves
              None None None 3 None None (Example.built Example.args)
              Example.finished ltac:(vm_compute; reflexivity)) as [[_ H] _].
  apply H. vm_compute. reflexivity.
Defined.

Lemma fit_without_budget_only_ends_witness :
  let t := Example.built Example.args in
  fit Example.modules Example.halves None None None 0 (Some 0) None t
  = (Val tt, set_state (state t)
               (set_trace (trace t ++ [ARunEvent TRAINING_END]) t)).
Proof.
  intro t.
  rewrite (fit_without_budget_only_ends Example.modules Example.halves None
             None None 0 (Some 0) None t);
    vm_compute; reflexivity.
Defined.

Lemma train_batch_counts_one_step_witness :
  (let t := set_state (set_batch [1; 2; 3; 4]%nat
                         (state (Example.built Example.args)))
              (Example.built Example.args) in
   step (state (snd (_train_batch Example.modules Example.halves None None
                       None t)))
   = step (state t) + 1) /\
  (let a := Example.with_failing_checkpoints UnitBatch Example.args in
   let t := set_state (set_batch [1; 2; 3; 4]%nat (state (Example.built a)))
              (Example.built a) in
   let r := _train_batch Example.modules Example.halves None None None t in
   fst r = Raise OSError /\
   step (state (snd r)) = step (state t) + 1 /\
   failed_at_save BATCH_END (snd r)).
Proof.
  split.
  - intro t.
    assert (He : engine_handlers t = [Example.quiet])
      by (vm_compute; reflexivity).
    destruct (train_batch_counts_one_step Example.modules Example.halves None
                None None t) as [H _].
    + rewrite He. exact quiet_paced.
    + apply (H (snd (_train_batch Example.modules Example.halves None None
                       None t))).
      vm_compute. reflexivity.
  - intros a t r.
    assert (He : engine_handlers t = [Example.quiet])
      by (vm_compute; reflexivity).
    assert (Er : _train_batch Example.modules Example.halves None None None t
                 = (Raise OSError, snd r)) by (vm_compute; reflexivity).
    split; [vm_compute; reflexivity |].
    destruct (train_batch_counts_one_step Example.modules Example.halves None
                None None t) as [_ H].
    + rewrite He. exact quiet_paced.
    + destruct (H OSError (snd r) Er) as [_ [_ [Hs | [Hs [_ Hsave]]]]].
      * vm_compute in Hs. discriminate Hs.
      * split; [exact Hs | exact Hsave].
Defined.

Lemma epoch_end_advances_epoch_witness :
  (let t := Example.built Example.args in
   let t' := snd (_epoch_end Example.modules None t) in
   epoch (state t') = epoch (state t) + 1 /\
   step (state t') = step (state t) /\
   _train_dataloader_iterator t' = None) /\
  (let t := Example.built
              (Example.with_failing_checkpoints UnitEpoch Example.args) in
   let r := _epoch_end Example.modules None t in
   fst r = Raise OSError /\
   epoch (state (snd r)) = epoch (state t) + 1 /\
   failed_at_save EPOCH_END (snd r)).
Proof.
  split.
  - intros t t'.
    assert (He : engine_handlers t = [Example.quiet])
      by (vm_compute; reflexivity).
    destruct (epoch_end_advances_epoch Example.modules None t) as [H _].
    + rewrite He. exact quiet_paced.
    + apply (H t'). vm_compute. reflexivity.
  - intros t r.
    assert (He : engine_handlers t = [Example.quiet])
      by (vm_compute; reflexivity).
    assert (Er : _epoch_end Example.modules None t = (Raise OSError, snd r))
      by (vm_compute; reflexivity).
    split; [vm_compute; reflexivity |].
    destruct (epoch_end_advances_epoch Example.modules None t) as [_ H].
    + rewrite He. exact quiet_paced.
    + destruct (H OSError (snd r) Er) as [_ [_ [Hs | [Hs [_ Hsave]]]]].
      * vm_compute in Hs. discriminate Hs.
      * split; [exact Hs | exact Hsave].
Defined.

Lemma fit_trains_num_batches_witness :
  let t := Example.built Example.args in
  let t' := snd (fit Example.modules Example.halves None None None 1 (Some 3)
                   None t) in
  step (state t') = step (state t) + 3.
Proof.
  intros t t'.
  assert (He : engine_handlers t = [Example.quiet])
    by (vm_compute; reflexivity).
  destruct (fit_trains_num_batches Example.modules Example.halves None None
              None 1 3 t t') as [_ H].
  - rewrite He. exact quiet_paced.
  - lia.
  - vm_compute. reflexivity.
  - apply H. vm_compute. reflexivity.
Defined.

Lemma fit_trains_num_epochs_witness :
  let t := Example.built Example.args in
  let t' := snd (fit Example.modules Example.halves None None None 2 None
                   (Some 1) t) in
  epoch (state t') = epoch (state t) + 1.
Proof.
  intros t t'.
  assert (He : engine_handlers t = [Example.quiet])
    by (vm_compute; reflexivity).
  apply (fit_trains_num_epochs Example.modules Example.halves None None None
           2 (Some 1) t t').
  - rewrite He. exact quiet_paced.
  - vm_compute. reflexivity.
  - lia.
Defined.

Lemma quiet_keeps_eval_data : Forall keeps_eval_data [Example.quiet].
Proof. constructor; [| constructor]. intros ev s. simpl. auto. Qed.

Lemma eval_validates_subset_witness :
  let t := Example.built Example.args in
  exists new,
    trace (snd (eval Example.modules None false t)) = trace t ++ new /\
    validated new = Example.batches 2.
Proof.
  intro t.
  assert (He : engine_handlers t = [Example.quiet])
    by (vm_compute; reflexivity).
  destruct (eval_validates_subset Example.modules None false t
              (snd (eval Example.modules None false t)))
    as [new [H1 H2]].
  - rewrite He. exact quiet_keeps_eval_data.
  - vm_compute. reflexivity.
  - exists new. split; [exact H1 |]. rewrite H2. vm_compute. reflexivity.
Defined.

Lemma eval_event_order_witness :
  let t := Example.built Example.args in
  exists new k,
    trace (snd (eval Example.modules None false t)) = trace t ++ new /\
    events new
    = EVAL_START :: concat (repeat eval_batch_events k) ++ [EVAL_END] /\
    length (validated new) = k.
Proof.
  intro t.
  destruct (eval_event_order Example.modules None false t
              (snd (eval Example.modules None false t)))
    as [new [k [H1 [H2 [H3 _]]]]].
  - vm_compute. reflexivity.
  - exists new, k. auto.
Defined.

Lemma eval_failure_leaves_eval_mode_witness :
  let r := eval Example.modules None false Example.finished in
  training (state Example.finished) 0%nat = true /\
  fst r = Raise RuntimeError /\
  training (state (snd r)) 0%nat = false.
Proof.
  intro r.
  split; [vm_compute; reflexivity |].
  split; [vm_compute; reflexivity |].
  assert (Hm : model (state Example.finished) = 0%nat)
    by (vm_compute; reflexivity).
  assert (He : engine_handlers Example.finished = [Example.quiet])
    by (vm_compute; reflexivity).
  destruct (eval_failure_leaves_eval_mode Example.modules None false
              Example.finished RuntimeError (snd r)) as [_ H].
  - vm_compute. reflexivity.
  - rewrite Hm, He in H. apply H.
    constructor; [| constructor]. intros ev s. reflexivity.
Defined.

(** * Further properties of the trainer *)

Lemma phases_app tr tr' : phases (tr ++ tr') = phases tr ++ phases tr'.
Proof.
  induction tr as [| a tr IH]; [reflexivity |].
  destruct a; simpl; rewrite IH; reflexivity.
Qed.

Lemma phases_backward cg ls :
  phases (map (fun l => ABackward l cg) ls) = repeat PBackward (length ls).
Proof. induction ls as [| l ls IH]; simpl; [| rewrite IH]; reflexivity. Qed.

Lemma events_backward cg ls : events (map (fun l => ABackward l cg) ls) = [].
Proof. induction ls as [| l ls IH]; simpl; auto. Qed.

(** The loop over the components of the loss logs one backward pass for
    each. *)
Lemma backward_all_trace cg ls : forall t,
  exists t2,
    for_each ls (backward cg) t = (Val tt, t2) /\
    trace t2 = trace t ++ map (fun l => ABackward l cg) ls.
Proof.
  induction ls as [| l ls IH]; intro t.
  - exists t. simpl. rewrite app_nil_r. auto.
  - destruct (IH (set_state (set_grads (grads (state t) ++ [l]) (state t))
                    (set_trace (trace t ++ [ABackward l cg]) t)))
      as [t2 [E Htr]].
    exists t2. split.
    + simpl for_each.
      etransitivity; [eapply bind_val; reflexivity | exact E].
    + rewrite Htr. simpl. rewrite <- app_assoc. reflexivity.
Qed.

(** A loop that only logs. *)
Lemma log_all_trace {A} (f : A -> Action) (l : list A) : forall t,
  exists t2,
    for_each l (fun x => log (f x)) t = (Val tt, t2) /\
    trace t2 = trace t ++ map f l.
Proof.
  induction l as [| x l IH]; intro t.
  - exists t. simpl. rewrite app_nil_r. auto.
  - destruct (IH (set_trace (trace t ++ [f x]) t)) as [t2 [E Htr]].
    exists t2. split.
    + simpl for_each.
      etransitivity; [eapply bind_val; reflexivity | exact E].
    + rewrite Htr. simpl. rewrite <- app_assoc. reflexivity.
Qed.

Lemma phases_silent {A} (f : A -> Action) (l : list A) :
  (forall x, phases [f x] = []) -> phases (map f l) = [].
Proof.
  intro H. induction l as [| x l IH]; [reflexivity |].
  change (map f (x :: l)) with ([f x] ++ map f l).
  rewrite phases_app, H, IH. reflexivity.
Qed.

Lemma events_silent {A} (f : A -> Action) (l : list A) :
  (forall x, events [f x] = []) -> events (map f l) = [].
Proof.
  intro H. induction l as [| x l IH]; [reflexivity |].
  change (map f (x :: l)) with ([f x] ++ map f l).
  rewrite events_app, H, IH. reflexivity.
Qed.

(** One event, whatever its handlers do to the state. *)
Ltac event_free :=
  enter_bind;
  apply wp_run_event_any;
  [ intros _; not_val
  | let o := fresh "o" in
    let s := fresh "s" in
    intros _ o s _; destruct o; [not_val |]; proj_simpl ].

Section MicrobatchOrder.

Variable module_of : ModuleRef -> ComposerModel.t.

Local Abbreviation train_microbatch_ := (train_microbatch module_of).
Local Abbreviation train_microbatches_ := (train_microbatches module_of).
Local Abbreviation inner_ := (_train_batch_inner module_of).

Lemma wp_scale_and_accumulate_trace a b tot t
    (Q : Result Q -> Trainer -> Prop) :
  (forall tot' t', trace t' = trace t -> Q (Val tot') t') ->
  (forall e t', Q (Raise e) t') ->
  wp (scale_and_accumulate a b tot) t Q.
Proof.
  intros Hv Hr. unfold scale_and_accumulate. wp_steps.
  destruct (loss (state t)); wp_steps; [apply Hv; reflexivity |].
  destruct (b =? 0); wp_steps; [apply Hr | apply Hv; reflexivity].
Qed.

Lemma wp_scale_loss_trace t (Q : Result unit -> Trainer -> Prop) :
  (forall t', trace t' = trace t -> Q (Val tt) t') ->
  (forall e t', Q (Raise e) t') ->
  wp scale_loss t Q.
Proof.
  intros Hv Hr. unfold scale_loss. wp_steps.
  destruct (scaler (state t)); wp_steps; [apply Hv; reflexivity | apply Hr].
Qed.

Lemma train_microbatch_order ugs cbs fin mb tot t tot' t' :
  train_microbatch_ ugs cbs fin mb tot t = (Val tot', t') ->
  exists n,
    phases (trace t') = phases (trace t) ++ microbatch_phases n /\
    events (trace t') = events (trace t) ++ microbatch_events.
Proof.
  intro E.
  refine (wp_inv _ t (Val tot') t'
            (fun r t' =>
               forall x, r = Val x ->
               exists n,
                 phases (trace t') = phases (trace t) ++ microbatch_phases n /\
                 events (trace t') = events (trace t) ++ microbatch_events)
            _ E tot' eq_refl).
  clear E tot' t'.
  unfold train_microbatch. wp_steps.
  destruct (deepspeed_enabled t) eqn:Hds; wp_steps.
  - event_free. wp_steps. event_free. event_free. wp_steps.
    event_free. event_free.
    apply wp_bind.
    assert (Hscale : forall t0 (Q0 : Result unit -> Trainer -> Prop),
               (forall t1, trace t1 = trace t0 -> Q0 (Val tt) t1) ->
               (forall e t1, Q0 (Raise e) t1) ->
               wp (if ugs then scale_loss else ret tt) t0 Q0).
    { intros t0 Q0 Hv Hr. destruct ugs.
      - apply wp_scale_loss_trace; assumption.
      - apply wp_ret, Hv. reflexivity. }
    apply Hscale; [| intros; not_val].
    intros t1 H1. proj_simpl_in H1. wp_steps.
    apply wp_scale_and_accumulate_trace; [| intros; not_val].
    intros tot1 t2 H2. proj_simpl_in H2. cbv beta iota.
    event_free. wp_steps.
    intros x _. exists 1%nat.
    rewrite H2, H1.
    repeat rewrite ?phases_app, ?events_app. simpl.
    rewrite ?app_nil_r, <- ?app_assoc. simpl. split; reflexivity.
  - event_free. wp_steps. event_free. event_free. wp_steps.
    apply wp_scale_and_accumulate_trace; [| intros; not_val].
    intros tot1 t1 H1. proj_simpl_in H1. cbv beta iota.
    event_free. event_free.
    apply wp_bind.
    assert (Hscale : forall t0 (Q0 : Result unit -> Trainer -> Prop),
               (forall t1, trace t1 = trace t0 -> Q0 (Val tt) t1) ->
               (forall e t1, Q0 (Raise e) t1) ->
               wp (if ugs then scale_loss else ret tt) t0 Q0).
    { intros t0 Q0 Hv Hr. destruct ugs.
      - apply wp_scale_loss_trace; assumption.
      - apply wp_ret, Hv. reflexivity. }
    apply Hscale; [| intros; not_val].
    intros t2 H2. proj_simpl_in H2. wp_steps.
    match goal with
    | |- wp (for_each ?ls (backward ?cg)) ?t0 _ =>
        destruct (backward_all_trace cg ls t0) as [t3 [E3 H3]];
        eapply wp_eq; [exact E3 |]
    end.
    cbv beta iota. wp_steps. event_free. wp_steps.
    intros x _. exists (length (loss (state t2))).
    rewrite H3, H2, H1.
    repeat rewrite ?phases_app, ?events_app. simpl.
    rewrite phases_backward, events_backward.
    rewrite ?app_nil_r, <- ?app_assoc. simpl. split; reflexivity.
Qed.

Lemma train_microbatches_order ugs cbs mbs : forall tot t tot' t',
  train_microbatches_ ugs cbs mbs tot t = (Val tot', t') ->
  exists ns,
    length ns = length mbs /\
    phases (trace t')
    = phases (trace t) ++ concat (map microbatch_phases ns) /\
    events (trace t')
    = events (trace t) ++ concat (map (fun _ => microbatch_events) mbs).
Proof.
  induction mbs as [| mb rest IH]; intros tot t tot' t' E.
  - simpl in E. inversion E; subst. exists []. simpl.
    rewrite !app_nil_r. auto.
  - simpl in E. apply bind_val_inv in E. destruct E as [tot1 [t1 [E1 E2]]].
    destruct (train_microbatch_order _ _ _ _ _ _ _ _ E1) as [n [Hp1 He1]].
    destruct (IH _ _ _ _ E2) as [ns [Hl [Hp2 He2]]].
    exists (n :: ns). split; [simpl; rewrite Hl; reflexivity |].
    rewrite Hp2, Hp1, He2, He1. cbn [map concat].
    rewrite <- !app_assoc. split; reflexivity.
Qed.

(** The trace of lines 944-1020. *)
Lemma after_zero_grad_order ugs ds mbs t total t' :
  after_zero_grad module_of ugs ds mbs t = (Val total, t') ->
  exists ns,
    length ns = length mbs /\
    phases (trace t')
    = phases (trace t) ++ concat (map microbatch_phases ns)
      ++ [PEvent AFTER_TRAIN_BATCH] /\
    events (trace t')
    = events (trace t) ++ concat (map (fun _ => microbatch_events) mbs)
      ++ [AFTER_TRAIN_BATCH].
Proof.
  intro E. unfold after_zero_grad in E.
  apply bind_val_inv in E. destruct E as [tot1 [t1 [E1 E2]]].
  destruct (train_microbatches_order _ _ _ _ _ _ _ E1) as [ns [Hl [Hp He]]].
  exists ns. split; [exact Hl |].
  refine (wp_inv _ t1 (Val total) t'
            (fun r t' =>
               forall x, r = Val x ->
               phases (trace t')
               = phases (trace t) ++ concat (map microbatch_phases ns)
                 ++ [PEvent AFTER_TRAIN_BATCH] /\
               events (trace t')
               = events (trace t)
                 ++ concat (map (fun _ => microbatch_events) mbs)
                 ++ [AFTER_TRAIN_BATCH])
            _ E2 total eq_refl).
  clear E2 E1.
  apply wp_bind.
  assert (Hun : exists t2,
             (if ugs
              then st <- gets state ;;
                   for_each (ensure_tuple (optimizers st))
                     (fun o => log (AUnscale o))
              else ret tt) t1 = (Val tt, t2) /\
             phases (trace t2) = phases (trace t1) /\
             events (trace t2) = events (trace t1)).
  { destruct ugs; [| exists t1; auto].
    destruct (log_all_trace AUnscale
                (ensure_tuple (optimizers (state t1))) t1) as [t2 [E2 H2]].
    exists t2. split; [exact E2 |].
    rewrite H2, phases_app, events_app.
    rewrite (phases_silent AUnscale), (events_silent AUnscale), !app_nil_r;
      auto. }
  destruct Hun as [t2 [E2 [Hp2 He2]]].
  eapply wp_eq; [exact E2 |]. cbv beta iota. wp_steps.
  assert (Hclip : exists t3,
             (if negb ds
              then match _grad_clip_norm t2 with
                   | Some max_norm => log (AClipGradNorm max_norm)
                   | None => ret tt
                   end
              else ret tt) t2 = (Val tt, t3) /\
             phases (trace t3) = phases (trace t2) /\
             events (trace t3) = events (trace t2)).
  { destruct (negb ds); [| exists t2; auto].
    destruct (_grad_clip_norm t2); [| exists t2; auto].
    eexists. split; [reflexivity |]. simpl.
    rewrite phases_app, events_app, !app_nil_r. auto. }
  destruct Hclip as [t3 [E3 [Hp3 He3]]].
  eapply wp_eq; [exact E3 |]. cbv beta iota.
  event_free. wp_steps.
  intros x _.
  rewrite phases_app, events_app, Hp3, He3, Hp2, He2, Hp, He.
  simpl. rewrite <- !app_assoc. auto.
Qed.

(** The events and the phases of a batch that completes, whatever the
    handlers do. *)
Lemma train_batch_inner_order (microbatches : list Batch)
    (ddp_sync : bool) (t : Trainer) (total : Q) (t' : Trainer) :
  inner_ microbatches ddp_sync t = (Val total, t') ->
  exists new ns,
    trace t' = trace t ++ new /\
    length ns = length microbatches /\
    phases new
    = PEvent BEFORE_TRAIN_BATCH :: concat (map microbatch_phases ns)
      ++ [PEvent AFTER_TRAIN_BATCH] /\
    events new
    = BEFORE_TRAIN_BATCH
      :: concat (repeat microbatch_events (length microbatches))
      ++ [AFTER_TRAIN_BATCH].
Proof.
  intro E.
  pose proof (pres_apply (extends (trace t)) _ _ _ _
                (pres_train_batch_inner module_of _ (extends_stable (trace t))
                   microbatches ddp_sync)
                (ex_intro _ [] (eq_sym (app_nil_r _))) E) as [new Hnew].
  exists new.
  assert (H : exists ns,
             length ns = length microbatches /\
             phases (trace t')
             = phases (trace t) ++ PEvent BEFORE_TRAIN_BATCH
               :: concat (map microbatch_phases ns)
               ++ [PEvent AFTER_TRAIN_BATCH] /\
             events (trace t')
             = events (trace t) ++ BEFORE_TRAIN_BATCH
               :: concat (map (fun _ => microbatch_events) microbatches)
               ++ [AFTER_TRAIN_BATCH]).
  { refine (wp_inv _ t (Val total) t'
              (fun r t' =>
                 forall x, r = Val x ->
                 exists ns,
                   length ns = length microbatches /\
                   phases (trace t')
                   = phases (trace t) ++ PEvent BEFORE_TRAIN_BATCH
                     :: concat (map microbatch_phases ns)
                     ++ [PEvent AFTER_TRAIN_BATCH] /\
                   events (trace t')
                   = events (trace t) ++ BEFORE_TRAIN_BATCH
                     :: concat (map (fun _ => microbatch_events) microbatches)
                     ++ [AFTER_TRAIN_BATCH])
              _ E total eq_refl).
    clear E Hnew.
    unfold _train_batch_inner.
    event_free. wp_steps.
    destruct (optimizers s) as [os |]; wp_steps; [| not_val].
    destruct (scaler s) as [g |]; wp_steps; [| not_val].
    unfold wp at 1.
    match goal with
    | |- context [_use_grad_scaling ?p ?sc ?t0] =>
        destruct (_use_grad_scaling p sc t0) as [[ugs | e |] t1] eqn:E1
    end; simpl; [| not_val | not_val].
    assert (Ht1 : t1 = set_state s
                         (set_trace (trace t ++ [ARunEvent BEFORE_TRAIN_BATCH])
                            t)).
    { unfold _use_grad_scaling, bind, gets, ret, raise in E1.
      repeat match type of E1 with
             | context [if ?b then _ else _] => destruct b
             end; inversion E1; reflexivity. }
    subst t1. wp_steps.
    assert (Hz : exists t2,
               (if negb (deepspeed_enabled t)
                then for_each os zero_grad
                else ret tt)
                 (set_state s
                    (set_trace (trace t ++ [ARunEvent BEFORE_TRAIN_BATCH]) t))
               = (Val tt, t2) /\
               phases (trace t2)
               = phases (trace t) ++ [PEvent BEFORE_TRAIN_BATCH] /\
               events (trace t2) = events (trace t) ++ [BEFORE_TRAIN_BATCH]).
    { destruct (negb (deepspeed_enabled t)).
      - destruct (zero_grads_spec os
                    (set_state s
                       (set_trace (trace t ++ [ARunEvent BEFORE_TRAIN_BATCH])
                          t))) as [t2 [E2 [H2 _]]].
        exists t2. split; [exact E2 |].
        rewrite H2. simpl. rewrite !phases_app, !events_app.
        rewrite (phases_silent AZeroGrad), (events_silent AZeroGrad),
          !app_nil_r; auto.
      - eexists. split; [reflexivity |]. simpl.
        rewrite phases_app, events_app. auto. }
    destruct Hz as [t2 [E2 [Hp2 He2]]].
    eapply wp_eq; [exact E2 |]. cbv beta iota.
    unfold wp.
    destruct (after_zero_grad module_of ugs (deepspeed_enabled t)
                microbatches t2) as [[tot1 | e |] t3] eqn:E3;
      simpl; [| not_val | not_val].
    intros x _.
    destruct (after_zero_grad_order _ _ _ _ _ _ E3) as [ns [Hl [Hp3 He3]]].
    exists ns. split; [exact Hl |].
    rewrite Hp3, He3, Hp2, He2, <- !app_assoc. auto. }
  destruct H as [ns [Hl [Hp He]]].
  exists ns. split; [exact Hnew |]. split; [exact Hl |].
  rewrite Hnew, phases_app in Hp. rewrite Hnew, events_app in He.
  apply app_inv_head in Hp. apply app_inv_head in He.
  split; [exact Hp |].
  rewrite He, map_const_repeat. reflexivity.
Qed.

End MicrobatchOrder.

Lemma deepspeed_on_stable : Stable deepspeed_on.
Proof. split; intros; assumption. Qed.

Section BackwardCounts.

Variable module_of : ModuleRef -> ComposerModel.t.

Local Abbreviation train_microbatch_ := (train_microbatch module_of).
Local Abbreviation train_microbatches_ := (train_microbatches module_of).
Local Abbreviation inner_ := (_train_batch_inner module_of).

Lemma scale_loss_if_length (ugs : bool) t (Q : Result unit -> Trainer -> Prop) :
  (forall t', trace t' = trace t ->
              length (loss (state t')) = length (loss (state t)) ->
              backwards_create_graph (state t')
              = backwards_create_graph (state t) ->
              engine_closed t' = engine_closed t ->
              engine_handlers t' = engine_handlers t ->
              Q (Val tt) t') ->
  (forall e t', Q (Raise e) t') ->
  wp (if ugs then scale_loss else ret tt) t Q.
Proof.
  intros Hv Hr. destruct ugs; [| apply wp_ret, Hv; reflexivity].
  unfold scale_loss. wp_steps.
  destruct (scaler (state t)); wp_steps; [| apply Hr].
  apply Hv; try reflexivity. simpl. apply length_map.
Qed.

Lemma scale_and_accumulate_length a b tot t
    (Q : Result Q -> Trainer -> Prop) :
  (forall tot' t', trace t' = trace t ->
                   length (loss (state t')) = length (loss (state t)) ->
                   engine_handlers t' = engine_handlers t ->
                   Q (Val tot') t') ->
  (forall e t', Q (Raise e) t') ->
  wp (scale_and_accumulate a b tot) t Q.
Proof.
  intros Hv Hr. unfold scale_and_accumulate. wp_steps.
  destruct (loss (state t)) eqn:El; wp_steps.
  - apply Hv; try reflexivity. rewrite El. reflexivity.
  - destruct (b =? 0); wp_steps; [apply Hr |].
    apply Hv; try reflexivity. simpl. rewrite length_map. reflexivity.
Qed.

(** With DeepSpeed a microbatch has one backward pass, on the engine. *)
Lemma train_microbatch_count_deepspeed ugs cbs fin mb tot t tot' t' :
  deepspeed_enabled t = true ->
  train_microbatch_ ugs cbs fin mb tot t = (Val tot', t') ->
  phases (trace t') = phases (trace t) ++ microbatch_phases 1.
Proof.
  intros Hds E.
  refine (wp_inv _ t (Val tot') t'
            (fun r t' =>
               forall x, r = Val x ->
               phases (trace t') = phases (trace t) ++ microbatch_phases 1)
            _ E tot' eq_refl).
  clear E tot' t'.
  unfold train_microbatch. wp_steps. rewrite Hds. wp_steps.
  event_free. wp_steps. event_free. event_free. wp_steps.
  event_free. event_free.
  apply wp_bind.
  apply scale_loss_if_length; [| intros; not_val].
  intros t1 H1 _ _ _ _. proj_simpl_in H1. wp_steps.
  apply wp_scale_and_accumulate_trace; [| intros; not_val].
  intros tot1 t2 H2. proj_simpl_in H2. cbv beta iota.
  event_free. wp_steps.
  intros x _.
  rewrite H2, H1.
  repeat rewrite ?phases_app. simpl.
  rewrite ?app_nil_r, <- ?app_assoc. reflexivity.
Qed.

(** Without DeepSpeed and with transparent handlers a microbatch has one
    backward pass for each component of its loss. *)
Lemma train_microbatch_count ugs cbs fin mb tot t tot' t' :
  deepspeed_enabled t = false ->
  Forall transparent (engine_handlers t) ->
  train_microbatch_ ugs cbs fin mb tot t = (Val tot', t') ->
  phases (trace t')
  = phases (trace t)
    ++ microbatch_phases (loss_components (module_of (model (state t))) mb).
Proof.
  intros Hds Hh E.
  refine (wp_inv _ t (Val tot') t'
            (fun r t' =>
               forall x, r = Val x ->
               phases (trace t')
               = phases (trace t)
                 ++ microbatch_phases
                      (loss_components (module_of (model (state t))) mb))
            _ E tot' eq_refl).
  clear E tot' t'.
  unfold train_microbatch. wp_steps. rewrite Hds. wp_steps.
  event_step Hh. wp_steps. event_step Hh. event_step Hh. wp_steps.
  assert (Hloss : ComposerModel.loss (module_of (model s1)) (outputs s1)
                    (batch s1)
                  = ComposerModel.loss (module_of (model (state t)))
                      (ComposerModel.forward (module_of (model (state t))) mb)
                      mb) by congruence.
  rewrite Hloss. clear Hloss.
  apply scale_and_accumulate_length; [| intros; not_val].
  intros tot1 t1 Htr1 Hlen1 Hhs1. proj_simpl_in Htr1. proj_simpl_in Hlen1.
  proj_simpl_in Hhs1. cbv beta iota.
  assert (Hh1 : Forall transparent (engine_handlers t1))
    by (rewrite Hhs1; exact Hh).
  event_step Hh1. event_step Hh1.
  apply wp_bind.
  apply scale_loss_if_length; [| intros; not_val].
  intros t2 Htr2 Hlen2 _ _ _. proj_simpl_in Htr2. proj_simpl_in Hlen2.
  wp_steps.
  match goal with
  | |- wp (for_each ?ls (backward ?cg)) ?t0 _ =>
      destruct (backward_all_trace cg ls t0) as [t3 [Eb Hb]];
      eapply wp_eq; [exact Eb |]
  end.
  cbv beta iota. wp_steps. event_free. wp_steps.
  intros x _.
  rewrite Hb, Htr2, Htr1.
  repeat rewrite ?phases_app, ?events_app. simpl.
  rewrite phases_backward.
  replace (length (loss (state t2)))
    with (loss_components (module_of (model (state t))) mb)
    by (unfold loss_components; congruence).
  rewrite ?app_nil_r, <- ?app_assoc. reflexivity.
Qed.

Lemma train_microbatches_count_deepspeed ugs cbs mbs : forall tot t tot' t',
  deepspeed_enabled t = true ->
  train_microbatches_ ugs cbs mbs tot t = (Val tot', t') ->
  phases (trace t')
  = phases (trace t)
    ++ concat (map microbatch_phases (repeat 1%nat (length mbs))).
Proof.
  induction mbs as [| mb rest IH]; intros tot t tot' t' Hds E.
  - simpl in E. inversion E; subst. simpl. rewrite app_nil_r. reflexivity.
  - simpl in E. apply bind_val_inv in E. destruct E as [tot1 [t1 [E1 E2]]].
    pose proof (pres_apply deepspeed_on _ _ _ _
                  (pres_train_microbatch module_of _ deepspeed_on_stable
                     _ _ _ _ _) Hds E1) as Hds1.
    rewrite (IH _ _ _ _ Hds1 E2).
    rewrite (train_microbatch_count_deepspeed _ _ _ _ _ _ _ _ Hds E1).
    cbn [length repeat map concat]. rewrite <- !app_assoc. reflexivity.
Qed.

Lemma train_microbatches_count ugs cbs mbs : forall tot t tot' t',
  deepspeed_enabled t = false ->
  Forall transparent (engine_handlers t) ->
  train_microbatches_ ugs cbs mbs tot t = (Val tot', t') ->
  phases (trace t')
  = phases (trace t)
    ++ concat (map microbatch_phases
                 (map (loss_components (module_of (model (state t)))) mbs)).
Proof.
  induction mbs as [| mb rest IH]; intros tot t tot' t' Hds Hh E.
  - simpl in E. inversion E; subst. simpl. rewrite app_nil_r. reflexivity.
  - simpl in E. apply bind_val_inv in E. destruct E as [tot1 [t1 [E1 E2]]].
    assert (Hsame : same_model (engine_handlers t) (model (state t))
                      (deepspeed_enabled t) t1).
    { eapply (pres_apply _ _ _ _ _
                (pres_train_microbatch_same module_of _ _ _ _ _ _ _ _ Hh));
        [| exact E1].
      repeat split. }
    destruct Hsame as [He [Hm Hd]].
    pose proof (train_microbatch_count _ _ _ _ _ _ _ _ Hds Hh E1) as H1.
    rewrite <- He in Hh. rewrite <- Hd in Hds.
    rewrite (IH _ _ _ _ Hds Hh E2), Hm, H1.
    cbn [map concat]. rewrite <- !app_assoc. reflexivity.
Qed.

(** What follows the loop over the microbatches adds AFTER_TRAIN_BATCH. *)
Lemma after_zero_grad_phases (L : list Phase) ugs ds mbs t total t' :
  (forall tot1 t1,
      train_microbatches_ ugs (sumZ (map _get_batch_size mbs)) mbs 0%Q t
      = (Val tot1, t1) ->
      phases (trace t1) = phases (trace t) ++ L) ->
  after_zero_grad module_of ugs ds mbs t = (Val total, t') ->
  phases (trace t')
  = phases (trace t) ++ L ++ [PEvent AFTER_TRAIN_BATCH].
Proof.
  intros HL E. unfold after_zero_grad in E.
  apply bind_val_inv in E. destruct E as [tot1 [t1 [E1 E2]]].
  specialize (HL _ _ E1).
  refine (wp_inv _ t1 (Val total) t'
            (fun r t' =>
               forall x, r = Val x ->
               phases (trace t')
               = phases (trace t) ++ L ++ [PEvent AFTER_TRAIN_BATCH])
            _ E2 total eq_refl).
  clear E2 E1.
  apply wp_bind.
  assert (Hun : exists t2,
             (if ugs
              then st <- gets state ;;
                   for_each (ensure_tuple (optimizers st))
                     (fun o => log (AUnscale o))
              else ret tt) t1 = (Val tt, t2) /\
             phases (trace t2) = phases (trace t1)).
  { destruct ugs; [| exists t1; auto].
    destruct (log_all_trace AUnscale
                (ensure_tuple (optimizers (state t1))) t1) as [t2 [E2 H2]].
    exists t2. split; [exact E2 |].
    rewrite H2, phases_app.
    rewrite (phases_silent AUnscale), app_nil_r; auto. }
  destruct Hun as [t2 [E2 Hp2]].
  eapply wp_eq; [exact E2 |]. cbv beta iota. wp_steps.
  assert (Hclip : exists t3,
             (if negb ds
              then match _grad_clip_norm t2 with
                   | Some max_norm => log (AClipGradNorm max_norm)
                   | None => ret tt
                   end
              else ret tt) t2 = (Val tt, t3) /\
             phases (trace t3) = phases (trace t2)).
  { destruct (negb ds); [| exists t2; auto].
    destruct (_grad_clip_norm t2); [| exists t2; auto].
    eexists. split; [reflexivity |]. simpl.
    rewrite phases_app, app_nil_r. auto. }
  destruct Hclip as [t3 [E3 Hp3]].
  eapply wp_eq; [exact E3 |]. cbv beta iota.
  event_free. wp_steps.
  intros x _.
  rewrite phases_app, Hp3, Hp2, HL.
  simpl. rewrite <- !app_assoc. reflexivity.
Qed.

Lemma inner_phases_deepspeed mbs sync t total t' :
  deepspeed_enabled t = true ->
  inner_ mbs sync t = (Val total, t') ->
  phases (trace t')
  = phases (trace t) ++ batch_phases (repeat 1%nat (length mbs)).
Proof.
  intros Hds E.
  refine (wp_inv _ t (Val total) t'
            (fun r t' =>
               forall x, r = Val x ->
               phases (trace t')
               = phases (trace t)
                 ++ batch_phases (repeat 1%nat (length mbs)))
            _ E total eq_refl).
  clear E.
  unfold _train_batch_inner.
  event_free. wp_steps.
  destruct (optimizers s) as [os |]; wp_steps; [| not_val].
  destruct (scaler s) as [g |]; wp_steps; [| not_val].
  unfold _use_grad_scaling. wp_steps. rewrite Hds. wp_steps.
  rewrite Hds. cbn [negb]. wp_steps.
  unfold wp.
  match goal with
  | |- context [after_zero_grad module_of ?ugs ?ds ?m ?t2] =>
      destruct (after_zero_grad module_of ugs ds m t2)
        as [[tot1 | e |] t3] eqn:E3
  end; simpl; [| not_val | not_val].
  intros x _.
  match type of E3 with
  | after_zero_grad _ ?ugs ?ds ?m ?t2 = _ =>
      rewrite (after_zero_grad_phases
                 (concat (map microbatch_phases (repeat 1%nat (length mbs))))
                 ugs ds m t2 tot1 t3
                 (fun tot2 t4 E4 =>
                    train_microbatches_count_deepspeed _ _ _ _ t2 _ _
                      Hds E4)
                 E3)
  end.
  proj_simpl. rewrite phases_app. unfold batch_phases. simpl.
  rewrite <- !app_assoc. reflexivity.
Qed.

Lemma inner_phases_transparent mbs sync t total t' :
  deepspeed_enabled t = false ->
  Forall transparent (engine_handlers t) ->
  inner_ mbs sync t = (Val total, t') ->
  phases (trace t')
  = phases (trace t)
    ++ batch_phases (map (loss_components (module_of (model (state t)))) mbs).
Proof.
  intros Hds Hh E.
  refine (wp_inv _ t (Val total) t'
            (fun r t' =>
               forall x, r = Val x ->
               phases (trace t')
               = phases (trace t)
                 ++ batch_phases
                      (map (loss_components (module_of (model (state t))))
                         mbs))
            _ E total eq_refl).
  clear E.
  unfold _train_batch_inner.
  event_step Hh. wp_steps.
  destruct (optimizers s) as [os |]; wp_steps; [| not_val].
  destruct (scaler s) as [g |]; wp_steps; [| not_val].
  unfold _use_grad_scaling. wp_steps. rewrite Hds. wp_steps.
  destruct (Precision_eqb (precision s) AMP && scaler_unusable (Some g));
    wp_steps; [not_val |].
  rewrite Hds. cbn [negb].
  match goal with
  | |- wp (for_each os zero_grad) ?tx _ =>
      destruct (for_each os zero_grad tx) as [r2 t2] eqn:Ez;
      assert (Hsame2 : same_model (engine_handlers t) (model (state t)) false
                         t2);
      [ eapply (pres_apply (same_model (engine_handlers t) (model (state t))
                              false) _ tx); [| | exact Ez]
      | ];
      [ unfold zero_grad;
        repeat first
          [ pres_struct
          | lazymatch goal with
            | |- pres _ (modify_state _) =>
                apply pres_modify_state; intros ? ?; assumption
            | |- pres _ (log _) => apply pres_log; intros ? ?; assumption
            end ]
      | repeat split; simpl; assumption
      | ];
      pose proof (zero_grads_spec os tx) as [t2' [Ez' [Htr2 _]]];
      rewrite Ez in Ez'; inversion Ez'; subst r2 t2'; clear Ez';
      eapply wp_eq; [exact Ez |]
  end.
  cbv beta iota. destruct Hsame2 as [He2 [Hm2 Hd2]].
  unfold wp.
  match goal with
  | |- context [after_zero_grad module_of ?ugs ?ds ?m ?t2] =>
      destruct (after_zero_grad module_of ugs ds m t2)
        as [[tot1 | e |] t3] eqn:E3
  end; simpl; [| not_val | not_val].
  intros x _.
  rewrite <- He2 in Hh.
  assert (HL : forall tot2 t4,
             train_microbatches_ (Precision_eqb (precision s) AMP)
               (sumZ (map _get_batch_size mbs)) mbs 0%Q t2
             = (Val tot2, t4) ->
             phases (trace t4)
             = phases (trace t2)
               ++ concat
                    (map microbatch_phases
                       (map (loss_components (module_of (model (state t))))
                          mbs))).
  { intros tot2 t4 E4. rewrite <- Hm2.
    exact (train_microbatches_count _ _ _ _ _ _ _ Hd2 Hh E4). }
  rewrite (after_zero_grad_phases _ _ _ _ _ _ _ HL E3).
  rewrite Htr2. proj_simpl. repeat rewrite phases_app.
  rewrite (phases_silent AZeroGrad); [| reflexivity].
  unfold batch_phases. simpl. rewrite app_nil_r, <- !app_assoc. reflexivity.
Qed.

(** X11. A call of [_train_batch_inner] that returns emits
    BEFORE_TRAIN_BATCH, then for every microbatch, in order,
    BEFORE_FORWARD, the forward pass, AFTER_FORWARD, BEFORE_LOSS, the loss,
    AFTER_LOSS, BEFORE_BACKWARD, the backward passes and AFTER_BACKWARD,
    and last AFTER_TRAIN_BATCH; no other event, forward pass, loss or
    backward pass lies in between.  With DeepSpeed every microbatch has
    exactly one backward pass, on the engine; without DeepSpeed and with
    handlers that leave the batch, the outputs, the loss and the model
    alone, it has exactly one backward pass for each component of the
    loss of the microbatch. *)
Theorem train_batch_inner_phase_order (microbatches : list Batch)
    (ddp_sync : bool) (t : Trainer) (total : Q) (t' : Trainer) :
  inner_ microbatches ddp_sync t = (Val total, t') ->
  exists new,
    trace t' = trace t ++ new /\
    events new
    = BEFORE_TRAIN_BATCH
      :: concat (repeat microbatch_events (length microbatches))
      ++ [AFTER_TRAIN_BATCH] /\
    (exists ns,
        length ns = length microbatches /\ phases new = batch_phases ns) /\
    (deepspeed_enabled t = true ->
     phases new = batch_phases (repeat 1%nat (length microbatches))) /\
    (deepspeed_enabled t = false ->
     Forall transparent (engine_handlers t) ->
     phases new
     = batch_phases
         (map (loss_components (module_of (model (state t)))) microbatches)).
Proof.
  intro E.
  destruct (train_batch_inner_order module_of _ _ _ _ _ E)
    as (new & ns & Hnew & Hl & Hp & He).
  exists new. split; [exact Hnew |]. split; [exact He |].
  split; [exists ns; split; [exact Hl | exact Hp] |].
  split.
  - intro Hds.
    pose proof (inner_phases_deepspeed _ _ _ _ _ Hds E) as H.
    rewrite Hnew, phases_app in H. apply app_inv_head in H. exact H.
  - intros Hds Hh.
    pose proof (inner_phases_transparent _ _ _ _ _ Hds Hh E) as H.
    rewrite Hnew, phases_app in H. apply app_inv_head in H. exact H.
Qed.

End BackwardCounts.

Lemma draws_nil t : draws [] t = t.
Proof.
  unfold draws. destruct t. simpl. rewrite app_nil_r, Nat.add_0_r.
  reflexivity.
Qed.

Lemma draws_app l l' t : draws l' (draws l t) = draws (l ++ l') t.
Proof.
  unfold draws. simpl.
  rewrite map_app, length_app, app_assoc, Nat.add_assoc. reflexivity.
Qed.

Lemma draw_draws b t : draw b t = (Val tt, draws [b] t).
Proof.
  unfold draw, draws, bind, log, modify. simpl.
  rewrite Nat.add_1_r. reflexivity.
Qed.

Lemma draw_first_draws dl t : draw_first dl t = (Val tt, draws (firstn 1 dl) t).
Proof.
  destruct dl as [| b dl]; simpl.
  - rewrite draws_nil. reflexivity.
  - apply draw_draws.
Qed.

Lemma spin_train_draws n : forall t,
  for_each (repeat tt n)
    (fun _ => st <- gets state ;; draw_first (train_dataloader st)) t
  = (Val tt,
     draws (concat (repeat (firstn 1 (train_dataloader (state t))) n)) t).
Proof.
  induction n as [| n IH]; intro t; simpl.
  - rewrite draws_nil. reflexivity.
  - unfold bind at 1. unfold bind at 1, gets at 1.
    rewrite draw_first_draws, IH, draws_app. reflexivity.
Qed.

Lemma spin_dataloaders_eq (t : Trainer) :
  _spin_dataloaders t = (Val tt, draws (spun (state t)) t).
Proof.
  unfold _spin_dataloaders, spun.
  unfold bind at 1, gets at 1. unfold bind.
  rewrite draw_first_draws, spin_train_draws, draws_app. reflexivity.
Qed.

Lemma length_concat_repeat {A} (l : list A) n :
  length (concat (repeat l n)) = (n * length l)%nat.
Proof.
  induction n as [| n IH]; simpl; [reflexivity |].
  rewrite length_app, IH. reflexivity.
Qed.

(** X12. [_spin_dataloaders] always returns.  It draws the first batch of
    the evaluation data loader and then, once for every completed epoch,
    the first batch of the training data loader, and changes nothing else:
    at most [1 + epoch] batches are drawn, and exactly that many when
    neither loader is empty. *)
Theorem spin_dataloaders_draws (t : Trainer) :
  _spin_dataloaders t = (Val tt, draws (spun (state t)) t) /\
  (length (spun (state t)) <= 1 + Z.to_nat (epoch (state t)))%nat /\
  (eval_dataloader (state t) <> [] -> train_dataloader (state t) <> [] ->
   length (spun (state t)) = (1 + Z.to_nat (epoch (state t)))%nat).
Proof.
  split; [apply spin_dataloaders_eq |].
  unfold spun. rewrite length_app, length_concat_repeat.
  destruct (eval_dataloader (state t)) as [| b dl];
    destruct (train_dataloader (state t)) as [| b' dl']; simpl;
    split; try lia; intros H1 H2; try contradiction; try lia;
    contradiction H2; reflexivity.
Qed.

Lemma use_closures_returns t :
  optimizers (state t) <> None -> exists b, _use_closures t = (Val b, t).
Proof.
  intro H. unfold _use_closures, bind, gets, ret.
  destruct (deepspeed_enabled t); [eauto |].
  destruct (negb (Precision_eqb (precision (state t)) AMP)); [eauto |].
  destruct (optimizers (state t)); [eauto | contradiction H; reflexivity].
Qed.

Section InitReturns.

Variable module_of : ModuleRef -> ComposerModel.t.
Variable DecoupledSGDW : Optimizer.

Local Abbreviation init_ := (__init__ module_of DecoupledSGDW).

Lemma init_body_returns a s0 :
  wp (init_body DecoupledSGDW a) (initial_trainer a s0)
    (fun r t =>
       r = Val tt ->
       (length (arg_optimizer_hparams a) <=? 1)%nat
       && negb (arg_deepspeed_enabled a
                && (is_some (arg_checkpoint_interval_unit a)
                    || is_some (arg_checkpoint_filepath a))) = true /\
       engine_closed t = false /\
       _train_dataloader_iterator t = None /\
       deepspeed_enabled t = arg_deepspeed_enabled a /\
       _checkpointer t
       = {| checkpoint_interval_unit := arg_checkpoint_interval_unit a;
            save_interval := arg_checkpoint_interval a;
            write_fails := env_write_fails a |}).
Proof.
  unfold init_body, init_optimizers, initial_trainer.
  wp_steps. event_free. wp_steps.
  assert (Hlen : (length (arg_optimizer_hparams a) <=? 1)%nat
                 = negb (negb (length match arg_optimizer_hparams a with
                                      | [] => [DecoupledSGDW]
                                      | hs => hs
                                      end =? 1)%nat)).
  { destruct (arg_optimizer_hparams a) as [| o [| o' os]]; reflexivity. }
  rewrite Hlen. clear Hlen.
  destruct (negb (length _ =? 1)%nat); cbn [negb andb]; wp_steps;
    [not_val |].
  destruct (arg_deepspeed_enabled a) eqn:Hds; cbn [negb andb orb].
  - destruct (arg_checkpoint_interval_unit a) as [u |]; cbn [is_some andb orb];
      wp_steps; [not_val |].
    unfold init_checkpoint. wp_steps.
    destruct (arg_checkpoint_filepath a) as [cl |]; cbn [is_some negb];
      wp_steps; [not_val |].
    unfold init_scaler_and_start, _use_closures. wp_steps.
    all: event_free.
    all: (eapply wp_eq; [apply spin_dataloaders_eq |]); cbv beta iota.
    all: unfold init_restore_rng, draws; wp_steps.
    all: intros _; repeat split; reflexivity.
  - destruct (arg_checkpoint_interval_unit a) as [u |]; cbn [is_some andb orb];
      wp_steps.
    all: unfold init_checkpoint, load_checkpoint; wp_steps.
    all: destruct (arg_checkpoint_filepath a) as [cl |]; wp_steps.
    all: unfold init_scaler_and_start; wp_steps.
    all: match goal with
         | |- wp _use_closures ?t0 _ =>
             destruct (use_closures_returns t0 ltac:(simpl; discriminate))
               as [b Eb];
             eapply wp_eq; [exact Eb |]; cbv beta iota
         end.
    all: wp_steps; event_free.
    all: (eapply wp_eq; [apply spin_dataloaders_eq |]); cbv beta iota.
    all: unfold init_restore_rng, restore_checkpoint_rng_state, draws;
      wp_steps.
    all: try match goal with
             | |- context [if ?c then _ else _] => destruct c
             end; wp_steps.
    all: intros _; repeat split; reflexivity.
Qed.

(** X13. A trainer that the constructor returns was built from supported
    arguments: the model has training metrics, at most one optimizer is
    configured, and DeepSpeed is not combined with checkpointing.  It has
    an open engine, no training iterator, the DeepSpeed flag of the
    arguments and a checkpointer with the interval of the arguments,
    whatever the handlers of the extensions do. *)
Theorem init_returns_only_if_supported (a : TrainerArgs) (t : Trainer) :
  init_ a = Val t ->
  supported module_of a = true /\
  engine_closed t = false /\
  _train_dataloader_iterator t = None /\
  deepspeed_enabled t = arg_deepspeed_enabled a /\
  _checkpointer t
  = {| checkpoint_interval_unit := arg_checkpoint_interval_unit a;
       save_interval := arg_checkpoint_interval a;
       write_fails := env_write_fails a |}.
Proof.
  unfold __init__, supported.
  destruct (ComposerModel.metrics (module_of (arg_model a)) true) as [ms |];
    [| discriminate].
  pose proof (init_body_returns a
                (set_train_metrics (Some ms) (initial_state a)))
    as H.
  unfold wp in H.
  destruct (init_body DecoupledSGDW a _) as [[[] | e |] t1];
    intro E; inversion E; subst t1.
  simpl in H. destruct (H eq_refl) as (Hs & Hrest).
  split; [simpl; exact Hs | exact Hrest].
Qed.

End InitReturns.

Lemma nodup_one (l : list Z) :
  length (nodup Z.eq_dec l) = 1%nat <-> exists n, Shapes.uniform n l.
Proof.
  split.
  - intro H.
    destruct (nodup Z.eq_dec l) as [| n [| m r]] eqn:E; try discriminate.
    exists n. split.
    + intro Hl. subst l. discriminate.
    + intros x Hx. apply (nodup_In Z.eq_dec) in Hx. rewrite E in Hx.
      destruct Hx as [Hx | []]. auto.
  - intros [n [Hne Hall]].
    induction l as [| x l IH]; [contradiction Hne; reflexivity |].
    simpl. destruct (in_dec Z.eq_dec x l) as [Hin | Hout].
    + apply IH; [intro Hl; subst l; destruct Hin |].
      intros y Hy. apply Hall. right. exact Hy.
    + destruct l as [| y l']; [reflexivity |].
      exfalso. apply Hout. left.
      rewrite (Hall x), (Hall y); [reflexivity | right; left | left];
        reflexivity.
Qed.

(** The collection of the sizes succeeds exactly on sized objects. *)
Lemma dim0_sizes_sized (l : list Shapes.Item) (sizes : list Z) :
  Shapes.dim0_sizes l = Val sizes <-> Shapes.sized l sizes.
Proof.
  unfold Shapes.sized. revert sizes.
  induction l as [| x l IH]; intro sizes; simpl.
  - split; intro H.
    + inversion H. reflexivity.
    + destruct sizes; [reflexivity | discriminate].
  - destruct (Shapes.shape0 x) as [n | e |] eqn:Ex.
    + destruct (Shapes.dim0_sizes l) as [ss | e |] eqn:El.
      * split; intro H.
        -- inversion H; subst. simpl. f_equal. apply IH. reflexivity.
        -- destruct sizes as [| m ms]; [discriminate |].
           simpl in H. inversion H; subst.
           f_equal. f_equal.
           assert (Hs : Val ss = Val ms) by (apply IH; assumption).
           inversion Hs. reflexivity.
      * split; intro H; [discriminate |].
        destruct sizes as [| m ms]; [discriminate |].
        simpl in H. inversion H; subst.
        assert (Hs : Raise e = Val ms) by (apply IH; assumption).
        discriminate.
      * split; intro H; [discriminate |].
        destruct sizes as [| m ms]; [discriminate |].
        simpl in H. inversion H; subst.
        assert (Hs : @Diverge (list Z) = Val ms) by (apply IH; assumption).
        discriminate.
    + split; intro H; [discriminate |].
      destruct sizes; simpl in H; [discriminate | inversion H].
    + split; intro H; [discriminate |].
      destruct sizes; simpl in H; [discriminate | inversion H].
Qed.

Lemma dim0_sizes_returns (l : list Shapes.Item) :
  Shapes.dim0_sizes l <> Diverge.
Proof.
  induction l as [| x l IH]; simpl; [discriminate |].
  destruct x as [[| n sh] |]; simpl; try discriminate.
  destruct (Shapes.dim0_sizes l); [discriminate | discriminate |].
  contradiction IH. reflexivity.
Qed.

(** The collection fails with the exception of the first object without
    a size. *)
Lemma dim0_sizes_raises (l : list Shapes.Item) (e : exn) :
  Shapes.dim0_sizes l = Raise e <->
  exists x, Shapes.first_unsized l x /\ Shapes.shape0 x = Raise e.
Proof.
  split.
  - induction l as [| x l IH]; simpl; [discriminate |].
    destruct (Shapes.shape0 x) as [n | e' |] eqn:Ex.
    + destruct (Shapes.dim0_sizes l) as [ss | e' |] eqn:El;
        intro H; [discriminate | | discriminate].
      inversion H; subst e'.
      destruct (IH eq_refl) as (y & (before & sizes & rest & Hl & Hs & Hn)
                                & Hy).
      exists y. split; [| exact Hy].
      exists (x :: before), (n :: sizes), rest.
      split; [simpl; rewrite Hl; reflexivity |].
      split; [| exact Hn].
      unfold Shapes.sized in *. simpl. rewrite Ex, Hs. reflexivity.
    + intro H. inversion H; subst e'.
      exists x. split; [| exact Ex].
      exists [], [], l. split; [reflexivity |]. split; [reflexivity |].
      intros n Hn. rewrite Ex in Hn. discriminate.
    + discriminate.
  - intros (x & (before & sizes & rest & Hl & Hs & _) & Hx). subst l.
    revert sizes Hs.
    induction before as [| y before IH]; intros sizes Hs; simpl.
    + rewrite Hx. reflexivity.
    + destruct sizes as [| n ns]; [discriminate |].
      unfold Shapes.sized in Hs. simpl in Hs. inversion Hs as [[Hy Hrest]].
      rewrite Hy, (IH ns Hrest). reflexivity.
Qed.

Lemma sized_unique (l : list Shapes.Item) (a b : list Z) :
  Shapes.sized l a -> Shapes.sized l b -> a = b.
Proof.
  intros Ha Hb. apply dim0_sizes_sized in Ha, Hb.
  rewrite Ha in Hb. inversion Hb. reflexivity.
Qed.

(** X14. [_get_batch_size] returns [n] exactly when the batch is a tensor
    of leading dimension [n], or a list, tuple or dict whose objects are
    all tensors with a leading dimension, at least one, and all with the
    leading dimension [n].  It raises ValueError exactly when the batch
    is no tensor and its objects are tensors with leading dimensions that
    differ, or there is none; AttributeError exactly when the first
    object without a size is no tensor; IndexError exactly when the batch
    is a tensor without dimensions or the first object without a size is
    one.  It raises nothing else. *)
Theorem get_batch_size_uniform (b : Shapes.Batch) :
  (forall n,
      Shapes._get_batch_size b = Val n <->
      (exists rest, b = Shapes.BTensor (n :: rest)) \/
      (Shapes.collection b /\
       exists sizes,
         Shapes.sized (Shapes.items b) sizes /\
         Shapes.uniform n sizes)) /\
  (Shapes._get_batch_size b = Raise ValueError <->
   Shapes.collection b /\
   exists sizes,
     Shapes.sized (Shapes.items b) sizes /\
     forall m, ~ Shapes.uniform m sizes) /\
  (Shapes._get_batch_size b = Raise AttributeError <->
   Shapes.collection b /\
   Shapes.first_unsized (Shapes.items b) Shapes.IOther) /\
  (Shapes._get_batch_size b = Raise IndexError <->
   b = Shapes.BTensor [] \/
   (Shapes.collection b /\
    Shapes.first_unsized (Shapes.items b) (Shapes.ITensor []))) /\
  (forall e,
      Shapes._get_batch_size b = Raise e ->
      e = ValueError \/ e = AttributeError \/ e = IndexError) /\
  Shapes._get_batch_size b <> Diverge.
Proof.
  assert (Hcoll : forall l,
             (forall n,
                 match Shapes.dim0_sizes l with
                 | Val sizes =>
                     if (length (nodup Z.eq_dec sizes) =? 1)%nat
                     then Val (hd 0 sizes)
                     else Raise ValueError
                 | Raise e => Raise e
                 | Diverge => Diverge
                 end = Val n <->
                 exists sizes, Shapes.sized l sizes /\
                               Shapes.uniform n sizes) /\
             (match Shapes.dim0_sizes l with
              | Val sizes =>
                  if (length (nodup Z.eq_dec sizes) =? 1)%nat
                  then Val (hd 0 sizes)
                  else Raise ValueError
              | Raise e => Raise e
              | Diverge => @Diverge Z
              end = Raise ValueError <->
              exists sizes, Shapes.sized l sizes /\
                            forall m, ~ Shapes.uniform m sizes) /\
             (forall x e,
                 Shapes.shape0 x = Raise e ->
                 (forall y, Shapes.shape0 y = Raise e -> y = x) ->
                 e <> ValueError ->
                 match Shapes.dim0_sizes l with
                 | Val sizes =>
                     if (length (nodup Z.eq_dec sizes) =? 1)%nat
                     then Val (hd 0 sizes)
                     else Raise ValueError
                 | Raise e => Raise e
                 | Diverge => @Diverge Z
                 end = Raise e <-> Shapes.first_unsized l x) /\
             (forall e,
                 match Shapes.dim0_sizes l with
                 | Val sizes =>
                     if (length (nodup Z.eq_dec sizes) =? 1)%nat
                     then Val (hd 0 sizes)
                     else Raise ValueError
                 | Raise e => Raise e
                 | Diverge => @Diverge Z
                 end = Raise e ->
                 e = ValueError \/ e = AttributeError \/ e = IndexError) /\
             match Shapes.dim0_sizes l with
             | Val sizes =>
                 if (length (nodup Z.eq_dec sizes) =? 1)%nat
                 then Val (hd 0 sizes)
                 else Raise ValueError
             | Raise e => Raise e
             | Diverge => @Diverge Z
             end <> Diverge).
  { intro l.
    destruct (Shapes.dim0_sizes l) as [sizes | e |] eqn:El.
    - pose proof (proj1 (dim0_sizes_sized l sizes) El) as Hs.
      destruct (length (nodup Z.eq_dec sizes) =? 1)%nat eqn:E1.
      + apply Nat.eqb_eq in E1.
        destruct (proj1 (nodup_one sizes) E1) as [k Hk].
        assert (Hhd : hd 0 sizes = k).
        { destruct sizes as [| x r]; [destruct Hk as [Hk _]; contradiction Hk;
                                      reflexivity |].
          simpl. apply Hk. left. reflexivity. }
        split; [| split; [| split; [| split]]].
        * intro n. split.
          -- intro H. injection H as Hn. exists sizes.
             split; [exact Hs |]. rewrite <- Hn, Hhd. exact Hk.
          -- intros (ss & Hss & Hu).
             rewrite (sized_unique _ _ _ Hss Hs) in Hu.
             f_equal. rewrite Hhd.
             destruct sizes as [| x r];
               [destruct Hk as [Hk _]; contradiction Hk; reflexivity |].
             rewrite <- (proj2 Hk x), <- (proj2 Hu x); [reflexivity | |];
               left; reflexivity.
        * split; [discriminate |].
          intros (ss & Hss & Hno).
          rewrite (sized_unique _ _ _ Hss Hs) in Hno.
          contradiction (Hno k).
        * intros x e Hx _ _. split; [discriminate |].
          intros (before & ss & rest & Hl & Hbs & Hn).
          assert (Hr : Shapes.dim0_sizes l = Raise e).
          { apply dim0_sizes_raises. exists x. split; [| exact Hx].
            exists before, ss, rest. auto. }
          rewrite El in Hr. discriminate.
        * discriminate.
        * discriminate.
      + apply Nat.eqb_neq in E1.
        split; [| split; [| split; [| split]]].
        * intro n. split; [discriminate |].
          intros (ss & Hss & Hu).
          rewrite (sized_unique _ _ _ Hss Hs) in Hu.
          contradiction E1. apply nodup_one. exists n. exact Hu.
        * split; [| reflexivity].
          intros _. exists sizes. split; [exact Hs |].
          intros m Hm. apply E1, nodup_one. exists m. exact Hm.
        * intros x e Hx _ Hne. split.
          -- intro H. inversion H. contradiction Hne. auto.
          -- intros (before & ss & rest & Hl & Hbs & Hn).
             assert (Hr : Shapes.dim0_sizes l = Raise e).
             { apply dim0_sizes_raises. exists x. split; [| exact Hx].
               exists before, ss, rest. auto. }
             rewrite El in Hr. discriminate.
        * intros e H. inversion H. auto.
        * discriminate.
    - destruct (proj1 (dim0_sizes_raises l e) El) as (y & Hy & Hye).
      assert (Hnot : forall ss, ~ Shapes.sized l ss).
      { intros ss Hss. apply dim0_sizes_sized in Hss.
        rewrite El in Hss. discriminate. }
      split; [| split; [| split; [| split]]].
      + intro n. split; [discriminate |].
        intros (ss & Hss & _). contradiction (Hnot ss).
      + split.
        * intro H. inversion H; subst e.
          destruct y as [[| k sh] |]; discriminate.
        * intros (ss & Hss & _). contradiction (Hnot ss).
      + intros x e' Hx Huniq Hne. split.
        * intro H. inversion H; subst e'.
          rewrite (Huniq y Hye) in Hy. exact Hy.
        * intro Hfx.
          assert (Hr : Shapes.dim0_sizes l = Raise e').
          { apply dim0_sizes_raises. exists x. split; assumption. }
          rewrite El in Hr. inversion Hr. reflexivity.
      + intros e' H. inversion H; subst e'.
        destruct y as [[| k sh] |]; inversion Hye; auto.
      + discriminate.
    - contradiction (dim0_sizes_returns l). }
  assert (Hattr : forall y,
             Shapes.shape0 y = Raise AttributeError -> y = Shapes.IOther).
  { intros [[| k sh] |]; simpl; intro H; try discriminate; reflexivity. }
  assert (Hidx : forall y,
             Shapes.shape0 y = Raise IndexError ->
             y = Shapes.ITensor []).
  { intros [[| k sh] |]; simpl; intro H; try discriminate; reflexivity. }
  destruct b as [shape | elements | values |].
  - (* a tensor *)
    assert (Hnc : ~ Shapes.collection (Shapes.BTensor shape)).
    { intro H. apply (H shape). reflexivity. }
    destruct shape as [| k sh]; simpl.
    + split; [| split; [| split; [| split; [| split]]]].
      * intro n. split; [discriminate |].
        intros [[rest H] | [H _]]; [discriminate | contradiction].
      * split; [discriminate | intros [H _]; contradiction].
      * split; [discriminate | intros [H _]; contradiction].
      * split; [auto |]. reflexivity.
      * intros e H. inversion H. auto.
      * discriminate.
    + split; [| split; [| split; [| split; [| split]]]].
      * intro n. split.
        -- intro H. inversion H; subst. left. exists sh. reflexivity.
        -- intros [[rest H] | [H _]]; [| contradiction].
           inversion H. reflexivity.
      * split; [discriminate | intros [H _]; contradiction].
      * split; [discriminate | intros [H _]; contradiction].
      * split; [discriminate |].
        intros [H | [H _]]; [discriminate | contradiction].
      * discriminate.
      * discriminate.
  - assert (Hc : Shapes.collection (Shapes.BSequence elements))
      by (intros sh; discriminate).
    destruct (Hcoll (Shapes.items (Shapes.BSequence elements)))
      as (H1 & H2 & H3 & H4 & H5).
    split; [| split; [| split; [| split; [| split]]]].
    + intro n. etransitivity; [apply H1 |].
      split; [auto | intros [[rest H] | [_ H]]; [discriminate | exact H]].
    + etransitivity; [apply H2 |]. split; [auto | intros [_ H]; exact H].
    + etransitivity;
        [apply (H3 Shapes.IOther AttributeError eq_refl Hattr);
         discriminate |].
      split; [auto | intros [_ H]; exact H].
    + etransitivity;
        [apply (H3 (Shapes.ITensor []) IndexError eq_refl Hidx);
         discriminate |].
      split; [auto | intros [H | [_ H]]; [discriminate | exact H]].
    + exact H4.
    + exact H5.
  - assert (Hc : Shapes.collection (Shapes.BDict values))
      by (intros sh; discriminate).
    destruct (Hcoll (Shapes.items (Shapes.BDict values)))
      as (H1 & H2 & H3 & H4 & H5).
    split; [| split; [| split; [| split; [| split]]]].
    + intro n. etransitivity; [apply H1 |].
      split; [auto | intros [[rest H] | [_ H]]; [discriminate | exact H]].
    + etransitivity; [apply H2 |]. split; [auto | intros [_ H]; exact H].
    + etransitivity;
        [apply (H3 Shapes.IOther AttributeError eq_refl Hattr);
         discriminate |].
      split; [auto | intros [_ H]; exact H].
    + etransitivity;
        [apply (H3 (Shapes.ITensor []) IndexError eq_refl Hidx);
         discriminate |].
      split; [auto | intros [H | [_ H]]; [discriminate | exact H]].
    + exact H4.
    + exact H5.
  - assert (Hc : Shapes.collection Shapes.BOther)
      by (intros sh; discriminate).
    destruct (Hcoll (Shapes.items Shapes.BOther))
      as (H1 & H2 & H3 & H4 & H5).
    split; [| split; [| split; [| split; [| split]]]].
    + intro n. etransitivity; [apply H1 |].
      split; [auto | intros [[rest H] | [_ H]]; [discriminate | exact H]].
    + etransitivity; [apply H2 |]. split; [auto | intros [_ H]; exact H].
    + etransitivity;
        [apply (H3 Shapes.IOther AttributeError eq_refl Hattr);
         discriminate |].
      split; [auto | intros [_ H]; exact H].
    + etransitivity;
        [apply (H3 (Shapes.ITensor []) IndexError eq_refl Hidx);
         discriminate |].
      split; [auto | intros [H | [_ H]]; [discriminate | exact H]].
    + exact H4.
    + exact H5.
Qed.

Lemma remove_head x l : Registry.remove x (x :: l) = Some l.
Proof. simpl. rewrite Nat.eqb_refl. reflexivity. Qed.

Lemma remove_each_prefix bs : forall cs,
  Registry.remove_each bs (bs ++ cs) = (Val tt, cs).
Proof.
  induction bs as [| b bs IH]; intro cs; [reflexivity |].
  cbn [Registry.remove_each app]. rewrite remove_head. apply IH.
Qed.

Lemma remove_in x l : In x l -> exists l', Registry.remove x l = Some l'.
Proof.
  induction l as [| y l IH]; intro H; [destruct H |].
  simpl. destruct (Nat.eqb y x) eqn:E; [eauto |].
  destruct H as [H | H]; [subst; rewrite Nat.eqb_refl in E; discriminate |].
  destruct (IH H) as [l' Hl']. rewrite Hl'. eauto.
Qed.

Lemma remove_not_in x l : ~ In x l -> Registry.remove x l = None.
Proof.
  induction l as [| y l IH]; intro H; [reflexivity |].
  simpl. destruct (Nat.eqb y x) eqn:E.
  - apply Nat.eqb_eq in E. subst. contradiction H. left. reflexivity.
  - rewrite IH; [reflexivity |]. intro Hin. apply H. right. exact Hin.
Qed.

Lemma remove_subset x l l' :
  Registry.remove x l = Some l' -> forall y, In y l' -> In y l.
Proof.
  revert l'. induction l as [| z l IH]; intros l' H y Hy; [discriminate |].
  simpl in H. destruct (Nat.eqb z x).
  - inversion H; subst. right. exact Hy.
  - destruct (Registry.remove x l) as [r |]; [| discriminate].
    inversion H; subst. destruct Hy as [Hy | Hy]; [left; exact Hy |].
    right. apply (IH r eq_refl y Hy).
Qed.

Lemma remove_each_missing bs : forall cs b,
  In b bs -> ~ In b cs ->
  fst (Registry.remove_each bs cs) = Raise ValueError.
Proof.
  induction bs as [| x bs IH]; intros cs b Hb Hnot; [destruct Hb |].
  simpl. destruct (Registry.remove x cs) as [cs' |] eqn:E; [| reflexivity].
  destruct Hb as [Hb | Hb].
  - subst x. rewrite (remove_not_in b cs Hnot) in E. discriminate.
  - apply (IH cs' b Hb). intro Hin. apply Hnot.
    apply (remove_subset x cs cs' E). exact Hin.
Qed.

(** X15. When the callbacks start with the log backends, assigning a
    sequence of its own to [log_destinations] replaces that prefix by the
    new destinations and keeps the other callbacks; this is so after every
    assignment to [callbacks], which puts the backends first.  Assigning
    to [log_destinations] the list just read from it changes nothing.
    Assigning to it the list read from [callbacks] makes the other
    callbacks the backends and lists them twice as callbacks, since the
    backends are removed from that list before it is read.  Assigning to
    [callbacks] the list just read from it lists the backends twice. *)
Theorem log_destinations_replace_prefix (r : Registry.t)
    (user : list nat) :
  Registry.callbacks r = Registry.backends r ++ user ->
  (forall new,
      Registry.set_log_destinations (Registry.Fresh new) r
      = (Val tt, {| Registry.backends := new;
                    Registry.callbacks := new ++ user |})) /\
  Registry.set_log_destinations Registry.get_log_destinations r
  = (Val tt, r) /\
  Registry.set_log_destinations Registry.get_callbacks r
  = (Val tt, {| Registry.backends := user;
                Registry.callbacks := user ++ user |}) /\
  (forall x new,
      Registry.set_log_destinations (Registry.Fresh new)
        (Registry.set_callbacks x r)
      = (Val tt, {| Registry.backends := new;
                    Registry.callbacks := new ++ Registry.content x r |})) /\
  Registry.callbacks (Registry.set_callbacks Registry.get_callbacks r)
  = Registry.backends r ++ Registry.backends r ++ user.
Proof.
  intro H. split; [| split; [| split; [| split]]].
  - intro new. unfold Registry.set_log_destinations.
    rewrite H, remove_each_prefix. reflexivity.
  - unfold Registry.set_log_destinations, Registry.get_log_destinations.
    rewrite H, remove_each_prefix. simpl.
    destruct r as [bs cs]. simpl in *. rewrite H. reflexivity.
  - unfold Registry.set_log_destinations, Registry.get_callbacks.
    rewrite H, remove_each_prefix. reflexivity.
  - intros x new.
    unfold Registry.set_log_destinations, Registry.set_callbacks.
    simpl. rewrite remove_each_prefix. reflexivity.
  - unfold Registry.get_callbacks, Registry.set_callbacks. simpl.
    rewrite H. reflexivity.
Qed.

(** X16. When a log backend is not among the callbacks, setting the log
    destinations raises ValueError and the backends stay as they were,
    whatever is assigned. *)
Theorem log_destinations_missing_backend (r : Registry.t)
    (x : Registry.Assigned) (b : nat) :
  In b (Registry.backends r) ->
  ~ In b (Registry.callbacks r) ->
  fst (Registry.set_log_destinations x r) = Raise ValueError /\
  Registry.backends (snd (Registry.set_log_destinations x r))
  = Registry.backends r.
Proof.
  intros Hb Hnot. unfold Registry.set_log_destinations.
  pose proof (remove_each_missing _ _ b Hb Hnot) as H.
  destruct (Registry.remove_each (Registry.backends r) (Registry.callbacks r))
    as [[[] | e |] rest]; simpl in *; try discriminate; auto.
Qed.

Lemma delegating_log base a t :
  left_to_deepspeed a = false ->
  delegating base t ->
  delegating base (set_trace (trace t ++ [a]) t).
Proof.
  intros Ha [Hd [new [Htr Hall]]]. split; [exact Hd |].
  exists (new ++ [a]). simpl. rewrite Htr, app_assoc. split; [reflexivity |].
  apply Forall_app. split; [exact Hall | constructor; [exact Ha | constructor]].
Qed.

Lemma pres_bind_known {A B} (P : Trainer -> Prop) (m : M A) (k : A -> M B)
    (v : A) :
  (forall t, P t -> forall a, fst (m t) = Val a -> a = v) ->
  pres P m -> pres P (k v) -> pres P (bind m k).
Proof.
  intros Hv Hm Hk t Ht. unfold bind.
  specialize (Hv t Ht). specialize (Hm t Ht).
  destruct (m t) as [[a | e |] t1]; simpl in *; auto.
  rewrite (Hv a eq_refl). apply Hk, Hm.
Qed.

Lemma use_grad_scaling_deepspeed p sc t a :
  deepspeed_enabled t = true ->
  fst (_use_grad_scaling p sc t) = Val a -> a = false.
Proof.
  intros Hd. unfold _use_grad_scaling, bind, gets. rewrite Hd. simpl.
  intro H. inversion H. reflexivity.
Qed.

(** Proofs of [pres (delegating base) m]. *)
Ltac pres_delegating :=
  repeat first
    [ lazymatch goal with
      | |- pres _ (bind (gets deepspeed_enabled) _) =>
          apply (pres_bind_gets_eq _ deepspeed_enabled _ true);
          [intros ? [? _]; assumption |]; cbv beta iota; cbn [negb];
          cbv beta iota
      | |- pres _ (bind (_use_grad_scaling _ _) _) =>
          apply (pres_bind_known _ _ _ false);
          [ intros ? [? _] ?; apply use_grad_scaling_deepspeed; assumption
          | unfold _use_grad_scaling | cbv beta iota ]
      end
    | pres_struct
    | lazymatch goal with
      | |- pres _ (modify_state _) =>
          apply pres_modify_state; intros ? ?; assumption
      | |- pres _ (log _) =>
          apply pres_log; intros ? ?;
          apply delegating_log; [reflexivity | assumption]
      | |- pres _ (run_event _) =>
          apply pres_run_event; intros ? ?;
          [apply delegating_log; [reflexivity | assumption] | assumption]
      | |- pres _ (no_grad _) =>
          apply pres_no_grad; [intros ? ? ?; assumption |]
      | |- pres _ (modify _) => apply pres_modify; intros ? ?; assumption
      end
    | solve [auto] ].

Lemma standalone_log base a t :
  on_deepspeed_engine a = false ->
  standalone base t ->
  standalone base (set_trace (trace t ++ [a]) t).
Proof.
  intros Ha [Hd [new [Htr Hall]]]. split; [exact Hd |].
  exists (new ++ [a]). simpl. rewrite Htr, app_assoc. split; [reflexivity |].
  apply Forall_app. split; [exact Hall | constructor; [exact Ha | constructor]].
Qed.

(** Proofs of [pres (standalone base) m]. *)
Ltac pres_standalone :=
  repeat first
    [ lazymatch goal with
      | |- pres _ (bind (gets deepspeed_enabled) _) =>
          apply (pres_bind_gets_eq _ deepspeed_enabled _ false);
          [intros ? [? _]; assumption |]; cbv beta iota; cbn [negb];
          cbv beta iota
      end
    | pres_struct
    | lazymatch goal with
      | |- pres _ (modify_state _) =>
          apply pres_modify_state; intros ? ?; assumption
      | |- pres _ (log _) =>
          apply pres_log; intros ? ?;
          apply standalone_log;
          [ repeat match goal with
                   | |- context [if ?b then _ else _] => destruct b
                   end; reflexivity
          | assumption ]
      | |- pres _ (run_event _) =>
          apply pres_run_event; intros ? ?;
          [apply standalone_log; [reflexivity | assumption] | assumption]
      | |- pres _ (no_grad _) =>
          apply pres_no_grad; [intros ? ? ?; assumption |]
      | |- pres _ (modify _) => apply pres_modify; intros ? ?; assumption
      end
    | solve [auto] ].

Section DeepSpeed.

Variable module_of : ModuleRef -> ComposerModel.t.
Variable default_batch_split_fn : Batch -> Z -> list Batch.
Variable _train_split_fn : option (Batch -> Z -> list Batch).
Variable _train_device_transformation_fn : option (Batch -> Batch).
Variable _eval_device_transformation_fn : option (Batch -> Batch).

Local Abbreviation train_batch_ :=
  (_train_batch module_of default_batch_split_fn _train_split_fn
     _train_device_transformation_fn _eval_device_transformation_fn).

Lemma pres_train_microbatch_delegating base cbs fin mb tot :
  pres (delegating base) (train_microbatch module_of false cbs fin mb tot).
Proof.
  unfold train_microbatch, scale_and_accumulate.
  pres_delegating.
Qed.

Lemma pres_train_microbatches_delegating base cbs mbs : forall tot,
  pres (delegating base) (train_microbatches module_of false cbs mbs tot).
Proof.
  pose proof (pres_train_microbatch_delegating base cbs) as H.
  induction mbs as [| mb rest IH]; intro tot; simpl; pres_delegating.
Qed.

Lemma pres_train_batch_inner_delegating base mbs sync :
  pres (delegating base) (_train_batch_inner module_of mbs sync).
Proof.
  pose proof (pres_train_microbatches_delegating base) as H.
  unfold _train_batch_inner, after_zero_grad.
  pres_delegating.
Qed.

Lemma pres_eval_delegating base is_batch :
  pres (delegating base)
    (eval module_of _eval_device_transformation_fn is_batch).
Proof.
  unfold eval, eval_body, eval_batch, _get_metrics_as_collection, islice,
    draw, transform, _compute_and_log_metrics.
  pres_delegating.
Qed.

Lemma pres_train_batch_delegating base :
  pres (delegating base) train_batch_.
Proof.
  pose proof (pres_train_batch_inner_delegating base) as H.
  pose proof (pres_eval_delegating base) as H'.
  unfold _train_batch, transform, _compute_and_log_metrics,
    checkpoint_if_due.
  pres_delegating.
Qed.

Lemma pres_train_microbatch_standalone base ugs cbs fin mb tot :
  pres (standalone base) (train_microbatch module_of ugs cbs fin mb tot).
Proof.
  unfold train_microbatch, scale_and_accumulate, scale_loss, backward.
  pres_standalone.
Qed.

Lemma pres_train_microbatches_standalone base ugs cbs mbs : forall tot,
  pres (standalone base) (train_microbatches module_of ugs cbs mbs tot).
Proof.
  pose proof (pres_train_microbatch_standalone base ugs cbs) as H.
  induction mbs as [| mb rest IH]; intro tot; simpl; pres_standalone.
Qed.

Lemma pres_train_batch_inner_standalone base mbs sync :
  pres (standalone base) (_train_batch_inner module_of mbs sync).
Proof.
  pose proof (pres_train_microbatches_standalone base) as H.
  unfold _train_batch_inner, after_zero_grad, _use_grad_scaling, zero_grad.
  pres_standalone.
Qed.

Lemma pres_step_all_standalone base ugs mbs os : forall tot,
  pres (standalone base) (step_all_with_closure module_of ugs mbs os tot).
Proof.
  pose proof (pres_train_batch_inner_standalone base) as H.
  induction os as [| o os IH]; intro tot; simpl; [pres_standalone |].
  unfold step_with_closure. pres_standalone.
Qed.

Lemma pres_eval_standalone base is_batch :
  pres (standalone base)
    (eval module_of _eval_device_transformation_fn is_batch).
Proof.
  unfold eval, eval_body, eval_batch, _get_metrics_as_collection, islice,
    draw, transform, _compute_and_log_metrics.
  pres_standalone.
Qed.

Lemma pres_train_batch_standalone base :
  pres (standalone base) train_batch_.
Proof.
  pose proof (pres_train_batch_inner_standalone base) as H.
  pose proof (pres_step_all_standalone base) as H''.
  pose proof (pres_eval_standalone base) as H'.
  unfold _train_batch, transform, _compute_and_log_metrics,
    checkpoint_if_due, _use_grad_scaling, _use_closures, iter_optimizers.
  pres_standalone.
Qed.

(** X17. Whatever the outcome of [_train_batch]: with DeepSpeed the
    trainer does not zero, unscale or clip gradients, step an optimizer or
    the scaler, run backward on a loss or enter a DDP sync context; without
    DeepSpeed it never calls backward or step on the model engine. *)
Theorem deepspeed_takes_over_optimizers (t : Trainer) :
  exists new,
    trace (snd (train_batch_ t)) = trace t ++ new /\
    (deepspeed_enabled t = true ->
     Forall (fun a => left_to_deepspeed a = false) new) /\
    (deepspeed_enabled t = false ->
     Forall (fun a => on_deepspeed_engine a = false) new).
Proof.
  set (t' := snd (train_batch_ t)).
  pose proof (pres_train_batch module_of default_batch_split_fn
                _train_split_fn _train_device_transformation_fn
                _eval_device_transformation_fn _ (extends_stable (trace t))
                t (ex_intro _ [] (eq_sym (app_nil_r _)))) as [new Hnew].
  fold t' in Hnew.
  exists new. split; [exact Hnew |]. split; intro Hd.
  - destruct (pres_train_batch_delegating (trace t) t) as [_ [new' [H1 H2]]].
    { split; [exact Hd |]. exists []. rewrite app_nil_r. auto. }
    fold t' in H1. rewrite Hnew in H1. apply app_inv_head in H1.
    subst new'. exact H2.
  - destruct (pres_train_batch_standalone (trace t) t) as [_ [new' [H1 H2]]].
    { split; [exact Hd |]. exists []. rewrite app_nil_r. auto. }
    fold t' in H1. rewrite Hnew in H1. apply app_inv_head in H1.
    subst new'. exact H2.
Qed.

End DeepSpeed.

(** ** Witnesses of the further properties of the trainer *)

Lemma train_batch_inner_phase_order_witness :
  let mbs := [[1; 2]; [3; 4; 5]]%nat in
  (let t := Example.built Example.args in
   exists new,
     trace (snd (_train_batch_inner Example.modules mbs true t))
     = trace t ++ new /\
     events new
     = BEFORE_TRAIN_BATCH :: concat (repeat microbatch_events 2)
       ++ [AFTER_TRAIN_BATCH] /\
     phases new = batch_phases [1; 1]%nat) /\
  (let t := Example.built (Example.with_deepspeed Example.args) in
   exists new,
     trace (snd (_train_batch_inner Example.modules mbs true t))
     = trace t ++ new /\
     phases new = batch_phases [1; 1]%nat).
Proof.
  intro mbs. split; intro t.
  - assert (He : engine_handlers t = [Example.quiet])
      by (vm_compute; reflexivity).
    destruct (train_batch_inner_phase_order Example.modules mbs true
                t
                (match fst (_train_batch_inner Example.modules mbs true
                              t) with
                 | Val q => q
                 | _ => 0%Q
                 end)
                (snd (_train_batch_inner Example.modules mbs true t)))
      as (new & Hnew & Hev & _ & _ & Hp); [vm_compute; reflexivity |].
    exists new. split; [exact Hnew |]. split; [exact Hev |].
    apply Hp; [vm_compute; reflexivity |].
    rewrite He. constructor; [| constructor]. intros ev s. simpl. auto.
  - destruct (train_batch_inner_phase_order Example.modules mbs true
                t
                (match fst (_train_batch_inner Example.modules mbs true
                              t) with
                 | Val q => q
                 | _ => 0%Q
                 end)
                (snd (_train_batch_inner Example.modules mbs true t)))
      as (new & Hnew & _ & _ & Hp & _); [vm_compute; reflexivity |].
    exists new. split; [exact Hnew |].
    apply Hp. vm_compute. reflexivity.
Defined.

Lemma init_returns_only_if_supported_witness :
  supported Example.modules Example.args = true /\
  engine_closed (Example.built Example.args) = false /\
  _train_dataloader_iterator (Example.built Example.args) = None /\
  deepspeed_enabled (Example.built Example.args) = false /\
  _checkpointer (Example.built Example.args)
  = {| checkpoint_interval_unit := None;
       save_interval := 1;
       write_fails := env_write_fails Example.args |}.
Proof.
  apply (init_returns_only_if_supported Example.modules Example.sgd
           Example.args (Example.built Example.args)).
  vm_compute. reflexivity.
Defined.

Lemma log_destinations_replace_prefix_witness :
  let r := {| Registry.backends := [1; 2]%nat;
              Registry.callbacks := [1; 2; 7; 8]%nat |} in
  Registry.set_log_destinations (Registry.Fresh [3]%nat) r
  = (Val tt, {| Registry.backends := [3]%nat;
                Registry.callbacks := [3; 7; 8]%nat |}) /\
  Registry.set_log_destinations Registry.get_log_destinations r
  = (Val tt, r) /\
  Registry.set_log_destinations Registry.get_callbacks r
  = (Val tt, {| Registry.backends := [7; 8]%nat;
                Registry.callbacks := [7; 8; 7; 8]%nat |}) /\
  Registry.callbacks (Registry.set_callbacks Registry.get_callbacks r)
  = [1; 2; 1; 2; 7; 8]%nat.
Proof.
  intro r.
  destruct (log_destinations_replace_prefix r [7; 8]%nat eq_refl)
    as (H1 & H2 & H3 & _ & H5).
  split; [exact (H1 [3]%nat) |]. split; [exact H2 |].
  split; [exact H3 | exact H5].
Defined.

Lemma log_destinations_missing_backend_witness :
  let r := {| Registry.backends := [1; 2]%nat;
              Registry.callbacks := [1; 7]%nat |} in
  fst (Registry.set_log_destinations (Registry.Fresh [3]%nat) r)
  = Raise ValueError /\
  Registry.backends
    (snd (Registry.set_log_destinations (Registry.Fresh [3]%nat) r))
  = [1; 2]%nat.
Proof.
  intro r.
  apply (log_destinations_missing_backend r (Registry.Fresh [3]%nat) 2%nat).
  - simpl. right. left. reflexivity.
  - simpl. intros [H | [H | []]]; discriminate H.
Defined.

(** ** The outcome of a batch and its sync contexts *)

Lemma sync_contexts_app tr tr' :
  sync_contexts (tr ++ tr') = sync_contexts tr ++ sync_contexts tr'.
Proof.
  induction tr as [| a tr IH]; [reflexivity |].
  destruct a; simpl; rewrite IH; reflexivity.
Qed.

Lemma sync_contexts_silent {A} (f : A -> Action) (l : list A) :
  (forall x, sync_contexts [f x] = []) -> sync_contexts (map f l) = [].
Proof.
  intro H. induction l as [| x l IH]; [reflexivity |].
  change (map f (x :: l)) with ([f x] ++ map f l).
  rewrite sync_contexts_app, H, IH. reflexivity.
Qed.

Lemma syncing_stable strategy : Stable (syncing strategy).
Proof. split; intros; assumption. Qed.

Lemma final_only_next n :
  final_only (S (S n)) = false :: final_only (S n).
Proof. reflexivity. Qed.

Section SyncContexts.

Variable module_of : ModuleRef -> ComposerModel.t.

Local Abbreviation train_microbatch_ := (train_microbatch module_of).
Local Abbreviation train_microbatches_ := (train_microbatches module_of).
Local Abbreviation inner_ := (_train_batch_inner module_of).

Lemma train_microbatch_sync ugs cbs fin mb tot t tot' t' :
  deepspeed_enabled t = false ->
  train_microbatch_ ugs cbs fin mb tot t = (Val tot', t') ->
  sync_contexts (trace t')
  = sync_contexts (trace t) ++ [(fin, ddp_sync_strategy t)].
Proof.
  intros Hds E.
  refine (wp_inv _ t (Val tot') t'
            (fun r t' =>
               forall x, r = Val x ->
               sync_contexts (trace t')
               = sync_contexts (trace t) ++ [(fin, ddp_sync_strategy t)])
            _ E tot' eq_refl).
  clear E tot' t'.
  unfold train_microbatch. wp_steps. rewrite Hds. wp_steps.
  event_free. wp_steps. event_free. event_free. wp_steps.
  apply wp_scale_and_accumulate_trace; [| intros; not_val].
  intros tot1 t1 H1. proj_simpl_in H1. cbv beta iota.
  event_free. event_free.
  apply wp_bind.
  assert (Hscale : forall t0 (Q0 : Result unit -> Trainer -> Prop),
             (forall t1, trace t1 = trace t0 -> Q0 (Val tt) t1) ->
             (forall e t1, Q0 (Raise e) t1) ->
             wp (if ugs then scale_loss else ret tt) t0 Q0).
  { intros t0 Q0 Hv Hr. destruct ugs.
    - apply wp_scale_loss_trace; assumption.
    - apply wp_ret, Hv. reflexivity. }
  apply Hscale; [| intros; not_val].
  intros t2 H2. proj_simpl_in H2. wp_steps.
  match goal with
  | |- wp (for_each ?ls (backward ?cg)) ?t0 _ =>
      destruct (backward_all_trace cg ls t0) as [t3 [E3 H3]];
      eapply wp_eq; [exact E3 |]
  end.
  cbv beta iota. wp_steps. event_free. wp_steps.
  intros x _.
  rewrite H3, H2, H1.
  repeat rewrite ?sync_contexts_app. simpl.
  rewrite (sync_contexts_silent (fun l => ABackward l _)); [| reflexivity].
  rewrite ?app_nil_r, <- ?app_assoc. reflexivity.
Qed.

Lemma train_microbatches_sync ugs cbs mbs : forall tot t tot' t',
  deepspeed_enabled t = false ->
  train_microbatches_ ugs cbs mbs tot t = (Val tot', t') ->
  sync_contexts (trace t')
  = sync_contexts (trace t)
    ++ map (fun f => (f, ddp_sync_strategy t)) (final_only (length mbs)).
Proof.
  induction mbs as [| mb rest IH]; intros tot t tot' t' Hds E.
  - simpl in E. inversion E; subst. simpl. rewrite app_nil_r. reflexivity.
  - simpl in E. apply bind_val_inv in E. destruct E as [tot1 [t1 [E1 E2]]].
    destruct (pres_apply _ _ _ _ _
                (pres_train_microbatch module_of _
                   (syncing_stable (ddp_sync_strategy t)) _ _ _ _ _)
                (conj Hds eq_refl) E1) as [Hds1 Hst1].
    rewrite (IH _ _ _ _ Hds1 E2), Hst1.
    rewrite (train_microbatch_sync _ _ _ _ _ _ _ _ Hds E1).
    rewrite <- app_assoc. f_equal.
    destruct rest as [| mb' rest']; [reflexivity |].
    change (length (mb :: mb' :: rest')) with (S (S (length rest'))).
    rewrite final_only_next. reflexivity.
Qed.

Lemma after_zero_grad_sync ugs mbs t total t' :
  deepspeed_enabled t = false ->
  after_zero_grad module_of ugs false mbs t = (Val total, t') ->
  sync_contexts (trace t')
  = sync_contexts (trace t)
    ++ map (fun f => (f, ddp_sync_strategy t)) (final_only (length mbs)).
Proof.
  intros Hds E. unfold after_zero_grad in E.
  apply bind_val_inv in E. destruct E as [tot1 [t1 [E1 E2]]].
  rewrite <- (train_microbatches_sync _ _ _ _ _ _ _ Hds E1).
  refine (wp_inv _ t1 (Val total) t'
            (fun r t' =>
               forall x, r = Val x ->
               sync_contexts (trace t') = sync_contexts (trace t1))
            _ E2 total eq_refl).
  clear E2 E1.
  apply wp_bind.
  assert (Hun : exists t2,
             (if ugs
              then st <- gets state ;;
                   for_each (ensure_tuple (optimizers st))
                     (fun o => log (AUnscale o))
              else ret tt) t1 = (Val tt, t2) /\
             sync_contexts (trace t2) = sync_contexts (trace t1)).
  { destruct ugs; [| exists t1; auto].
    destruct (log_all_trace AUnscale
                (ensure_tuple (optimizers (state t1))) t1) as [t2 [E2 H2]].
    exists t2. split; [exact E2 |].
    rewrite H2, sync_contexts_app.
    rewrite (sync_contexts_silent AUnscale), app_nil_r; auto. }
  destruct Hun as [t2 [E2 Hs2]].
  eapply wp_eq; [exact E2 |]. cbv beta iota. wp_steps.
  simpl negb. cbv iota.
  destruct (_grad_clip_norm t2); wp_steps; event_free; wp_steps;
    intros x _; repeat rewrite sync_contexts_app; simpl;
    rewrite ?app_nil_r; exact Hs2.
Qed.

(** X19. Without DeepSpeed, a call of [_train_batch_inner] that returns
    has entered one DDP sync context per microbatch, each with the sync
    strategy of the trainer, and only the last of them with
    [is_final_microbatch] set, whatever the handlers do. *)
Theorem sync_deferred_to_final_microbatch (microbatches : list Batch)
    (ddp_sync : bool) (t : Trainer) (total : Q) (t' : Trainer) :
  deepspeed_enabled t = false ->
  inner_ microbatches ddp_sync t = (Val total, t') ->
  exists new,
    trace t' = trace t ++ new /\
    sync_contexts new
    = map (fun is_final => (is_final, ddp_sync_strategy t))
        (final_only (length microbatches)).
Proof.
  intros Hds E.
  pose proof (pres_apply (extends (trace t)) _ _ _ _
                (pres_train_batch_inner module_of _ (extends_stable (trace t))
                   microbatches ddp_sync)
                (ex_intro _ [] (eq_sym (app_nil_r _))) E) as [new Hnew].
  exists new. split; [exact Hnew |].
  assert (H : sync_contexts (trace t')
              = sync_contexts (trace t)
                ++ map (fun f => (f, ddp_sync_strategy t))
                     (final_only (length microbatches))).
  { refine (wp_inv _ t (Val total) t'
              (fun r t' =>
                 forall x, r = Val x ->
                 sync_contexts (trace t')
                 = sync_contexts (trace t)
                   ++ map (fun f => (f, ddp_sync_strategy t))
                        (final_only (length microbatches)))
              _ E total eq_refl).
    clear E Hnew.
    unfold _train_batch_inner.
    event_free. wp_steps.
    destruct (optimizers s) as [os |]; wp_steps; [| not_val].
    destruct (scaler s) as [g |]; wp_steps; [| not_val].
    unfold wp at 1.
    match goal with
    | |- context [_use_grad_scaling ?p ?sc ?t0] =>
        destruct (_use_grad_scaling p sc t0) as [[ugs | e |] t1] eqn:E1
    end; simpl; [| not_val | not_val].
    assert (Ht1 : t1 = set_state s
                         (set_trace (trace t ++ [ARunEvent BEFORE_TRAIN_BATCH])
                            t)).
    { unfold _use_grad_scaling, bind, gets, ret, raise in E1.
      repeat match type of E1 with
             | context [if ?b then _ else _] => destruct b
             end; inversion E1; reflexivity. }
    subst t1. wp_steps. rewrite Hds. simpl negb. cbv iota.
    match goal with
    | |- wp (for_each os zero_grad) ?tx _ =>
        destruct (zero_grads_spec os tx) as [t2 [E2 [H2 _]]];
        pose proof (pres_apply (syncing (ddp_sync_strategy t)) _ _ _ _
                      (pres_for_each _ os zero_grad
                         (pres_zero_grad _ (syncing_stable _)))
                      (conj Hds eq_refl : syncing (ddp_sync_strategy t) tx)
                      E2) as [Hds2 Hst2];
        eapply wp_eq; [exact E2 |]
    end.
    cbv beta iota. unfold wp.
    destruct (after_zero_grad module_of ugs false microbatches t2)
      as [[tot1 | e |] t3] eqn:E3; simpl; [| not_val | not_val].
    intros x _.
    rewrite (after_zero_grad_sync _ _ _ _ _ Hds2 E3), Hst2, H2.
    proj_simpl. repeat rewrite sync_contexts_app.
    rewrite (sync_contexts_silent AZeroGrad); [| reflexivity].
    simpl. rewrite ?app_nil_r. reflexivity. }
  rewrite Hnew, sync_contexts_app in H. apply app_inv_head in H. exact H.
Qed.

End SyncContexts.

Ltac stopped :=
  unfold stopped_within; proj_simpl;
  eexists; eexists;
  split; [reflexivity |];
  split; [rewrite <- ?app_assoc; simpl; rewrite ?phases_app; simpl;
          first [reflexivity | symmetry; apply app_nil_r] |];
  split; [eexists; reflexivity | try discriminate; try reflexivity].

Ltac event_stop :=
  enter_bind;
  apply wp_run_event_any;
  [ intros _; cbv beta iota; stopped
  | let o := fresh "o" in
    let s := fresh "s" in
    intros _ o s _; destruct o; [cbv beta iota; stopped |]; proj_simpl ].

Section EmptyBatch.

Variable module_of : ModuleRef -> ComposerModel.t.

Local Abbreviation train_microbatch_ := (train_microbatch module_of).
Local Abbreviation train_microbatches_ := (train_microbatches module_of).
Local Abbreviation inner_ := (_train_batch_inner module_of).

Hypothesis loss_given :
  forall m o b, ComposerModel.loss (module_of m) o b <> [].

Lemma train_microbatch_empty ugs fin mb tot t :
  deepspeed_enabled t = false ->
  wp (train_microbatch_ ugs 0 fin mb tot) t
    (stopped_within phases_to_loss (trace t)).
Proof.
  intro Hds.
  unfold train_microbatch. wp_steps. rewrite Hds. wp_steps.
  event_stop. wp_steps. event_stop. event_stop. wp_steps.
  unfold scale_and_accumulate. wp_steps.
  destruct (ComposerModel.loss (module_of (model s1)) (outputs s1) (batch s1))
    as [| l ls] eqn:El; [contradiction (loss_given _ _ _ El) |].
  wp_steps. stopped.
Qed.

(** X18. Without DeepSpeed and with a model whose loss has at least one
    component, [_train_batch_inner] on microbatches that are all empty
    never returns, whatever the handlers do.  It raises in the first
    microbatch, at the latest when the loss is scaled by
    [last_microbatch_size / current_batch_size], before AFTER_LOSS and
    before any backward pass; when it got as far as computing the first
    loss, the exception is ZeroDivisionError. *)
Theorem empty_batch_never_trains (microbatches : list Batch)
    (ddp_sync : bool) (t : Trainer) :
  deepspeed_enabled t = false ->
  microbatches <> [] ->
  sumZ (map _get_batch_size microbatches) = 0 ->
  exists e new,
    fst (inner_ microbatches ddp_sync t) = Raise e /\
    trace (snd (inner_ microbatches ddp_sync t)) = trace t ++ new /\
    (exists rest, phases_to_first_loss = phases new ++ rest) /\
    (phases new = phases_to_first_loss -> e = ZeroDivisionError).
Proof.
  intros Hds Hne Hz.
  destruct (pres_train_batch_inner module_of _ (extends_stable (trace t))
              microbatches ddp_sync t
              (ex_intro _ [] (eq_sym (app_nil_r _)))) as [new Hnew].
  assert (H : wp (inner_ microbatches ddp_sync) t
                (stopped_within phases_to_first_loss (trace t))).
  { unfold _train_batch_inner.
    event_stop. wp_steps.
    destruct (optimizers s) as [os |]; wp_steps; [| stopped].
    destruct (scaler s) as [g |]; wp_steps; [| stopped].
    unfold _use_grad_scaling. wp_steps. rewrite Hds. wp_steps.
    destruct (Precision_eqb (precision s) AMP && scaler_unusable (Some g));
      wp_steps; [stopped |].
    rewrite Hds. simpl negb. cbv iota.
    match goal with
    | |- wp (for_each os zero_grad) ?tx _ =>
        destruct (zero_grads_spec os tx) as [t2 [E2 [H2 _]]];
        pose proof (pres_apply (syncing (ddp_sync_strategy t)) _ _ _ _
                      (pres_for_each _ os zero_grad
                         (pres_zero_grad _ (syncing_stable _)))
                      (conj Hds eq_refl : syncing (ddp_sync_strategy t) tx)
                      E2) as [Hds2 _];
        eapply wp_eq; [exact E2 |]
    end.
    cbv beta iota. proj_simpl_in H2.
    unfold after_zero_grad. rewrite Hz.
    destruct microbatches as [| mb rest]; [contradiction Hne; reflexivity |].
    cbn [train_microbatches]. apply wp_bind. apply wp_bind.
    eapply wp_conseq; [apply train_microbatch_empty; exact Hds2 |].
    intros r t' (e & done & Hr & Hp & [rest' Hrest] & Hzde). subst r.
    exists e, (PEvent BEFORE_TRAIN_BATCH :: done).
    split; [reflexivity |].
    split.
    { rewrite Hp, H2. repeat rewrite phases_app.
      rewrite (phases_silent AZeroGrad); [| reflexivity].
      simpl. rewrite app_nil_r, <- app_assoc. reflexivity. }
    split.
    { exists rest'. unfold phases_to_first_loss.
      unfold phases_to_loss in Hrest. simpl. rewrite <- Hrest. reflexivity. }
    intro Hd. apply Hzde. unfold phases_to_first_loss in Hd.
    inversion Hd. reflexivity. }
  unfold wp, stopped_within in H.
  destruct H as (e & done & Hr & Hp & Hpre & Hzde).
  rewrite Hnew, phases_app in Hp. apply app_inv_head in Hp. subst done.
  exists e, new. auto.
Qed.

End EmptyBatch.

Lemma toy_loss_given (m : ModuleRef) (o : Outputs) (b : Batch) :
  ComposerModel.loss (Example.modules m) o b <> [].
Proof. discriminate. Qed.

Lemma empty_batch_never_trains_witness :
  let t := Example.built Example.args in
  fst (_train_batch_inner Example.modules [[]; []] true t)
  = Raise ZeroDivisionError /\
  exists e new,
    fst (_train_batch_inner Example.modules [[]; []] true t) = Raise e /\
    trace (snd (_train_batch_inner Example.modules [[]; []] true t))
    = trace t ++ new /\
    (exists rest, phases_to_first_loss = phases new ++ rest) /\
    (phases new = phases_to_first_loss -> e = ZeroDivisionError).
Proof.
  intro t.
  split; [vm_compute; reflexivity |].
  apply (empty_batch_never_trains Example.modules toy_loss_given [[]; []]
           true t); [vm_compute; reflexivity | discriminate | reflexivity].
Defined.

Lemma sync_deferred_to_final_microbatch_witness :
  let t := Example.built Example.args in
  let mbs := [[1; 2]; [3; 4]; [5]]%nat in
  exists new,
    trace (snd (_train_batch_inner Example.modules mbs true t))
    = trace t ++ new /\
    sync_contexts new
    = [(false, ddp_sync_strategy t); (false, ddp_sync_strategy t);
       (true, ddp_sync_strategy t)].
Proof.
  intros t mbs.
  apply (sync_deferred_to_final_microbatch Example.modules mbs true t
           (match fst (_train_batch_inner Example.modules mbs true t) with
            | Val q => q
            | _ => 0%Q
            end)
           (snd (_train_batch_inner Example.modules mbs true t))).
  - vm_compute. reflexivity.
  - vm_compute. reflexivity.
Defined.
